(** * kubesops: secret representation and reconciliation

    A shallow embedding of the Go sources (secret.go, handle_diff.go, the
    docker-registry codec, the store client, the upload driver and main)
    together with the parts of the Go standard library they call, and the
    properties of the specification checked against them.

    Go strings are byte sequences: they are modelled by [string] (a list of
    8-bit [ascii]).  Go maps are modelled by [gmap string _].  Printed output
    is modelled as the list of lines written to standard output. *)

From Stdlib Require Import Ascii String NArith ZArith Bool Lia.
From stdpp Require Import base option list strings gmap pretty sorting.

(** ** Results of fallible functions (Go's [(value, error)] pairs) *)

Inductive result (E A : Type) : Type :=
| Ok (a : A)
| Err (e : E).
Arguments Ok {E A} a.
Arguments Err {E A} e.

Definition is_ok {E A} (r : result E A) : bool :=
  match r with Ok _ => true | Err _ => false end.

(** ** Bytes *)

Definition byte_of (c : ascii) : N := N_of_ascii c.

(** The double quote and the single quote characters. *)
Definition dquote : ascii := "034"%char.
Definition squote : ascii := "039"%char.

Definition str1 (c : ascii) : string := String c EmptyString.

Definition newline : string := str1 "010".

(** ** Maps *)

(** [v, ok := m[key]]: the zero value when the key is absent. *)
Definition mapIndex (m : gmap string string) (key : string) : string * bool :=
  match m !! key with
  | Some v => (v, true)
  | None => (EmptyString, false)
  end.

(** ** Package strings *)

Module GoStrings.

(** [asciiSpace] of package strings: tab, newline, vertical tab, form feed,
    carriage return and space. *)
Definition asciiSpace (c : ascii) : bool :=
  match c with
  | "009" | "010" | "011" | "012" | "013" | " " => true
  | _ => false
  end%char.

(** [unicode.IsSpace], read on the UTF-8 encoding: the width in bytes of the
    white-space rune that starts the string, 0 when the string does not
    start with one.  The runes are U+0009..U+000D, U+0020, U+0085, U+00A0,
    U+1680, U+2000..U+200A, U+2028, U+2029, U+202F, U+205F and U+3000. *)
Definition spaceWidth (s : string) : nat :=
  match s with
  | String c r =>
    if asciiSpace c then 1
    else
      match c, r with
      | "194"%char, String d _ =>
        if (byte_of d =? 133)%N || (byte_of d =? 160)%N then 2 else 0
      | "225"%char, String "154" (String "128" _) => 3
      | "226"%char, String "128" (String e _) =>
        if ((128 <=? byte_of e)%N && (byte_of e <=? 138)%N)
           || (byte_of e =? 168)%N || (byte_of e =? 169)%N
           || (byte_of e =? 175)%N
        then 3 else 0
      | "226"%char, String "129" (String "159" _) => 3
      | "227"%char, String "128" (String "128" _) => 3
      | _, _ => 0
      end
  | EmptyString => 0
  end.

(** The same test on the reversed string, for trimming at the right end
    ([utf8.DecodeLastRuneInString] followed by [unicode.IsSpace]). *)
Definition spaceWidthRev (s : string) : nat :=
  match s with
  | String c r =>
    if asciiSpace c then 1
    else
      match r with
      | String "194" _ =>
        if (byte_of c =? 133)%N || (byte_of c =? 160)%N then 2 else 0
      | String "154" (String "225" _) =>
        if (byte_of c =? 128)%N then 3 else 0
      | String "128" (String "226" _) =>
        if ((128 <=? byte_of c)%N && (byte_of c <=? 138)%N)
           || (byte_of c =? 168)%N || (byte_of c =? 169)%N
           || (byte_of c =? 175)%N
        then 3 else 0
      | String "129" (String "226" _) =>
        if (byte_of c =? 159)%N then 3 else 0
      | String "128" (String "227" _) =>
        if (byte_of c =? 128)%N then 3 else 0
      | _ => 0
      end
  | EmptyString => 0
  end.

Fixpoint dropBytes (n : nat) (s : string) : string :=
  match n, s with
  | S n', String _ r => dropBytes n' r
  | _, _ => s
  end.

(** Strip white-space runes from the front; [fuel] bounds the number of
    runes, the length of the string is always enough. *)
Fixpoint trimWith (width : string -> nat) (fuel : nat) (s : string) : string :=
  match fuel with
  | O => s
  | S fuel' =>
    match width s with
    | O => s
    | w => trimWith width fuel' (dropBytes w s)
    end
  end.

Definition TrimLeftSpace (s : string) : string :=
  trimWith spaceWidth (String.length s) s.

Definition TrimRightSpace (s : string) : string :=
  String.rev (trimWith spaceWidthRev (String.length s) (String.rev s)).

(** [strings.TrimSpace]: all leading and trailing white space removed, as
    defined by Unicode. *)
Definition TrimSpace (s : string) : string :=
  TrimRightSpace (TrimLeftSpace s).

(** [strings.HasPrefix]. *)
Definition HasPrefix (s prefix : string) : bool := String.prefix prefix s.

(** [strings.SplitN(s, sep, 2)] for a separator of one byte: the text before
    the first separator and the text after it, or the string alone when it
    holds no separator. *)
Fixpoint SplitN2 (s : string) (sep : ascii) : list string :=
  match s with
  | EmptyString => [EmptyString]
  | String c r =>
    if Ascii.eqb c sep then [EmptyString; r]
    else
      match SplitN2 r sep with
      | [a; b] => [String c a; b]
      | _ => [s]
      end
  end.

(** [strings.Contains] for a separator of one byte. *)
Fixpoint ContainsByte (s : string) (sep : ascii) : bool :=
  match s with
  | EmptyString => false
  | String c r => Ascii.eqb c sep || ContainsByte r sep
  end.

End GoStrings.

(** ** Package bufio: a Scanner with the default split function ScanLines *)

Module GoBufio.

(** [bufio.MaxScanTokenSize] = 64 * 1024. *)
Definition MaxScanTokenSize : N := 65536.

(** The input cut at every newline; a final piece that is empty yields no
    line. *)
Fixpoint rawLines (s : string) : list string :=
  match s with
  | EmptyString => []
  | String c r =>
    if Ascii.eqb c "010" then EmptyString :: rawLines r
    else
      match rawLines r with
      | [] => [str1 c]
      | l :: ls => String c l :: ls
      end
  end.

(** [dropCR]: one trailing carriage return is dropped. *)
Fixpoint dropCR (s : string) : string :=
  match s with
  | EmptyString => EmptyString
  | String c EmptyString =>
    if Ascii.eqb c "013" then EmptyString else s
  | String c r => String c (dropCR r)
  end.

(** The tokens that successive calls of [Scan] deliver, and whether the
    scanner stopped with an error.  A line must fit the buffer together
    with its newline, and the buffer never grows beyond
    [MaxScanTokenSize]: a line of [MaxScanTokenSize] bytes or more ends the
    scan with [ErrTooLong]. *)
Fixpoint scanTokens (ls : list string) : list string * bool :=
  match ls with
  | [] => ([], false)
  | l :: ls' =>
    if (MaxScanTokenSize <=? N.of_nat (String.length l))%N then ([], true)
    else
      let '(ts, e) := scanTokens ls' in (dropCR l :: ts, e)
  end.

Definition Scan (content : string) : list string * bool :=
  scanTokens (rawLines content).

End GoBufio.

(** ** Package regexp, for the one expression of secret.go *)

Module GoRegexp.

(** The class [\s] of RE2: tab, newline, form feed, carriage return, space
    (no vertical tab). *)
Definition reSpace (c : ascii) : bool :=
  match c with
  | "009" | "010" | "012" | "013" | " " => true
  | _ => false
  end%char.

Fixpoint skipSpace (s : string) : string :=
  match s with
  | String c r => if reSpace c then skipSpace r else s
  | EmptyString => EmptyString
  end.

(** The longest prefix without a newline: what a greedy [.+] takes. *)
Fixpoint upToNewline (s : string) : string :=
  match s with
  | String c r =>
    if Ascii.eqb c "010" then EmptyString else String c (upToNewline r)
  | EmptyString => EmptyString
  end.

(** The last byte of the string that is not a newline. *)
Fixpoint lastNonNewline (s : string) : option ascii :=
  match s with
  | EmptyString => None
  | String c r =>
    match lastNonNewline r with
    | Some d => Some d
    | None => if Ascii.eqb c "010" then None else Some c
    end
  end.

Definition stripPrefix (p s : string) : option string :=
  if String.prefix p s
  then Some (GoStrings.dropBytes (String.length p) s)
  else None.

(** [FindStringSubmatch] for [^#\s*type\s*=\s*(.+)]: the text of group 1
    when the expression matches.  Each [\s*] is greedy; when the last one
    runs to the end of the input the matcher backs off to the last byte
    that [.] accepts. *)
Definition findTypeDirective (line : string) : option string :=
  match line with
  | String "#" r =>
    match stripPrefix "type" (skipSpace r) with
    | Some r1 =>
      match skipSpace r1 with
      | String "=" r2 =>
        match skipSpace r2 with
        | EmptyString => str1 <$> lastNonNewline r2
        | r3 => Some (upToNewline r3)
        end
      | _ => None
      end
    | None => None
    end
  | _ => None
  end.

End GoRegexp.

(** ** Package unicode/utf8 *)

Module GoUtf8.

(** [utf8.RuneError], U+FFFD. *)
Definition RuneError : N := 65533.

Definition byte_to_ascii (n : N) : ascii := ascii_of_N n.

Definition between (lo hi : N) (c : ascii) : bool :=
  ((lo <=? byte_of c) && (byte_of c <=? hi))%N.

(** A continuation byte, 10xxxxxx. *)
Definition isCont (c : ascii) : bool := between 128 191 c.

(** [utf8.DecodeRuneInString]: the rune that starts the string and its width
    in bytes; [(RuneError, 1)] when the encoding is invalid (a stray
    continuation byte, an overlong form, a surrogate, a value beyond
    U+10FFFF, a truncated sequence), [(RuneError, 0)] for the empty
    string. *)
Definition DecodeRune (s : string) : N * nat :=
  match s with
  | EmptyString => (RuneError, 0)
  | String c0 r =>
    let x := byte_of c0 in
    if (x <? 128)%N then (x, 1)
    else if between 194 223 c0 then
      match r with
      | String c1 _ =>
        if isCont c1
        then (((x mod 32) * 64 + byte_of c1 mod 64)%N, 2)
        else (RuneError, 1)
      | _ => (RuneError, 1)
      end
    else if between 224 239 c0 then
      match r with
      | String c1 (String c2 _) =>
        if between (if (x =? 224)%N then 160 else 128)
                   (if (x =? 237)%N then 159 else 191) c1
           && isCont c2
        then ((((x mod 16) * 64 + byte_of c1 mod 64) * 64
               + byte_of c2 mod 64)%N, 3)
        else (RuneError, 1)
      | _ => (RuneError, 1)
      end
    else if between 240 244 c0 then
      match r with
      | String c1 (String c2 (String c3 _)) =>
        if between (if (x =? 240)%N then 144 else 128)
                   (if (x =? 244)%N then 143 else 191) c1
           && isCont c2 && isCont c3
        then (((((x mod 8) * 64 + byte_of c1 mod 64) * 64
                + byte_of c2 mod 64) * 64 + byte_of c3 mod 64)%N, 4)
        else (RuneError, 1)
      | _ => (RuneError, 1)
      end
    else (RuneError, 1)
  end.

(** [utf8.AppendRune] on an empty buffer: the UTF-8 encoding of the rune;
    surrogates and values beyond U+10FFFF are encoded as U+FFFD. *)
Definition EncodeRune (r : N) : string :=
  if (r <? 128)%N then str1 (byte_to_ascii r)
  else if (r <? 2048)%N then
    String (byte_to_ascii (192 + r / 64))
      (str1 (byte_to_ascii (128 + r mod 64)))
  else if (1114111 <? r)%N || ((55296 <=? r)%N && (r <=? 57343)%N) then
    String "239" (String "191" (str1 "189"))
  else if (r <? 65536)%N then
    String (byte_to_ascii (224 + r / 4096))
      (String (byte_to_ascii (128 + (r / 64) mod 64))
         (str1 (byte_to_ascii (128 + r mod 64))))
  else
    String (byte_to_ascii (240 + r / 262144))
      (String (byte_to_ascii (128 + (r / 4096) mod 64))
         (String (byte_to_ascii (128 + (r / 64) mod 64))
            (str1 (byte_to_ascii (128 + r mod 64))))).

(** [utf8.ValidString]. *)
Fixpoint validWith (fuel : nat) (s : string) : bool :=
  match fuel with
  | O => true
  | S fuel' =>
    match s with
    | EmptyString => true
    | _ =>
      let '(r, size) := DecodeRune s in
      if (r =? RuneError)%N && (size =? 1)%nat then false
      else validWith fuel' (GoStrings.dropBytes size s)
    end
  end.

Definition ValidString (s : string) : bool := validWith (String.length s) s.

End GoUtf8.

(** ** Package encoding/base64 *)

Module GoBase64.

(** The alphabet of [base64.StdEncoding]. *)
Definition encodeStd : string :=
  "ABCDEFGHIJKLMNOPQRSTUVWXYZabcdefghijklmnopqrstuvwxyz0123456789+/".

Definition digit (n : N) : ascii :=
  match String.get (N.to_nat n) encodeStd with
  | Some c => c
  | None => "="%char
  end.

(** [StdEncoding.EncodeToString]: three bytes give four digits, the last
    group is padded with [=]. *)
Fixpoint EncodeToString (src : string) : string :=
  match src with
  | String a (String b (String c r)) =>
    let v := (byte_of a * 65536 + byte_of b * 256 + byte_of c)%N in
    String (digit (v / 262144))
      (String (digit ((v / 4096) mod 64))
         (String (digit ((v / 64) mod 64))
            (String (digit (v mod 64)) (EncodeToString r))))
  | String a (String b EmptyString) =>
    let v := (byte_of a * 65536 + byte_of b * 256)%N in
    String (digit (v / 262144))
      (String (digit ((v / 4096) mod 64))
         (String (digit ((v / 64) mod 64)) "="))
  | String a EmptyString =>
    let v := (byte_of a * 65536)%N in
    String (digit (v / 262144)) (String (digit ((v / 4096) mod 64)) "==")
  | EmptyString => EmptyString
  end.

End GoBase64.

(** ** Package encoding/json *)

Module GoJSON.

Unset Elimination Schemes.

(** A JSON text as a tree.  Strings are held unquoted; a number keeps its
    literal. *)
Inductive Value :=
| JNull
| JBool (b : bool)
| JNumber (lit : string)
| JString (s : string)
| JArray (elems : list Value)
| JObject (members : list (string * Value)).
Set Elimination Schemes.

Definition backslash : ascii := "092"%char.

(** *** Encoding *)

Definition hex (n : N) : ascii :=
  match String.get (N.to_nat n) "0123456789abcdef" with
  | Some c => c
  | None => "0"%char
  end.

(** [htmlSafeSet]: the ASCII bytes written as they are. *)
Definition htmlSafe (b : ascii) : bool :=
  (32 <=? byte_of b)%N && (byte_of b <? 128)%N
  && negb (Ascii.eqb b dquote) && negb (Ascii.eqb b backslash)
  && negb (Ascii.eqb b "<") && negb (Ascii.eqb b ">")
  && negb (Ascii.eqb b "&").

(** The escape written for an ASCII byte outside [htmlSafeSet]. *)
Definition escapeByte (b : ascii) : string :=
  if Ascii.eqb b backslash || Ascii.eqb b dquote then String backslash (str1 b)
  else if Ascii.eqb b "008" then String backslash "b"
  else if Ascii.eqb b "012" then String backslash "f"
  else if Ascii.eqb b "010" then String backslash "n"
  else if Ascii.eqb b "013" then String backslash "r"
  else if Ascii.eqb b "009" then String backslash "t"
  else String backslash
         (String "u" (String "0" (String "0"
            (String (hex (byte_of b / 16)) (str1 (hex (byte_of b mod 16))))))).

Fixpoint takeBytes (n : nat) (s : string) : string :=
  match n, s with
  | S n', String c r => String c (takeBytes n' r)
  | _, _ => EmptyString
  end.

(** The loop of [appendString] with [escapeHTML] set: ASCII bytes go through
    [htmlSafeSet]; a byte that starts no valid UTF-8 sequence is written as
    the escape of U+FFFD; U+2028 and U+2029 are escaped; every other rune is
    copied. *)
Fixpoint appendStringBody (fuel : nat) (src : string) : string :=
  match fuel with
  | O => EmptyString
  | S fuel' =>
    match src with
    | EmptyString => EmptyString
    | String b r =>
      if (byte_of b <? 128)%N then
        (if htmlSafe b then str1 b else escapeByte b)
          +:+ appendStringBody fuel' r
      else
        let '(c, size) := GoUtf8.DecodeRune src in
        if (c =? GoUtf8.RuneError)%N && (size =? 1)%nat then
          String backslash "ufffd" +:+ appendStringBody fuel' r
        else if (c =? 8232)%N || (c =? 8233)%N then
          String backslash "u202" +:+ str1 (hex (c mod 16))
            +:+ appendStringBody fuel' (GoStrings.dropBytes size src)
        else
          takeBytes size src
            +:+ appendStringBody fuel' (GoStrings.dropBytes size src)
    end
  end.

(** What the literal is read back as: the string coerced to valid UTF-8,
    every byte that starts no valid sequence replaced by U+FFFD. *)
Fixpoint coerceWith (fuel : nat) (s : string) : string :=
  match fuel with
  | O => EmptyString
  | S fuel' =>
    match s with
    | EmptyString => EmptyString
    | _ =>
      let '(r, size) := GoUtf8.DecodeRune s in
      GoUtf8.EncodeRune r +:+ coerceWith fuel' (GoStrings.dropBytes size s)
    end
  end.

Definition coerceUTF8 (s : string) : string := coerceWith (String.length s) s.

(** A Go string as a JSON string literal. *)
Definition appendString (src : string) : string :=
  String dquote (appendStringBody (String.length src) src) +:+ str1 dquote.

(** The items of a list, separated by commas. *)
Definition joinWith {A} (f : A → string) : list A → string :=
  fix items (l : list A) : string :=
    match l with
    | [] => EmptyString
    | [x] => f x
    | x :: l' => f x +:+ "," +:+ items l'
    end.

(** The compact text of a tree, as [json.Marshal] writes it. *)
Fixpoint render (v : Value) : string :=
  match v with
  | JNull => "null"
  | JBool true => "true"
  | JBool false => "false"
  | JNumber lit => lit
  | JString s => appendString s
  | JArray elems => "[" +:+ joinWith render elems +:+ "]"
  | JObject members =>
    "{" +:+ joinWith (λ m, appendString m.1 +:+ ":" +:+ render m.2) members
        +:+ "}"
  end.

(** *** Decoding: the scanner *)

Definition isWS (c : ascii) : bool :=
  match c with
  | " " | "009" | "013" | "010" => true
  | _ => false
  end%char.

Fixpoint skipWS (s : string) : string :=
  match s with
  | String c r => if isWS c then skipWS r else s
  | EmptyString => EmptyString
  end.

Definition isDigit (c : ascii) : bool := GoUtf8.between 48 57 c.

Definition hexVal (c : ascii) : option N :=
  if isDigit c then Some (byte_of c - 48)%N
  else if GoUtf8.between 97 102 c then Some (byte_of c - 87)%N
  else if GoUtf8.between 65 70 c then Some (byte_of c - 55)%N
  else None.

(** Four hexadecimal digits. *)
Definition parseHex4 (s : string) : option (N * string) :=
  match s with
  | String a (String b (String c (String d r))) =>
    match hexVal a, hexVal b, hexVal c, hexVal d with
    | Some x, Some y, Some z, Some w =>
      Some ((((x * 16 + y) * 16 + z) * 16 + w)%N, r)
    | _, _, _, _ => None
    end
  | _ => None
  end.

(** [getu4]: the rune of a [\uXXXX] escape that starts the string. *)
Definition getu4 (s : string) : option (N * string) :=
  match s with
  | String a (String b r) =>
    if Ascii.eqb a backslash && Ascii.eqb b "u" then parseHex4 r else None
  | _ => None
  end.

(** [utf16.IsSurrogate]. *)
Definition isSurrogate (r : N) : bool := ((55296 <=? r) && (r <? 57344))%N.

(** [utf16.DecodeRune] of a surrogate pair, U+FFFD when the pair is not
    valid. *)
Definition decodeSurrogates (r1 r2 : N) : N :=
  if ((55296 <=? r1) && (r1 <? 56320) && (56320 <=? r2) && (r2 <? 57344))%N
  then ((r1 - 55296) * 1024 + (r2 - 56320) + 65536)%N
  else GoUtf8.RuneError.

(** The byte that a one-letter escape stands for. *)
Definition unescape (e : ascii) : option ascii :=
  if Ascii.eqb e dquote || Ascii.eqb e backslash || Ascii.eqb e "/" then Some e
  else if Ascii.eqb e "b" then Some "008"%char
  else if Ascii.eqb e "f" then Some "012"%char
  else if Ascii.eqb e "n" then Some "010"%char
  else if Ascii.eqb e "r" then Some "013"%char
  else if Ascii.eqb e "t" then Some "009"%char
  else None.

Definition consResult (prefix : string) (r : option (string * string))
  : option (string * string) :=
  match r with
  | Some (str, rest) => Some (prefix +:+ str, rest)
  | None => None
  end.

(** A string literal after its opening quote: the unquoted string and the
    text after the closing quote.  Control bytes and unknown escapes are
    syntax errors; the bytes are coerced to valid UTF-8 as [unquote] does. *)
Fixpoint scanString (fuel : nat) (s : string) : option (string * string) :=
  match fuel with
  | O => None
  | S fuel' =>
    match s with
    | EmptyString => None
    | String c r =>
      if Ascii.eqb c dquote then Some (EmptyString, r)
      else if Ascii.eqb c backslash then
        match r with
        | EmptyString => None
        | String e r' =>
          if Ascii.eqb e "u" then
            match parseHex4 r' with
            | None => None
            | Some (rr, r2) =>
              if isSurrogate rr then
                match getu4 r2 with
                | Some (rr1, r3) =>
                  if (decodeSurrogates rr rr1 =? GoUtf8.RuneError)%N
                  then consResult (GoUtf8.EncodeRune GoUtf8.RuneError)
                                  (scanString fuel' r2)
                  else consResult (GoUtf8.EncodeRune (decodeSurrogates rr rr1))
                                  (scanString fuel' r3)
                | None =>
                  consResult (GoUtf8.EncodeRune GoUtf8.RuneError)
                             (scanString fuel' r2)
                end
              else consResult (GoUtf8.EncodeRune rr) (scanString fuel' r2)
            end
          else
            match unescape e with
            | Some b => consResult (str1 b) (scanString fuel' r')
            | None => None
            end
        end
      else if (byte_of c <? 32)%N then None
      else if (byte_of c <? 128)%N then consResult (str1 c) (scanString fuel' r)
      else
        let '(rr, size) := GoUtf8.DecodeRune s in
        consResult (GoUtf8.EncodeRune rr)
                   (scanString fuel' (GoStrings.dropBytes size s))
    end
  end.

Fixpoint spanDigits (s : string) : string * string :=
  match s with
  | String c r =>
    if isDigit c then let '(ds, rest) := spanDigits r in (String c ds, rest)
    else (EmptyString, s)
  | EmptyString => (EmptyString, EmptyString)
  end.

(** A number literal: sign, integer part without leading zero, fraction,
    exponent. *)
Definition scanNumber (s : string) : option (string * string) :=
  let '(sign, s1) :=
    match s with
    | String c r => if Ascii.eqb c "-" then ("-", r) else (EmptyString, s)
    | EmptyString => (EmptyString, s)
    end in
  match s1 with
  | String d r =>
    if isDigit d then
      let '(int, s2) :=
        if Ascii.eqb d "0" then ("0", r)
        else let '(ds, rest) := spanDigits r in (String d ds, rest) in
      let frac :=
        match s2 with
        | String p r2 =>
          if Ascii.eqb p "." then
            let '(ds, rest) := spanDigits r2 in
            if String.eqb ds EmptyString then None
            else Some ("." +:+ ds, rest)
          else Some (EmptyString, s2)
        | EmptyString => Some (EmptyString, s2)
        end in
      match frac with
      | None => None
      | Some (fr, s3) =>
        let exp :=
          match s3 with
          | String e r3 =>
            if Ascii.eqb e "e" || Ascii.eqb e "E" then
              let '(sg, r4) :=
                match r3 with
                | String g r4 =>
                  if Ascii.eqb g "+" || Ascii.eqb g "-"
                  then (str1 g, r4) else (EmptyString, r3)
                | EmptyString => (EmptyString, r3)
                end in
              let '(ds, rest) := spanDigits r4 in
              if String.eqb ds EmptyString then None
              else Some (str1 e +:+ sg +:+ ds, rest)
            else Some (EmptyString, s3)
          | EmptyString => Some (EmptyString, s3)
          end in
        match exp with
        | None => None
        | Some (ex, s4) => Some (sign +:+ int +:+ fr +:+ ex, s4)
        end
      end
    else None
  | EmptyString => None
  end.

(** [maxNestingDepth]. *)
Definition maxNestingDepth : N := 10000.

(** The value that starts the text (after white space) and the text after
    it.  [depth] counts the objects and arrays that are open. *)
Fixpoint parseValue (fuel : nat) (depth : N) (s : string)
  : option (Value * string) :=
  match fuel with
  | O => None
  | S fuel' =>
    match skipWS s with
    | EmptyString => None
    | String c r =>
      if Ascii.eqb c "{" then
        if (maxNestingDepth <=? depth)%N then None
        else
          match skipWS r with
          | String c' r' =>
            if Ascii.eqb c' "}" then Some (JObject [], r')
            else
              match parseMembers fuel' (depth + 1) r with
              | Some (ms, rest) => Some (JObject ms, rest)
              | None => None
              end
          | EmptyString => None
          end
      else if Ascii.eqb c "[" then
        if (maxNestingDepth <=? depth)%N then None
        else
          match skipWS r with
          | String c' r' =>
            if Ascii.eqb c' "]" then Some (JArray [], r')
            else
              match parseElements fuel' (depth + 1) r with
              | Some (vs, rest) => Some (JArray vs, rest)
              | None => None
              end
          | EmptyString => None
          end
      else if Ascii.eqb c dquote then
        match scanString (S (String.length r)) r with
        | Some (str, rest) => Some (JString str, rest)
        | None => None
        end
      else if Ascii.eqb c "t" then
        match GoRegexp.stripPrefix "rue" r with
        | Some rest => Some (JBool true, rest)
        | None => None
        end
      else if Ascii.eqb c "f" then
        match GoRegexp.stripPrefix "alse" r with
        | Some rest => Some (JBool false, rest)
        | None => None
        end
      else if Ascii.eqb c "n" then
        match GoRegexp.stripPrefix "ull" r with
        | Some rest => Some (JNull, rest)
        | None => None
        end
      else
        match scanNumber (String c r) with
        | Some (lit, rest) => Some (JNumber lit, rest)
        | None => None
        end
    end
  end
with parseMembers (fuel : nat) (depth : N) (s : string)
  : option (list (string * Value) * string) :=
  match fuel with
  | O => None
  | S fuel' =>
    match skipWS s with
    | EmptyString => None
    | String c r =>
      if Ascii.eqb c dquote then
        match scanString (S (String.length r)) r with
        | None => None
        | Some (key, r1) =>
          match skipWS r1 with
          | EmptyString => None
          | String c1 r2 =>
            if Ascii.eqb c1 ":" then
              match parseValue fuel' depth r2 with
              | None => None
              | Some (v, r3) =>
                match skipWS r3 with
                | EmptyString => None
                | String c3 r4 =>
                  if Ascii.eqb c3 "," then
                    match parseMembers fuel' depth r4 with
                    | Some (ms, rest) => Some ((key, v) :: ms, rest)
                    | None => None
                    end
                  else if Ascii.eqb c3 "}" then Some ([(key, v)], r4)
                  else None
                end
              end
            else None
          end
        end
      else None
    end
  end
with parseElements (fuel : nat) (depth : N) (s : string)
  : option (list Value * string) :=
  match fuel with
  | O => None
  | S fuel' =>
    match parseValue fuel' depth s with
    | None => None
    | Some (v, r1) =>
      match skipWS r1 with
      | EmptyString => None
      | String c r2 =>
        if Ascii.eqb c "," then
          match parseElements fuel' depth r2 with
          | Some (vs, rest) => Some (v :: vs, rest)
          | None => None
          end
        else if Ascii.eqb c "]" then Some ([v], r2)
        else None
      end
    end
  end.

(** The whole text is one value, with white space around it. *)
Definition parse (s : string) : option Value :=
  match parseValue (2 * String.length s + 2) 0 s with
  | Some (v, rest) =>
    if String.eqb (skipWS rest) EmptyString then Some v else None
  | None => None
  end.

(** *** Decoding: field names *)

(** [foldName], exact on the names that fold to ASCII: ASCII letters go to
    upper case, U+017F (long s) to S and U+212A (Kelvin sign) to K; the other
    bytes are kept, they belong to runes that fold to no ASCII letter. *)
Fixpoint foldName (s : string) : string :=
  match s with
  | String "197" (String "191" r) => String "S" (foldName r)
  | String "226" (String "132" (String "170" r)) => String "K" (foldName r)
  | String c r =>
    String (if GoUtf8.between 97 122 c
            then GoUtf8.byte_to_ascii (byte_of c - 32) else c)
           (foldName r)
  | EmptyString => EmptyString
  end.

(** A key of a JSON object names the field: the same name, or the same name
    under folding. *)
Definition keyIsField (key field : string) : bool :=
  String.eqb key field || String.eqb (foldName key) (foldName field).

End GoJSON.

(** ** The docker-registry codec *)

(** represents authentication for a single registry *)
Record DockerAuth := {
  Username : string;
  Password : string;
  Email : string;
  Auth : string
}.

(** represents the structure of .dockerconfigjson; a nil map and an empty
    map are both the empty map *)
Record DockerConfig := {
  Auths : gmap string DockerAuth
}.

Definition zeroDockerAuth : DockerAuth :=
  {| Username := EmptyString; Password := EmptyString;
     Email := EmptyString; Auth := EmptyString |}.

Inductive DockerError :=
| FieldRequired (field : string)
| UnmarshalFailed
| NoAuths.

Definition DockerError_message (e : DockerError) : string :=
  match e with
  | FieldRequired field => field +:+ " is required for docker-registry secrets"
  | UnmarshalFailed => "failed to unmarshal docker config"
  | NoAuths => "no auths found in docker config"
  end.

(** [json.Marshal] of a [DockerAuth]: the fields in the order of the
    declaration under their tags; [email] has [omitempty]. *)
Definition DockerAuth_toJSON (a : DockerAuth) : GoJSON.Value :=
  GoJSON.JObject
    ([("username", GoJSON.JString (Username a));
      ("password", GoJSON.JString (Password a))]
     ++ (if String.eqb (Email a) EmptyString then []
         else [("email", GoJSON.JString (Email a))])
     ++ [("auth", GoJSON.JString (Auth a))]).

(** [json.Marshal] of a [DockerConfig] with a map that is not nil: the keys
    of the map are written in ascending order. *)
Definition DockerConfig_toJSON (c : DockerConfig) : GoJSON.Value :=
  GoJSON.JObject
    [("auths",
      GoJSON.JObject
        ((λ k, (k, DockerAuth_toJSON (default zeroDockerAuth (Auths c !! k))))
           <$> merge_sort String.le (elements (dom (Auths c)))))].

Definition json_Marshal (c : DockerConfig) : string :=
  GoJSON.render (DockerConfig_toJSON c).

(** [json.Unmarshal] into a string field: a string is stored, [null] leaves
    the field as it is, any other value is a type error. *)
Definition decodeString (v : GoJSON.Value) (old : string) : option string :=
  match v with
  | GoJSON.JString s => Some s
  | GoJSON.JNull => Some old
  | _ => None
  end.

Definition decodeAuthField (a : DockerAuth) (member : string * GoJSON.Value)
  : option DockerAuth :=
  let '(key, v) := member in
  if GoJSON.keyIsField key "username" then
    s ← decodeString v (Username a);
    Some {| Username := s; Password := Password a; Email := Email a; Auth := Auth a |}
  else if GoJSON.keyIsField key "password" then
    s ← decodeString v (Password a);
    Some {| Username := Username a; Password := s; Email := Email a; Auth := Auth a |}
  else if GoJSON.keyIsField key "email" then
    s ← decodeString v (Email a);
    Some {| Username := Username a; Password := Password a; Email := s; Auth := Auth a |}
  else if GoJSON.keyIsField key "auth" then
    s ← decodeString v (Auth a);
    Some {| Username := Username a; Password := Password a; Email := Email a; Auth := s |}
  else Some a.

(** Fold a decoding step over the members of an object; a type error stops
    with an error. *)
Definition decodeMembers {A} (step : A → string * GoJSON.Value → option A)
    (init : A) (members : list (string * GoJSON.Value)) : option A :=
  foldl (λ acc member, a ← acc; step a member) (Some init) members.

(** [json.Unmarshal] into a [DockerAuth] that holds zero values. *)
Definition decodeAuth (v : GoJSON.Value) : option DockerAuth :=
  match v with
  | GoJSON.JObject members => decodeMembers decodeAuthField zeroDockerAuth members
  | GoJSON.JNull => Some zeroDockerAuth
  | _ => None
  end.

(** [json.Unmarshal] into the map: every member is decoded into a fresh
    element and stored under its key, [null] clears the map. *)
Definition decodeAuths (v : GoJSON.Value) (old : gmap string DockerAuth)
  : option (gmap string DockerAuth) :=
  match v with
  | GoJSON.JObject members =>
    decodeMembers (λ m '(key, x), a ← decodeAuth x; Some (<[key := a]> m))
                  old members
  | GoJSON.JNull => Some ∅
  | _ => None
  end.

Definition decodeConfigField (c : DockerConfig) (member : string * GoJSON.Value)
  : option DockerConfig :=
  let '(key, v) := member in
  if GoJSON.keyIsField key "auths" then
    m ← decodeAuths v (Auths c); Some {| Auths := m |}
  else Some c.

Definition decodeConfig (v : GoJSON.Value) : option DockerConfig :=
  match v with
  | GoJSON.JObject members => decodeMembers decodeConfigField {| Auths := ∅ |} members
  | GoJSON.JNull => Some {| Auths := ∅ |}
  | _ => None
  end.

(** [json.Unmarshal] into a zero [DockerConfig]: a syntax error or a type
    error gives an error. *)
Definition json_Unmarshal (data : string) : option DockerConfig :=
  v ← GoJSON.parse data; decodeConfig v.

(** builds a .dockerconfigjson from docker-* keys;
    expects keys: docker-server, docker-username, docker-password,
    docker-email (optional) *)
Definition BuildDockerConfigJSON (values : gmap string string)
  : result DockerError string :=
  let '(server, ok) := mapIndex values "docker-server" in
  if negb ok || String.eqb server EmptyString
  then Err (FieldRequired "docker-server")
  else
    let '(username, ok) := mapIndex values "docker-username" in
    if negb ok || String.eqb username EmptyString
    then Err (FieldRequired "docker-username")
    else
      let '(password, ok) := mapIndex values "docker-password" in
      if negb ok || String.eqb password EmptyString
      then Err (FieldRequired "docker-password")
      else
        let email := (mapIndex values "docker-email").1 in
        let auth := GoBase64.EncodeToString (username +:+ ":" +:+ password) in
        let config :=
          {| Auths := {[ server := {| Username := username; Password := password;
                                      Email := email; Auth := auth |} ]} |} in
        Ok (json_Marshal config).

(** The first pair that a [range] over the map yields.  The order of the
    iteration is not specified and changes from one run to the next: [pick]
    stands for the choice of the runtime. *)
Definition rangeFirst {A} (pick : nat) (m : gmap string A) : option (string * A) :=
  map_to_list m !! (pick mod size m).

(** parses .dockerconfigjson and extracts docker-* keys *)
Definition ParseDockerConfigJSON (pick : nat) (jsonData : string)
  : result DockerError (gmap string string) :=
  match json_Unmarshal jsonData with
  | None => Err UnmarshalFailed
  | Some config =>
    if (size (Auths config) =? 0)%nat then Err NoAuths
    else
      let '(server, auth) :=
        default (EmptyString, zeroDockerAuth) (rangeFirst pick (Auths config)) in
      let result : gmap string string :=
        <["docker-password" := Password auth]>
          (<["docker-username" := Username auth]>
             (<["docker-server" := server]> ∅)) in
      if negb (String.eqb (Email auth) EmptyString)
      then Ok (<["docker-email" := Email auth]> result)
      else Ok result
  end.

(** ** secret.go: the content parser *)

(** represents a Kubernetes secret *)
Record Secret := {
  Namespace : string;
  Name : string;
  Type_ : string;
  Data : gmap string string
}.

Inductive ParseError :=
| InvalidLine (lineNum : nat) (line : string)
| ReadError.

(** The message of the error, as [fmt.Errorf] builds it. *)
Definition ParseError_message (e : ParseError) : string :=
  match e with
  | InvalidLine n line =>
    "invalid line " +:+ pretty n +:+ ": " +:+ line
      +:+ " (expected KEY=VALUE format)"
  | ReadError => "error reading content: bufio.Scanner: token too long"
  end.

(** extracts secret type from shebang-style comment *)
Definition extractTypeFromComment (line : string) : string :=
  match GoRegexp.findTypeDirective line with
  | Some m => GoStrings.TrimSpace m
  | None => EmptyString
  end.

(** maps common type aliases to full Kubernetes type names *)
Definition mapSecretType (secretType : string) : string :=
  if String.eqb secretType "docker-registry" then "kubernetes.io/dockerconfigjson"
  else if String.eqb secretType "tls" then "kubernetes.io/tls"
  else if String.eqb secretType "basic-auth" then "kubernetes.io/basic-auth"
  else if String.eqb secretType "ssh-auth" then "kubernetes.io/ssh-auth"
  else if String.eqb secretType "generic" || String.eqb secretType "opaque"
          || String.eqb secretType EmptyString then "Opaque"
  else secretType.

(** remove quotes if present *)
Definition removeQuotes (value : string) : string :=
  let n := String.length value in
  if (2 <=? n)%nat then
    match String.get 0 value, String.get (n - 1) value with
    | Some a, Some b =>
      if (Ascii.eqb a dquote && Ascii.eqb b dquote)
         || (Ascii.eqb a squote && Ascii.eqb b squote)
      then String.substring 1 (n - 2) value
      else value
    | _, _ => value
    end
  else value.

(** The body of the scanning loop of [parseSecretContent] for one line:
    the map and the type after the line, or the error returned. *)
Definition parseLine (lineNum : nat) (text : string)
    (data : gmap string string) (secretType : string)
  : result ParseError (gmap string string * string) :=
  let line := GoStrings.TrimSpace text in
  let typeMatch := extractTypeFromComment line in
  if (lineNum =? 1)%nat && GoStrings.HasPrefix line "#"
     && negb (String.eqb typeMatch EmptyString)
  then Ok (data, typeMatch)
  else if String.eqb line EmptyString || GoStrings.HasPrefix line "#"
  then Ok (data, secretType)
  else
    match GoStrings.SplitN2 line "=" with
    | [k; v] =>
      let key := GoStrings.TrimSpace k in
      let value := removeQuotes (GoStrings.TrimSpace v) in
      Ok (<[key := value]> data, secretType)
    | _ => Err (InvalidLine lineNum line)
    end.

(** The loop over the scanned lines; [lineNum] is the counter before the
    increment. *)
Fixpoint parseLines (lines : list string) (lineNum : nat)
    (data : gmap string string) (secretType : string)
  : result ParseError (gmap string string * string) :=
  match lines with
  | [] => Ok (data, secretType)
  | text :: rest =>
    match parseLine (S lineNum) text data secretType with
    | Ok (data', secretType') => parseLines rest (S lineNum) data' secretType'
    | Err e => Err e
    end
  end.

(** parseSecretContent parses the file content and extracts type and data *)
Definition parseSecretContent (content : string)
  : result ParseError (gmap string string * string) :=
  let '(lines, scanErr) := GoBufio.Scan content in
  match parseLines lines 0 ∅ "Opaque" with
  | Err e => Err e
  | Ok (data, secretType) =>
    if scanErr then Err ReadError
    else Ok (data, mapSecretType secretType)
  end.

(** converts Secret.Data to Kubernetes format;
    for docker-registry, converts docker-* KVs to .dockerconfigjson.
    The error is the message of the wrapped error. *)
Definition ToKubernetesData (s : Secret) : result string (gmap string string) :=
  if String.eqb (Type_ s) "kubernetes.io/dockerconfigjson" then
    match BuildDockerConfigJSON (Data s) with
    | Err e => Err ("failed to build docker config: " +:+ DockerError_message e)
    | Ok jsonData => Ok {[ ".dockerconfigjson" := jsonData ]}
    end
  else Ok (Data s).

(** converts Kubernetes secret data to Secret.Data format;
    for docker-registry, converts .dockerconfigjson to docker-* KVs.
    [pick] is the choice of the runtime in [ParseDockerConfigJSON]. *)
Definition FromKubernetesData (pick : nat) (secretType : string)
    (k8sData : gmap string string) : result string (gmap string string) :=
  if String.eqb secretType "kubernetes.io/dockerconfigjson" then
    match k8sData !! ".dockerconfigjson" with
    | Some dockerConfigJSON =>
      match ParseDockerConfigJSON pick dockerConfigJSON with
      | Ok data => Ok data
      | Err e => Err (DockerError_message e)
      end
    | None => Err "docker-registry secret missing .dockerconfigjson key"
    end
  else Ok k8sData.

(** ** Standard output *)

(** One call of [fmt.Printf]; [render] gives the text written. *)
Inductive Output :=
| PrintKey (key : string)
| PrintSecretKey (secretName key : string)
| PrintSide (label value : string)
| PrintDifferences (n : nat)
| PrintOnlyIn (name path : string)
| PrintNoSecrets (path : string)
| PrintOnsiteFailed (secretName err : string)
| PrintMissing (secretName : string)
| PrintUploading (secretName : string)
| PrintConversionFailed (secretName err : string)
| PrintUploadFailed (secretName err : string)
| PrintBlank
| PrintSecretsChanged (n : nat)
| PrintKeysChanged (n : nat)
| PrintCompleted (n : nat)
| PrintCreated (secretName namespace : string)
| PrintUpdated (secretName namespace : string)
| PrintStderr (text : string)
| PrintUsage.

Definition render (o : Output) : string :=
  match o with
  | PrintKey key => key +:+ newline
  | PrintSecretKey secretName key => secretName +:+ "/" +:+ key +:+ newline
  | PrintSide label value => "  " +:+ label +:+ ": " +:+ value +:+ newline
  | PrintDifferences n => pretty n +:+ " difference(s)" +:+ newline
  | PrintOnlyIn name path => "secret " +:+ name +:+ ": only in " +:+ path +:+ newline
  | PrintNoSecrets path => "no secrets found in " +:+ path +:+ newline
  | PrintOnsiteFailed secretName err =>
    "warning: failed to read onsite secret " +:+ secretName +:+ ": " +:+ err
      +:+ newline
  | PrintMissing secretName => "secret " +:+ secretName +:+ " is missing" +:+ newline
  | PrintUploading secretName => "uploading secret " +:+ secretName +:+ "..." +:+ newline
  | PrintConversionFailed secretName err =>
    "warning: conversion failed for " +:+ secretName +:+ ": " +:+ err +:+ newline
  | PrintUploadFailed secretName err =>
    "warning: upload failed for " +:+ secretName +:+ ": " +:+ err +:+ newline
  | PrintBlank => newline
  | PrintSecretsChanged n => "secrets changed: " +:+ pretty n +:+ newline
  | PrintKeysChanged n => "keys changed: " +:+ pretty n +:+ newline
  | PrintCompleted n => "completed with " +:+ pretty n +:+ " error(s)" +:+ newline
  | PrintCreated secretName namespace =>
    "Created secret " +:+ secretName +:+ " in namespace " +:+ namespace +:+ newline
  | PrintUpdated secretName namespace =>
    "Updated secret " +:+ secretName +:+ " in namespace " +:+ namespace +:+ newline
  | PrintStderr text => text +:+ newline
  | PrintUsage => "Usage: kubesops [options] <command> [path...]" +:+ newline
  end.

(** ** handle_diff.go *)

(** [sort.Strings]: ascending byte order. *)
Definition sortStrings (keys : list string) : list string :=
  merge_sort String.le keys.

(** The keys of both maps, collected in a set and sorted. *)
Definition allKeys (data1 data2 : gmap string string) : list string :=
  sortStrings (elements (dom data1 ∪ dom data2)).

(** truncateValue truncates a string to maxLen characters and adds ... if
    truncated *)
Definition truncateValue (s : string) (maxLen : nat) : string :=
  if (String.length s <=? maxLen)%nat then s
  else String.substring 0 maxLen s +:+ "...".

(** formatValue formats a value for display, with optional truncation *)
Definition formatValue (val : string) (exists_ verbose : bool) : string :=
  if negb exists_ then "missing"
  else if verbose then "[" +:+ val +:+ "]"
  else "[" +:+ truncateValue val 10 +:+ "]".

(** The body of the loop of [compareSecretsLocal] for one key. *)
Definition compareKeyLocal (ns1 ns2 : string) (data1 data2 : gmap string string)
    (verbose : bool) (st : nat * list Output) (key : string)
  : nat * list Output :=
  let '(differences, out) := st in
  let '(val1, exists_1) := mapIndex data1 key in
  let '(val2, exists_2) := mapIndex data2 key in
  let out := out ++ [PrintKey key] in
  if negb exists_1 || negb exists_2 || negb (String.eqb val1 val2)
  then (S differences,
        out ++ [PrintSide ns1 (formatValue val1 exists_1 verbose);
                PrintSide ns2 (formatValue val2 exists_2 verbose)])
  else (differences, out).

(** compareSecretsLocal compares two local secrets and prints differences;
    returns the number of differences found *)
Definition compareSecretsLocal (ns1 ns2 : string)
    (data1 data2 : gmap string string) (verbose : bool) : nat * list Output :=
  foldl (compareKeyLocal ns1 ns2 data1 data2 verbose) (0, [])
        (allKeys data1 data2).

(** The body of the loop of [compareSecretsRemote] for one key. *)
Definition compareKeyRemote (secretName : string)
    (onsite remote : gmap string string) (verbose : bool)
    (st : nat * list Output) (key : string) : nat * list Output :=
  let '(differences, out) := st in
  let '(onsiteVal, onsiteExists) := mapIndex onsite key in
  let '(remoteVal, remoteExists) := mapIndex remote key in
  let changed :=
    negb onsiteExists || negb remoteExists
    || negb (String.eqb onsiteVal remoteVal) in
  let out :=
    if changed || verbose then out ++ [PrintSecretKey secretName key] else out in
  if changed
  then (S differences,
        out ++ [PrintSide "remote" (formatValue remoteVal remoteExists verbose);
                PrintSide "onsite" (formatValue onsiteVal onsiteExists verbose)])
  else (differences, out).

(** compareSecretsRemote compares local vs remote secrets and prints
    differences; returns the number of differences found *)
Definition compareSecretsRemote (secretName : string)
    (onsite remote : gmap string string) (verbose : bool) : nat * list Output :=
  foldl (compareKeyRemote secretName onsite remote verbose) (0, [])
        (allKeys onsite remote).

(** ** The store client, the upload driver, the diff of two paths and main *)

(** A secret as the cluster holds it. *)
Record K8sSecret := {
  k8sType : string;
  k8sData : gmap string string
}.

(** A request sent to the API server. *)
Inductive ApiCall :=
| CallGet (namespace name : string)
| CallCreate (namespace name secretType : string) (data : gmap string string)
| CallUpdate (namespace name secretType : string) (data : gmap string string).

Definition isWrite (c : ApiCall) : bool :=
  match c with
  | CallGet _ _ => false
  | CallCreate _ _ _ _ | CallUpdate _ _ _ _ => true
  end.

(** The running totals of [upload]. *)
Record Totals := {
  secretsChanged : nat;
  keysChanged : nat;
  errors : list string
}.

Section Driver.

(** The state of the cluster; the client library and the file system are
    outside the repository and are taken as parameters. *)
Context {Cluster : Type}.

(** [getKubeConfig] followed by [kubernetes.NewForConfig]: the message of the
    error, if any. *)
Variable getClient : Cluster → option string.

(** [Secrets(namespace).Get], [.Create] and [.Update] of client-go. *)
Variable apiGet : Cluster → string → string → result string K8sSecret.
Variable apiCreate :
  Cluster → string → string → string → gmap string string → Cluster * option string.
Variable apiUpdate :
  Cluster → string → string → string → gmap string string → Cluster * option string.

(** [LoadSecretsFromPath] of secret.go, which walks the file system and runs
    the decryption tool: the secrets loaded, or the message of the error. *)
Variable LoadSecretsFromPath : string → result string (list Secret).

(** The choice of the runtime in the iteration of a map, for the secret at
    each index of a batch (see [rangeFirst]). *)
Variable rangePick : nat → nat.

(** What the process acts on: the cluster, the requests sent so far, and the
    lines printed so far. *)
Record World := {
  cluster : Cluster;
  calls : list ApiCall;
  stdout : list Output
}.

(** [handleDownload] and [handleManifest], which write files and YAML: the
    error returned and the world after the call. *)
Variable handleDownload : string → World → option string * World.
Variable handleManifest : string → World → option string * World.

Definition print (o : Output) (w : World) : World :=
  {| cluster := cluster w; calls := calls w; stdout := stdout w ++ [o] |}.

Definition printAll (out : list Output) (w : World) : World :=
  {| cluster := cluster w; calls := calls w; stdout := stdout w ++ out |}.

Definition call (c : ApiCall) (w : World) : World :=
  {| cluster := cluster w; calls := calls w ++ [c]; stdout := stdout w |}.

Definition setCluster (c : Cluster) (w : World) : World :=
  {| cluster := c; calls := calls w; stdout := stdout w |}.

(** secretWrite writes a secret to Kubernetes;
    creates the secret if it doesn't exist, updates it if it does *)
Definition secretWrite (namespace secretName secretType : string)
    (values : gmap string string) (w : World) : option string * World :=
  match getClient (cluster w) with
  | Some e => (Some e, w)
  | None =>
    let w1 := call (CallGet namespace secretName) w in
    match apiGet (cluster w1) namespace secretName with
    | Err _ =>
      let '(c, err) := apiCreate (cluster w1) namespace secretName secretType values in
      let w2 := setCluster c (call (CallCreate namespace secretName secretType values) w1) in
      match err with
      | Some e => (Some ("error creating secret: " +:+ e), w2)
      | None => (None, print (PrintCreated secretName namespace) w2)
      end
    | Ok _ =>
      let '(c, err) := apiUpdate (cluster w1) namespace secretName secretType values in
      let w2 := setCluster c (call (CallUpdate namespace secretName secretType values) w1) in
      match err with
      | Some e => (Some ("error updating secret: " +:+ e), w2)
      | None => (None, print (PrintUpdated secretName namespace) w2)
      end
    end
  end.

(** secretRead reads a secret from Kubernetes *)
Definition secretRead (namespace secretName : string) (w : World)
  : result string (gmap string string) * World :=
  match getClient (cluster w) with
  | Some e => (Err e, w)
  | None =>
    let w1 := call (CallGet namespace secretName) w in
    match apiGet (cluster w1) namespace secretName with
    | Err e => (Err ("error reading secret: " +:+ e), w1)
    | Ok secret => (Ok (k8sData secret), w1)
    end
  end.

Definition FromOnsiteSecret (secret : Secret) : result string (gmap string string) :=
  Ok (Data secret).

Definition FromRemoteSecret (pick : nat) (namespace name secretType : string)
    (w : World) : result string (gmap string string) * World :=
  match secretRead namespace name w with
  | (Err e, w1) => (Err e, w1)
  | (Ok k8sData, w1) =>
    match FromKubernetesData pick secretType k8sData with
    | Err e => (Err ("conversion failed: " +:+ e), w1)
    | Ok remoteData => (Ok remoteData, w1)
    end
  end.

(** [secret.Namespace + "/" + secret.Name] *)
Definition secretNameOf (secret : Secret) : string :=
  Namespace secret +:+ "/" +:+ Name secret.

(** The comparison of one secret with the remote, in the loop of [upload]:
    the number of differences and the world after it. *)
Definition diffOne (verbose : bool) (pick : nat) (secret : Secret)
    (onsiteMap : gmap string string) (w : World) : nat * World :=
  let secretName := secretNameOf secret in
  match FromRemoteSecret pick (Namespace secret) (Name secret) (Type_ secret) w with
  | (Err _, w1) => (1, print (PrintMissing secretName) w1)
  | (Ok remoteMap, w1) =>
    let '(differences, out) :=
      compareSecretsRemote secretName onsiteMap remoteMap verbose in
    (differences, printAll out w1)
  end.

Definition addError (e : string) (t : Totals) : Totals :=
  {| secretsChanged := secretsChanged t; keysChanged := keysChanged t;
     errors := errors t ++ [e] |}.

(** The totals after the comparison of one secret. *)
Definition addDifferences (differences : nat) (t : Totals) : Totals :=
  if (0 <? differences)%nat
  then {| secretsChanged := S (secretsChanged t);
          keysChanged := keysChanged t + differences;
          errors := errors t |}
  else t.

(** The body of the loop of [upload] for one secret. *)
Definition uploadOne (force doit verbose : bool) (pick : nat)
    (st : Totals * World) (secret : Secret) : Totals * World :=
  let '(t, w) := st in
  let secretName := secretNameOf secret in
  match FromOnsiteSecret secret with
  | Err e =>
    (addError (secretName +:+ ": " +:+ e) t,
     print (PrintOnsiteFailed secretName e) w)
  | Ok onsiteMap =>
    let '(differences, w1) := diffOne verbose pick secret onsiteMap w in
    let t1 := addDifferences differences t in
    if force || ((0 <? differences)%nat && doit) then
      if doit then
        let w2 := print (PrintUploading secretName) w1 in
        match ToKubernetesData secret with
        | Err e =>
          (addError (secretName +:+ ": " +:+ e) t1,
           print (PrintConversionFailed secretName e) w2)
        | Ok k8sData =>
          match secretWrite (Namespace secret) (Name secret) (Type_ secret)
                            k8sData w2 with
          | (Some e, w3) =>
            (addError (secretName +:+ ": " +:+ e) t1,
             print (PrintUploadFailed secretName e) w3)
          | (None, w3) => (t1, w3)
          end
        end
      else (t1, w1)
    else (t1, w1)
  end.

(** The loop of [upload]; [i] is the index of the first secret of the list
    in the batch. *)
Fixpoint uploadLoop (force doit verbose : bool) (i : nat)
    (st : Totals * World) (secrets : list Secret) : Totals * World :=
  match secrets with
  | [] => st
  | secret :: rest =>
    uploadLoop force doit verbose (S i)
      (uploadOne force doit verbose (rangePick i) st secret) rest
  end.

(** upload is the unified function that handles both diff and upload
    operations;
    force: if true, upload even if no changes detected;
    doit: if true, actually perform the upload; if false, just show what
    would be done (dry-run);
    verbose: if true, show full values in diff output *)
Definition upload (path : string) (force doit verbose : bool) (w : World)
  : option string * World :=
  match LoadSecretsFromPath path with
  | Err e => (Some ("failed to load secrets: " +:+ e), w)
  | Ok secrets =>
    if (length secrets =? 0)%nat then (None, print (PrintNoSecrets path) w)
    else
      let '(t, w1) :=
        uploadLoop force doit verbose 0
          ({| secretsChanged := 0; keysChanged := 0; errors := [] |}, w) secrets in
      let w2 :=
        printAll [PrintBlank; PrintSecretsChanged (secretsChanged t);
                  PrintKeysChanged (keysChanged t)] w1 in
      let w3 :=
        if (0 <? length (errors t))%nat
        then print (PrintCompleted (length (errors t))) w2 else w2 in
      (None, w3)
  end.

Definition handleUpload (path : string) (force doit verbose : bool) (w : World)
  : option string * World :=
  upload path force doit verbose w.

(** The body of the loop of [diffLocalVsLocal] over the names. *)
Definition diffName (path1 path2 : string) (map1 map2 : gmap string Secret)
    (verbose : bool) (st : nat * list Output) (key : string) : nat * list Output :=
  let '(totalDifferences, out) := st in
  match map1 !! key, map2 !! key with
  | None, _ => (S totalDifferences, out ++ [PrintOnlyIn key path2])
  | Some _, None => (S totalDifferences, out ++ [PrintOnlyIn key path1])
  | Some s1, Some s2 =>
    let '(differences, lines) :=
      compareSecretsLocal (Namespace s1) (Namespace s2) (Data s1) (Data s2) verbose in
    (totalDifferences + differences, out ++ lines)
  end.

(** diffLocalVsLocal compares two local secrets *)
Definition diffLocalVsLocal (path1 path2 : string) (verbose : bool) (w : World)
  : option string * World :=
  match LoadSecretsFromPath path1 with
  | Err e => (Some ("failed to load secrets from " +:+ path1 +:+ ": " +:+ e), w)
  | Ok secrets1 =>
    match LoadSecretsFromPath path2 with
    | Err e => (Some ("failed to load secrets from " +:+ path2 +:+ ": " +:+ e), w)
    | Ok secrets2 =>
      match secrets1, secrets2 with
      | [s1], [s2] =>
        let '(differences, out) :=
          compareSecretsLocal (Namespace s1) (Namespace s2) (Data s1) (Data s2) verbose in
        (None, print (PrintDifferences differences) (printAll out w))
      | _, _ =>
        let map1 : gmap string Secret := foldl (λ m s, <[Name s := s]> m) ∅ secrets1 in
        let map2 : gmap string Secret := foldl (λ m s, <[Name s := s]> m) ∅ secrets2 in
        let keys := sortStrings (elements (dom map1 ∪ dom map2)) in
        let '(totalDifferences, out) :=
          foldl (diffName path1 path2 map1 map2 verbose) (0, []) keys in
        (None, print (PrintDifferences totalDifferences) (printAll out w))
      end
    end
  end.

(** handleDiff compares secrets;
    if path2 is empty: compare local (path1) vs remote;
    if path2 is provided: compare local (path1) vs local (path2) *)
Definition handleDiff (path1 path2 : string) (verbose : bool) (w : World)
  : option string * World :=
  if String.eqb path2 EmptyString then upload path1 false false verbose w
  else diffLocalVsLocal path1 path2 verbose w.

(** The error of a handler on standard error and the exit code. *)
Definition exitWith (label : string) (r : option string * World) : nat * World :=
  match r with
  | (Some e, w) => (1, print (PrintStderr (label +:+ " failed: " +:+ e)) w)
  | (None, w) => (0, w)
  end.

(** [main] after [flag.Parse]: [args] are the arguments that are not flags.
    The result is the exit code of the process. *)
Definition main (args : list string) (verbose force doit : bool) (w : World)
  : nat * World :=
  match args with
  | [] => (1, print PrintUsage (print (PrintStderr "Error: missing command") w))
  | command :: paths =>
    if negb (String.eqb command "upload") && negb (String.eqb command "download")
       && negb (String.eqb command "diff") && negb (String.eqb command "manifest")
    then (1, print PrintUsage
               (print (PrintStderr ("Error: invalid command '" +:+ command +:+ "'")) w))
    else
      let path1 := default "secrets" (paths !! 0) in
      let path2 := default EmptyString (paths !! 1) in
      if String.eqb command "upload"
      then exitWith "Upload" (handleUpload path1 force doit verbose w)
      else if String.eqb command "download"
      then exitWith "Download" (handleDownload path1 w)
      else if String.eqb command "diff"
      then exitWith "Diff" (handleDiff path1 path2 verbose w)
      else exitWith "Manifest" (handleManifest path1 w)
  end.

End Driver.

(** ** A store in memory, for the examples *)

(** Modelled from the spec: the store client of section 6, secrets got,
    created and updated by namespace and name; a secret that is not there
    makes Get and Update fail, one that is there makes Create fail. *)
Definition MemCluster := gmap (string * string) K8sSecret.

Definition memGet (c : MemCluster) (namespace name : string)
  : result string K8sSecret :=
  match c !! (namespace, name) with
  | Some s => Ok s
  | None => Err "secrets not found"
  end.

Definition memCreate (c : MemCluster) (namespace name secretType : string)
    (data : gmap string string) : MemCluster * option string :=
  match c !! (namespace, name) with
  | Some _ => (c, Some "secrets already exists")
  | None => (<[(namespace, name) := {| k8sType := secretType; k8sData := data |}]> c, None)
  end.

Definition memUpdate (c : MemCluster) (namespace name secretType : string)
    (data : gmap string string) : MemCluster * option string :=
  match c !! (namespace, name) with
  | Some _ => (<[(namespace, name) := {| k8sType := secretType; k8sData := data |}]> c, None)
  | None => (c, Some "secrets not found")
  end.

(** A world with an empty cluster, nothing sent and nothing printed. *)
Definition emptyWorld : @World MemCluster :=
  {| cluster := ∅; calls := []; stdout := [] |}.

(** [main] on the store in memory, with [secrets] as the secrets that every
    path loads, a client that is always obtained, and handlers for download
    and manifest that do nothing. *)
Definition memMain (secrets : list Secret) (args : list string)
    (verbose force doit : bool) (w : @World MemCluster) : nat * @World MemCluster :=
  main (λ _, None) memGet memCreate memUpdate (λ _, Ok secrets) (λ _, 0)
       (λ _ w, (None, w)) (λ _ w, (None, w)) args verbose force doit w.

(** A secret with one key, one with two keys, and a docker-registry secret
    that lacks its required fields. *)
Definition oneKeySecret : Secret :=
  {| Namespace := "test"; Name := "dotenv"; Type_ := "Opaque";
     Data := {[ "K" := "1" ]} |}.

Definition twoKeySecret : Secret :=
  {| Namespace := "test"; Name := "dotenv"; Type_ := "Opaque";
     Data := <["A" := "1"]> {[ "B" := "2" ]} |}.

Definition brokenDockerSecret : Secret :=
  {| Namespace := "test"; Name := "registry";
     Type_ := "kubernetes.io/dockerconfigjson";
     Data := {[ "docker-server" := "https://ghcr.io" ]} |}.

(** ** Vocabulary for the properties of the driver *)

(** The requests sent between two states of the world. *)
Definition newCalls {Cluster} (before after : @World Cluster) : list ApiCall :=
  drop (length (calls before)) (calls after).

(** The lines printed between two states of the world. *)
Definition newOutput {Cluster} (before after : @World Cluster) : list Output :=
  drop (length (stdout before)) (stdout after).

(** ** Vocabulary for the properties of the JSON codec *)

(** What [appendString] writes for one ASCII byte. *)
Definition asciiPiece (b : ascii) : string :=
  if GoJSON.htmlSafe b then str1 b else GoJSON.escapeByte b.

(** [reads depth v v']: the text of [v], whatever follows it, is read back
    as [v'] by a parser that has [depth] containers open. *)
Definition reads (depth : N) (v v' : GoJSON.Value) : Prop :=
  ∀ fuel rest,
    String.length (GoJSON.render v +:+ rest) < fuel →
    GoJSON.parseValue fuel depth (GoJSON.render v +:+ rest) = Some (v', rest).

(** The text of one member of an object. *)
Definition memberText (m : string * GoJSON.Value) : string :=
  GoJSON.appendString m.1 +:+ ":" +:+ GoJSON.render m.2.

(** ** Vocabulary for the properties of the docker-registry codec *)

(** The tree that the text written for a [DockerAuth] is read back as. *)
Definition authTree (a : DockerAuth) : GoJSON.Value :=
  GoJSON.JObject
    ([("username", GoJSON.JString (GoJSON.coerceUTF8 (Username a)));
      ("password", GoJSON.JString (GoJSON.coerceUTF8 (Password a)))]
     ++ (if String.eqb (Email a) EmptyString then []
         else [("email", GoJSON.JString (GoJSON.coerceUTF8 (Email a)))])
     ++ [("auth", GoJSON.JString (GoJSON.coerceUTF8 (Auth a)))]).

(** A [DockerAuth] after the trip through JSON. *)
Definition coerceAuth (a : DockerAuth) : DockerAuth :=
  {| Username := GoJSON.coerceUTF8 (Username a);
     Password := GoJSON.coerceUTF8 (Password a);
     Email := GoJSON.coerceUTF8 (Email a);
     Auth := GoJSON.coerceUTF8 (Auth a) |}.

(** The entries that [ParseDockerConfigJSON] builds from the registry it
    selects. *)
Definition dockerEntries (server : string) (auth : DockerAuth)
  : gmap string string :=
  let result : gmap string string :=
    <["docker-password" := Password auth]>
      (<["docker-username" := Username auth]>
         (<["docker-server" := server]> ∅)) in
  if negb (String.eqb (Email auth) EmptyString)
  then <["docker-email" := Email auth]> result
  else result.

(** The three fields that [BuildDockerConfigJSON] requires. *)
Definition requiredFields : list string :=
  ["docker-server"; "docker-username"; "docker-password"].

(** The field is missing or empty. *)
Definition fieldMissing (values : gmap string string) (field : string) : Prop :=
  values !! field = None ∨ values !! field = Some EmptyString.

(** The field is present and not empty. *)
Definition fieldPresent (values : gmap string string) (field : string) : Prop :=
  ∃ v, values !! field = Some v ∧ v ≠ EmptyString.

(** The keys of a docker-registry secret in canonical form. *)
Definition dockerKeys : gset string :=
  {[ "docker-server"; "docker-username"; "docker-password"; "docker-email" ]}.

(** A valid docker-registry entry map: the three required fields present and
    not empty, an optional docker-email, and no other key. *)
Definition validDockerEntries (X : gmap string string) : Prop :=
  dom X ⊆ dockerKeys ∧ Forall (fieldPresent X) requiredFields.

(** An empty docker-email counts as absent. *)
Definition normalizeEmail (X : gmap string string) : gmap string string :=
  match X !! "docker-email" with
  | Some e => if String.eqb e EmptyString then delete "docker-email" X else X
  | None => X
  end.

(** The config that [BuildDockerConfigJSON] marshals. *)
Definition builtConfig (values : gmap string string) : DockerConfig :=
  let server := (mapIndex values "docker-server").1 in
  let username := (mapIndex values "docker-username").1 in
  let password := (mapIndex values "docker-password").1 in
  {| Auths :=
       {[ server :=
            {| Username := username; Password := password;
               Email := (mapIndex values "docker-email").1;
               Auth := GoBase64.EncodeToString (username +:+ ":" +:+ password) |} ]} |}.

(** A server name that is one byte, 0xFF, which is no valid UTF-8. *)
Definition invalidServerEntries : gmap string string :=
  <["docker-server" := String "255" EmptyString]>
    (<["docker-username" := "u"]> (<["docker-password" := "p"]> ∅)).

(** The server name read back from the result of a transform. *)
Definition serverOf {E} (r : result E (gmap string string)) : option string :=
  match r with
  | Ok m => m !! "docker-server"
  | Err _ => None
  end.

(** JSON text written with single quotes in place of double quotes. *)
Fixpoint jsonText (s : string) : string :=
  match s with
  | String c r => String (if Ascii.eqb c squote then dquote else c) (jsonText r)
  | EmptyString => EmptyString
  end.

(** A .dockerconfigjson value with two registries under auths. *)
Definition twoRegistries : string :=
  jsonText "{'auths':{'a.example':{'username':'ua','password':'pa','auth':'dWE6cGE='},'b.example':{'username':'ub','password':'pb','auth':'dWI6cGI='}}}".

(** A .dockerconfigjson value with one registry, and what it decodes to. *)
Definition oneRegistry : string :=
  jsonText "{'auths':{'a.example':{'username':'ua','password':'pa','auth':'dWE6cGE='}}}".

Definition oneRegistryConfig : DockerConfig :=
  {| Auths := {[ "a.example" := {| Username := "ua"; Password := "pa";
                                   Email := ""; Auth := "dWE6cGE=" |} ]} |}.

(** ** Vocabulary for the properties of the comparison *)

(** A key is classified as different when it is absent from either map, or
    present in both with unequal values. *)
Definition keyDiffers (a b : gmap string string) (key : string) : bool :=
  match a !! key, b !! key with
  | Some x, Some y => negb (String.eqb x y)
  | _, _ => true
  end.

(** The keys that the output reports. *)
Definition reportedKeys (out : list Output) : list string :=
  omap (λ o, match o with
             | PrintKey k => Some k
             | PrintSecretKey _ k => Some k
             | _ => None
             end) out.

(** The lines that the local comparison prints for one key. *)
Definition localBlock (ns1 ns2 : string) (data1 data2 : gmap string string)
    (verbose : bool) (key : string) : list Output :=
  PrintKey key ::
  (if keyDiffers data1 data2 key
   then [PrintSide ns1 (formatValue (mapIndex data1 key).1 (mapIndex data1 key).2 verbose);
         PrintSide ns2 (formatValue (mapIndex data2 key).1 (mapIndex data2 key).2 verbose)]
   else []).

(** The lines that the comparison with the remote prints for one key. *)
Definition remoteBlock (secretName : string) (onsite remote : gmap string string)
    (verbose : bool) (key : string) : list Output :=
  (if keyDiffers onsite remote key || verbose
   then [PrintSecretKey secretName key] else [])
  ++
  (if keyDiffers onsite remote key
   then [PrintSide "remote" (formatValue (mapIndex remote key).1 (mapIndex remote key).2 verbose);
         PrintSide "onsite" (formatValue (mapIndex onsite key).1 (mapIndex onsite key).2 verbose)]
   else []).

(** ** Vocabulary for the properties of the Content Parser *)

(** A trimmed line that the loop skips: empty, or a comment. *)
Definition skippedLine (line : string) : bool :=
  String.eqb line EmptyString || GoStrings.HasPrefix line "#".

(** A scanned line that is neither empty nor a comment and holds no [=]. *)
Definition malformedLine (text : string) : bool :=
  let line := GoStrings.TrimSpace text in
  negb (skippedLine line) && negb (GoStrings.ContainsByte line "=").

(** The first line of the input is a type directive with capture [m]. *)
Definition typeDirective (text m : string) : Prop :=
  GoStrings.HasPrefix (GoStrings.TrimSpace text) "#" = true ∧
  GoRegexp.findTypeDirective (GoStrings.TrimSpace text) = Some m.

(** The end of [parseSecretContent], after the loop. *)
Definition finishParse (scanErr : bool)
    (r : result ParseError (gmap string string * string))
  : result ParseError (gmap string string * string) :=
  match r with
  | Err e => Err e
  | Ok (data, secretType) =>
    if scanErr then Err ReadError else Ok (data, mapSecretType secretType)
  end.


(** The entry that a scanned line contributes to the map, if any. *)
Definition lineEntry (text : string) : option (string * string) :=
  let line := GoStrings.TrimSpace text in
  if skippedLine line then None
  else
    match GoStrings.SplitN2 line "=" with
    | [k; v] => Some (GoStrings.TrimSpace k, removeQuotes (GoStrings.TrimSpace v))
    | _ => None
    end.

(** The map after a line that is not malformed. *)
Definition applyEntry (data : gmap string string) (text : string)
  : gmap string string :=
  match lineEntry text with
  | Some (k, v) => <[k := v]> data
  | None => data
  end.

(** * The rest of the code: loading, writing, printing and downloading *)

(** ** More of package strings *)

Module GoStringsMore.

(** [strings.Contains]. *)
Fixpoint Contains (s substr : string) : bool :=
  String.prefix substr s
  || match s with
     | String _ r => Contains r substr
     | EmptyString => false
     end.

(** [strings.ContainsAny] for a set of ASCII characters. *)
Fixpoint ContainsAny (s chars : string) : bool :=
  match s with
  | String c r => GoStrings.ContainsByte chars c || ContainsAny r chars
  | EmptyString => false
  end.

(** [strings.HasSuffix]. *)
Definition HasSuffix (s suffix : string) : bool :=
  String.prefix (String.rev suffix) (String.rev s).

(** [strings.TrimSuffix]. *)
Definition TrimSuffix (s suffix : string) : string :=
  if HasSuffix s suffix
  then String.substring 0 (String.length s - String.length suffix) s
  else s.

(** [strings.Split] for a separator of one byte: the pieces between the
    separators, one more than there are separators. *)
Fixpoint Split (s : string) (sep : ascii) : list string :=
  match s with
  | EmptyString => [EmptyString]
  | String c r =>
    if Ascii.eqb c sep then EmptyString :: Split r sep
    else
      match Split r sep with
      | piece :: pieces => String c piece :: pieces
      | [] => [str1 c]
      end
  end.

End GoStringsMore.

(** ** Package os: the expansion of variables *)

Module GoOs.

(** [isShellSpecialVar]: the one-character names of the shell. *)
Definition isShellSpecialVar (c : ascii) : bool :=
  match c with
  | "*" | "#" | "$" | "@" | "!" | "?" | "-"
  | "0" | "1" | "2" | "3" | "4" | "5" | "6" | "7" | "8" | "9" => true
  | _ => false
  end%char.

(** [isAlphaNum]: an underscore, a digit or an ASCII letter. *)
Definition isAlphaNum (c : ascii) : bool :=
  Ascii.eqb c "_" || GoUtf8.between 48 57 c || GoUtf8.between 97 122 c
  || GoUtf8.between 65 90 c.

(** The index of the first closing brace. *)
Fixpoint indexBrace (s : string) : option nat :=
  match s with
  | EmptyString => None
  | String c r => if Ascii.eqb c "}" then Some 0 else S <$> indexBrace r
  end.

(** The longest prefix of alphanumerics. *)
Fixpoint spanAlphaNum (s : string) : string :=
  match s with
  | String c r => if isAlphaNum c then String c (spanAlphaNum r) else EmptyString
  | EmptyString => EmptyString
  end.

(** [getShellName]: the name that begins the string, which follows a [$],
    and the number of bytes consumed to extract it.  [Expand] calls the
    function on a string that is not empty. *)
Definition getShellName (s : string) : string * nat :=
  match s with
  | EmptyString => (EmptyString, 0)
  | String c r =>
    if Ascii.eqb c "{" then
      if match r with
         | String c1 (String c2 _) => isShellSpecialVar c1 && Ascii.eqb c2 "}"
         | _ => false
         end
      then (String.substring 0 1 r, 3)
      else
        match indexBrace r with
        | Some 0 => (EmptyString, 2)
        | Some i => (String.substring 0 i r, i + 2)
        | None => (EmptyString, 1)
        end
    else if isShellSpecialVar c then (str1 c, 1)
    else let name := spanAlphaNum s in (name, String.length name)
  end.

(** The loop of [Expand] from a position on: [s] is the text that is left,
    the result is what the buffer receives for it.  A [$] that is not the
    last byte is followed by a name: bad syntax is eaten, an empty name
    leaves the [$] in place, any other name is replaced by its mapping.
    [fuel] bounds the number of turns, the length of the text is enough. *)
Fixpoint expandWith (mapping : string → string) (fuel : nat) (s : string)
  : string :=
  match fuel with
  | O => s
  | S fuel' =>
    match s with
    | EmptyString => EmptyString
    | String c r =>
      if Ascii.eqb c "$" && negb (String.eqb r EmptyString) then
        let '(name, w) := getShellName r in
        let piece :=
          if String.eqb name EmptyString then
            if (0 <? w)%nat then EmptyString else str1 c
          else mapping name in
        piece +:+ expandWith mapping fuel' (GoStrings.dropBytes w r)
      else String c (expandWith mapping fuel' r)
    end
  end.

(** [os.Expand]. *)
Definition Expand (s : string) (mapping : string → string) : string :=
  expandWith mapping (String.length s) s.

(** [os.Getenv] in an environment: the empty string for a variable that is
    not set. *)
Definition Getenv (env : gmap string string) (key : string) : string :=
  default EmptyString (env !! key).

End GoOs.

(** ** Package strconv: quoting *)

Module GoStrconv.

Section Quote.

(** [IsPrint] for the runes above U+00FF is a search in the tables of the
    package, which are not reproduced here. *)
Variable isPrintWide : N → bool.

(** [strconv.IsPrint]. *)
Definition IsPrint (r : N) : bool :=
  if (r <=? 255)%N then
    if (32 <=? r)%N && (r <=? 126)%N then true
    else if (161 <=? r)%N && (r <=? 255)%N then negb (r =? 173)%N
    else false
  else isPrintWide r.

(** [lowerhex[n & 0xF]]. *)
Definition lowerhex (n : N) : ascii :=
  match String.get (N.to_nat (n mod 16)) "0123456789abcdef" with
  | Some c => c
  | None => "0"%char
  end.

(** The digits [lowerhex[r>>s & 0xF]] for [s] from [4 * (n - 1)] down to 0. *)
Fixpoint hexDigits (n : nat) (r : N) : string :=
  match n with
  | O => EmptyString
  | S n' => String (lowerhex (r / 16 ^ N.of_nat n')) (hexDigits n' r)
  end.

(** [utf8.ValidRune]. *)
Definition ValidRune (r : N) : bool :=
  (r <? 55296)%N || ((57343 <? r)%N && (r <=? 1114111)%N).

(** [appendEscapedRune] with the double quote as the quote, neither ASCII
    only nor graphic only. *)
Definition appendEscapedRune (r : N) : string :=
  if (r =? 34)%N || (r =? 92)%N
  then String GoJSON.backslash (str1 (GoUtf8.byte_to_ascii r))
  else if IsPrint r then GoUtf8.EncodeRune r
  else if (r =? 7)%N then String GoJSON.backslash "a"
  else if (r =? 8)%N then String GoJSON.backslash "b"
  else if (r =? 12)%N then String GoJSON.backslash "f"
  else if (r =? 10)%N then String GoJSON.backslash "n"
  else if (r =? 13)%N then String GoJSON.backslash "r"
  else if (r =? 9)%N then String GoJSON.backslash "t"
  else if (r =? 11)%N then String GoJSON.backslash "v"
  else if (r <? 32)%N || (r =? 127)%N
  then String GoJSON.backslash (String "x" (hexDigits 2 r))
  else if negb (ValidRune r)
  then String GoJSON.backslash (String "u" (hexDigits 4 GoUtf8.RuneError))
  else if (r <? 65536)%N
  then String GoJSON.backslash (String "u" (hexDigits 4 r))
  else String GoJSON.backslash (String "U" (hexDigits 8 r)).

(** The loop of [appendQuotedWith]: a byte that is no valid UTF-8 is written
    as [\x] and two digits, every rune as [appendEscapedRune] writes it. *)
Fixpoint quoteWith (fuel : nat) (s : string) : string :=
  match fuel with
  | O => EmptyString
  | S fuel' =>
    match s with
    | EmptyString => EmptyString
    | String c _ =>
      let '(r, width) :=
        if (byte_of c <? 128)%N then (byte_of c, 1) else GoUtf8.DecodeRune s in
      if (width =? 1)%nat && (r =? GoUtf8.RuneError)%N
      then String GoJSON.backslash (String "x" (hexDigits 2 (byte_of c)))
             +:+ quoteWith fuel' (GoStrings.dropBytes 1 s)
      else appendEscapedRune r +:+ quoteWith fuel' (GoStrings.dropBytes width s)
    end
  end.

(** [strconv.Quote], which is what the verb [%q] of package fmt writes for
    a string. *)
Definition Quote (s : string) : string :=
  String dquote (quoteWith (String.length s) s +:+ str1 dquote).

End Quote.

End GoStrconv.

(** ** Package path/filepath, with [/] as the separator *)

Module GoPath.

Definition isSep (c : ascii) : bool := Ascii.eqb c "/".

(** The element that starts the string, up to the next separator, and the
    text from that separator on. *)
Fixpoint spanElement (s : string) : string * string :=
  match s with
  | String c r =>
    if isSep c then (EmptyString, s)
    else let '(e, rest) := spanElement r in (String c e, rest)
  | EmptyString => (EmptyString, EmptyString)
  end.

(** Backtracking over the last element of the buffer, for a [..] element:
    the write index steps down once, then further down while it is above
    [dotdot] and the byte under it is no separator; the buffer ends before
    that byte.  The buffer is read from its end, [n] is the distance of the
    write index to [dotdot]. *)
Fixpoint backtrackRev (n : nat) (rev_out : string) : string :=
  match rev_out with
  | String c r =>
    match n with
    | S n' => if isSep c then r else backtrackRev n' r
    | O => r
    end
  | EmptyString => EmptyString
  end.

Definition backtrack (out : string) (dotdot : nat) : string :=
  String.rev (backtrackRev (String.length out - 1 - dotdot) (String.rev out)).

(** The loop of [Clean]: [rest] is the path from the read index on, [out]
    the buffer up to the write index, [dotdot] the index in the buffer where
    [..] must stop.  [fuel] bounds the number of turns; every turn consumes
    at least one byte of the path. *)
Fixpoint cleanLoop (fuel : nat) (rooted : bool) (rest out : string)
    (dotdot : nat) : string :=
  match fuel with
  | O => out
  | S fuel' =>
    match rest with
    | EmptyString => out
    | String c r1 =>
      if isSep c then
        (* empty path element *)
        cleanLoop fuel' rooted r1 out dotdot
      else if Ascii.eqb c "."
              && match r1 with
                 | EmptyString => true
                 | String d _ => isSep d
                 end then
        (* . element *)
        cleanLoop fuel' rooted r1 out dotdot
      else if Ascii.eqb c "."
              && match r1 with
                 | String "." EmptyString => true
                 | String "." (String d _) => isSep d
                 | _ => false
                 end then
        (* .. element: remove to last separator *)
        let r2 := GoStrings.dropBytes 1 r1 in
        if (dotdot <? String.length out)%nat then
          (* can backtrack *)
          cleanLoop fuel' rooted r2 (backtrack out dotdot) dotdot
        else if negb rooted then
          (* cannot backtrack, but not rooted, so append .. element *)
          let out1 := if (0 <? String.length out)%nat then out +:+ "/" else out in
          let out2 := out1 +:+ ".." in
          cleanLoop fuel' rooted r2 out2 (String.length out2)
        else cleanLoop fuel' rooted r2 out dotdot
      else
        (* real path element: add slash if needed, copy element *)
        let out1 :=
          if (rooted && negb (String.length out =? 1)%nat)
             || (negb rooted && negb (String.length out =? 0)%nat)
          then out +:+ "/" else out in
        let '(e, rest') := spanElement rest in
        cleanLoop fuel' rooted rest' (out1 +:+ e) dotdot
    end
  end.

(** [filepath.Clean]. *)
Definition Clean (path : string) : string :=
  match path with
  | EmptyString => "."
  | String c r =>
    let out :=
      if isSep c then cleanLoop (String.length path) true r "/" 1
      else cleanLoop (String.length path) false path EmptyString 0 in
    if (String.length out =? 0)%nat then "." else out
  end.

(** The text from the last dot of the last element on, for [Ext]; the
    string is read from its end. *)
Fixpoint extRev (rev_path : string) : option string :=
  match rev_path with
  | EmptyString => None
  | String c r =>
    if isSep c then None
    else if Ascii.eqb c "." then Some (str1 c)
    else (λ e, e +:+ str1 c) <$> extRev r
  end.

(** [filepath.Ext]: the suffix beginning at the final dot in the final
    element of the path; it is empty if there is no dot. *)
Definition Ext (path : string) : string :=
  default EmptyString (extRev (String.rev path)).

(** The path up to its last separator, the separator included. *)
Fixpoint dirPrefixRev (rev_path : string) : string :=
  match rev_path with
  | EmptyString => EmptyString
  | String c r => if isSep c then rev_path else dirPrefixRev r
  end.

(** [filepath.Dir]. *)
Definition Dir (path : string) : string :=
  Clean (String.rev (dirPrefixRev (String.rev path))).

(** [strings.Join] with the separator of paths. *)
Fixpoint joinElems (elems : list string) : string :=
  match elems with
  | [] => EmptyString
  | [e] => e
  | e :: es => e +:+ "/" +:+ joinElems es
  end.

(** [filepath.Join]: from the first element that is not empty on, the
    elements joined with the separator and cleaned; the empty string when
    every element is empty. *)
Fixpoint Join (elem : list string) : string :=
  match elem with
  | [] => EmptyString
  | e :: es =>
    if String.eqb e EmptyString then Join es else Clean (joinElems elem)
  end.

(** [strings.Split(filepath.Clean(path), string(filepath.Separator))]. *)
Definition pathParts (path : string) : list string :=
  GoStringsMore.Split (Clean path) "/".

End GoPath.

(** ** secret.go: detection of encrypted files, substitution, the writer *)

(** isSOPSEncrypted checks if content is SOPS-encrypted *)
Definition isSOPSEncrypted (content : string) : bool :=
  GoStringsMore.Contains content "sops_"
  || GoStringsMore.Contains content "sops:"
  || GoStringsMore.Contains content "ENC[AES256_GCM,".

(** substituteEnvVars performs environment variable substitution on values;
    supports ${VAR} and $VAR syntax.  [env] is the environment of the
    process. *)
Definition substituteEnvVars (env : gmap string string)
    (data : gmap string string) : gmap string string :=
  (λ value, GoOs.Expand value (GoOs.Getenv env)) <$> data.

(** The alias written for a type, in [WriteSecretFile]. *)
Definition typeAlias (secretType : string) : string :=
  if String.eqb secretType "kubernetes.io/dockerconfigjson" then "docker-registry"
  else if String.eqb secretType "kubernetes.io/tls" then "tls"
  else if String.eqb secretType "kubernetes.io/basic-auth" then "basic-auth"
  else if String.eqb secretType "kubernetes.io/ssh-auth" then "ssh-auth"
  else secretType.

(** The inner loop of the sort of [WriteSecretFile], for [j] from its
    start value up to the length: [keys[i]] and [keys[j]] are exchanged when
    [keys[i] > keys[j]].  [n] is the number of turns left. *)
Fixpoint sortInner (n i j : nat) (keys : list string) : list string :=
  match n with
  | O => keys
  | S n' =>
    let keys' :=
      match keys !! i, keys !! j with
      | Some a, Some b =>
        if String.ltb b a then <[i := b]> (<[j := a]> keys) else keys
      | _, _ => keys
      end in
    sortInner n' i (S j) keys'
  end.

(** The outer loop, for [i] from its start value up to the length. *)
Fixpoint sortOuter (n i : nat) (keys : list string) : list string :=
  match n with
  | O => keys
  | S n' =>
    sortOuter n' (S i) (sortInner (length keys - S i) i (S i) keys)
  end.

(** The keys after the two loops. *)
Definition sortKeys (keys : list string) : list string :=
  sortOuter (length keys) 0 keys.

(** One line of the file: the value is quoted when it contains a space, a
    tab, a newline, a carriage return, a quote or a dollar. *)
Definition secretLine (isPrintWide : N → bool) (key value : string) : string :=
  let value :=
    if GoStringsMore.ContainsAny value
         (String " " (String "009" (String "010" (String "013"
            (String dquote (String squote "$"))))))
    then GoStrconv.Quote isPrintWide value
    else value in
  key +:+ "=" +:+ value +:+ newline.

(** The type comment, if not generic/opaque. *)
Definition typeComment (secretType : string) : list string :=
  if negb (String.eqb secretType "Opaque") && negb (String.eqb secretType "generic")
  then ["# type=" +:+ typeAlias secretType +:+ newline]
  else [].

(** What [WriteSecretFile] hands to its writer, one element for each call
    of [Fprintf]: the type comment, then one line for every key in the order
    of the sort.  The keys leave the map in no specified order; the outcome
    of the sort does not depend on it. *)
Definition secretFileLines (isPrintWide : N → bool) (secretType : string)
    (data : gmap string string) : list string :=
  typeComment secretType
  ++ ((λ key, secretLine isPrintWide key (mapIndex data key).1)
        <$> sortKeys (elements (dom data))).

(** The text of the file. *)
Definition secretFileText (isPrintWide : N → bool) (secretType : string)
    (data : gmap string string) : string :=
  foldr String.append EmptyString (secretFileLines isPrintWide secretType data).

(** ** handle_manifest.go *)

(** The manifest of one secret, one element for each call of [Printf]. *)
Definition manifestLines (isPrintWide : N → bool) (secret : Secret)
    (k8sData : gmap string string) : list string :=
  ["apiVersion: v1" +:+ newline;
   "kind: Secret" +:+ newline;
   "metadata:" +:+ newline;
   "  name: " +:+ Name secret +:+ newline;
   "  namespace: " +:+ Namespace secret +:+ newline;
   "type: " +:+ Type_ secret +:+ newline;
   "stringData:" +:+ newline]
  ++ ((λ key, "  " +:+ key +:+ ": "
                +:+ GoStrconv.Quote isPrintWide (mapIndex k8sData key).1 +:+ newline)
        <$> sortStrings (elements (dom k8sData))).

(** The loop of [handleManifest] from the secret with index [i] on: the
    error returned, if any, and the text printed. *)
Fixpoint manifestLoop (isPrintWide : N → bool) (i : nat) (secrets : list Secret)
    (out : list string) : option string * list string :=
  match secrets with
  | [] => (None, out)
  | secret :: rest =>
    let out := if (0 <? i)%nat then out ++ ["---" +:+ newline] else out in
    match ToKubernetesData secret with
    | Err e =>
      (Some ("failed to convert " +:+ Namespace secret +:+ "/" +:+ Name secret
             +:+ ": " +:+ e), out)
    | Ok k8sData =>
      manifestLoop isPrintWide (S i) rest
                   (out ++ manifestLines isPrintWide secret k8sData)
    end
  end.

(** The text of a list of lines. *)
Definition concatLines (lines : list string) : string :=
  foldr String.append EmptyString lines.

(** ** Files: loading from disk and writing to disk *)

(** Why [os.Stat] failed: whether [os.IsNotExist] holds of the error, and
    its message. *)
Record StatError := {
  isNotExist : bool;
  statMessage : string
}.

(** One call of the function that [filepath.Walk] is given: the path, and
    either the error passed or the name of the entry and whether it is a
    directory. *)
Definition WalkVisit : Type := string * result string (string * bool).

(** A file operation that changes the disk. *)
Inductive FileOp :=
| OpMkdirAll (dir : string)
| OpOpenFile (path : string)
| OpWrite (path bytes : string).

Section Files.

(** The file system and the decryption tool are outside the repository and
    are taken as parameters. *)
Context {Disk : Type}.

(** [os.Stat]: whether the path is a directory. *)
Variable osStat : Disk → string → result StatError bool.

(** [os.ReadFile]. *)
Variable osReadFile : Disk → string → result string string.

(** [exec.Command("sops", "--decrypt", filePath)] run with the environment
    of the process: the combined output, or the message of the error with
    the combined output. *)
Variable sopsDecrypt : Disk → string → result (string * string) string.

(** The calls that [filepath.Walk] makes of its function for a root, as long
    as the function returns no error. *)
Variable walkVisits : Disk → string → list WalkVisit.

(** The environment of the process, for [os.Getenv]. *)
Variable environ : gmap string string.

(** [os.MkdirAll], [os.OpenFile] with [O_WRONLY|O_CREATE|O_TRUNC], and a
    [Write] on the file opened at the path. *)
Variable osMkdirAll : Disk → string → Disk * option string.
Variable osOpenFile : Disk → string → Disk * option string.
Variable fileWrite : Disk → string → string → Disk * option string.

(** readFileWithSOPS reads a file and decrypts it with SOPS if needed *)
Definition readFileWithSOPS (d : Disk) (filePath : string) : result string string :=
  match osReadFile d filePath with
  | Err e => Err e
  | Ok rawContent =>
    if isSOPSEncrypted rawContent then
      match sopsDecrypt d filePath with
      | Err (e, output) =>
        Err ("SOPS decryption failed: " +:+ e +:+ newline +:+ "Output: " +:+ output)
      | Ok output => Ok output
      end
    else Ok rawContent
  end.

(** The namespace and the name of the secret that a path stands for: the
    last two of at least three parts; the name loses its extension.  Both
    [LoadSecretFile] and [downloadFile] compute them so. *)
Definition secretOfPath (filePath : string) : option (string * string) :=
  let parts := GoPath.pathParts filePath in
  if (length parts <? 3)%nat then None
  else
    let namespace := default EmptyString (parts !! (length parts - 2)) in
    let secretNameWithExt := default EmptyString (parts !! (length parts - 1)) in
    Some (namespace,
          GoStringsMore.TrimSuffix secretNameWithExt (GoPath.Ext secretNameWithExt)).

(** loads a secret from a file;
    handles SOPS decryption, type detection, and env var substitution *)
Definition LoadSecretFile (d : Disk) (filePath : string) : result string Secret :=
  match secretOfPath filePath with
  | None =>
    Err ("invalid secret file path: expected secrets/<namespace>/<secretname>, got "
         +:+ filePath)
  | Some (namespace, secretName) =>
    match readFileWithSOPS d filePath with
    | Err e => Err ("failed to read file " +:+ filePath +:+ ": " +:+ e)
    | Ok content =>
      match parseSecretContent content with
      | Err e =>
        Err ("failed to parse file " +:+ filePath +:+ ": " +:+ ParseError_message e)
      | Ok (data, secretType) =>
        Ok {| Namespace := namespace; Name := secretName; Type_ := secretType;
              Data := substituteEnvVars environ data |}
      end
    end
  end.

(** The function given to [filepath.Walk], folded over the calls: the files
    whose name ends in [.env], or the first error passed. *)
Fixpoint walkFiles (visits : list WalkVisit) (files : list string)
  : result string (list string) :=
  match visits with
  | [] => Ok files
  | (filePath, Err e) :: _ => Err e
  | (filePath, Ok (name, isDir)) :: rest =>
    if negb isDir && GoStringsMore.HasSuffix name ".env"
    then walkFiles rest (files ++ [filePath])
    else walkFiles rest files
  end.

(** The loop that loads the files. *)
Fixpoint loadFiles (d : Disk) (files : list string) (secrets : list Secret)
  : result string (list Secret) :=
  match files with
  | [] => Ok secrets
  | file :: rest =>
    match LoadSecretFile d file with
    | Err e => Err ("failed to load " +:+ file +:+ ": " +:+ e)
    | Ok secret => loadFiles d rest (secrets ++ [secret])
    end
  end.

(** loads all secrets from a path (file or directory) *)
Definition LoadSecretsFromPath (d : Disk) (path : string)
  : result string (list Secret) :=
  let path := if String.eqb path EmptyString then "secrets" else path in
  match osStat d path with
  | Err e => Err ("path " +:+ path +:+ " does not exist: " +:+ statMessage e)
  | Ok isDir =>
    match
      (if isDir then
         match walkFiles (walkVisits d path) [] with
         | Err e => Err ("failed to walk directory " +:+ path +:+ ": " +:+ e)
         | Ok files => Ok files
         end
       else Ok [path])
    with
    | Err e => Err e
    | Ok files => loadFiles d files []
    end
  end.

(** prints Kubernetes secret manifests for specified path: the error
    returned and the text printed *)
Definition handleManifest (isPrintWide : N → bool) (d : Disk) (path : string)
  : option string * list string :=
  match LoadSecretsFromPath d path with
  | Err e => (Some ("failed to load secrets: " +:+ e), [])
  | Ok secrets =>
    if (length secrets =? 0)%nat
    then (None, ["No secrets found in " +:+ path +:+ newline])
    else manifestLoop isPrintWide 0 secrets []
  end.

(** *** The buffered writer of package bufio *)

(** The default size of the buffer. *)
Definition defaultBufSize : nat := 4096.

(** A [bufio.Writer] on the file opened at a path: the bytes buffered, the
    disk, the operations on it so far, and the error that the writer has
    met. *)
Record Writer := {
  buffered : string;
  wdisk : Disk;
  wops : list FileOp;
  werr : option string
}.

(** A [Write] on the file. *)
Definition writeThrough (path bytes : string) (w : Writer) : Writer :=
  let '(d, e) := fileWrite (wdisk w) path bytes in
  {| buffered := if e is Some _ then buffered w else EmptyString;
     wdisk := d; wops := wops w ++ [OpWrite path bytes]; werr := e |}.

(** [Flush]: nothing after an error or with an empty buffer. *)
Definition Flush (path : string) (w : Writer) : Writer :=
  match werr w with
  | Some _ => w
  | None =>
    if String.eqb (buffered w) EmptyString then w
    else writeThrough path (buffered w) w
  end.

(** [Write]: while the bytes do not fit the room left, a large write on an
    empty buffer goes to the file directly, otherwise the buffer is filled
    and flushed; the rest is buffered.  After an error nothing is written.
    [fuel] bounds the number of turns. *)
Fixpoint bufWrite (fuel : nat) (path p : string) (w : Writer) : Writer :=
  match fuel with
  | O => w
  | S fuel' =>
    let available := defaultBufSize - String.length (buffered w) in
    if (available <? String.length p)%nat && negb (bool_decide (is_Some (werr w))) then
      if String.eqb (buffered w) EmptyString then
        bufWrite fuel' path
          EmptyString
          (writeThrough path p w)
      else
        bufWrite fuel' path (GoStrings.dropBytes available p)
          (Flush path
             {| buffered := buffered w +:+ GoJSON.takeBytes available p;
                wdisk := wdisk w; wops := wops w; werr := werr w |})
    else
      match werr w with
      | Some _ => w
      | None =>
        {| buffered := buffered w +:+ p; wdisk := wdisk w; wops := wops w;
           werr := None |}
      end
  end.

(** [fmt.Fprintf] to the writer: one [Write] of the formatted text. *)
Definition Fprintf (path text : string) (w : Writer) : Writer :=
  bufWrite (String.length text + 2) path text w.

(** The loop of [WriteSecretFile] over the lines: it stops at the first
    error of the writer. *)
Fixpoint writeLines (path : string) (lines : list string) (w : Writer) : Writer :=
  match lines with
  | [] => w
  | line :: rest =>
    let w1 := Fprintf path line w in
    if werr w1 is Some _ then w1 else writeLines path rest w1
  end.

(** writes a secret to a file: the disk after the call, the operations on
    it, and the error returned.  The deferred [Flush] and [Close] run on
    every return after the file is open; their errors are dropped. *)
Definition WriteSecretFile (isPrintWide : N → bool) (d : Disk)
    (filePath secretType : string) (data : gmap string string)
  : Disk * list FileOp * option string :=
  let dir := GoPath.Dir filePath in
  match osMkdirAll d dir with
  | (d1, Some e) =>
    (d1, [OpMkdirAll dir],
     Some ("failed to create directory " +:+ dir +:+ ": " +:+ e))
  | (d1, None) =>
    match osOpenFile d1 filePath with
    | (d2, Some e) =>
      (d2, [OpMkdirAll dir; OpOpenFile filePath],
       Some ("failed to create file: " +:+ e))
    | (d2, None) =>
      let w0 := {| buffered := EmptyString; wdisk := d2;
                   wops := [OpMkdirAll dir; OpOpenFile filePath]; werr := None |} in
      let w1 := writeLines filePath (typeComment secretType) w0 in
      match werr w1 with
      | Some e =>
        (wdisk w1, wops w1, Some ("failed to write type comment: " +:+ e))
      | None =>
        let w2 :=
          writeLines filePath
            ((λ key, secretLine isPrintWide key (mapIndex data key).1)
               <$> sortKeys (elements (dom data))) w1 in
        match werr w2 with
        | Some e =>
          (wdisk w2, wops w2, Some ("failed to write key-value pair: " +:+ e))
        | None =>
          let w3 := Flush filePath w2 in (wdisk w3, wops w3, None)
        end
      end
    end
  end.

(** The operations that a writer adds are writes to its file, whatever they
    return. *)
Definition writesOnly (path : string) (w w' : Writer) : Prop :=
  ∃ ops, wops w' = wops w ++ ops ∧
         Forall (λ op, ∃ bytes, op = OpWrite path bytes) ops.

(** The state of a writer that has sent the chunks to the file, each write
    having succeeded: no error, a buffer within its size, the writes and the
    disk after them, and [acc], the text written so far, as the chunks
    followed by the buffer. *)
Definition writerHolds (path : string) (d0 : Disk) (ops0 : list FileOp)
    (chunks : list string) (acc : string) (w : Writer) : Prop :=
  werr w = None ∧
  String.length (buffered w) ≤ defaultBufSize ∧
  wops w = ops0 ++ (OpWrite path <$> chunks) ∧
  wdisk w = foldl (λ d c, (fileWrite d path c).1) d0 chunks ∧
  concatLines chunks +:+ buffered w = acc.

End Files.

(** ** The download handler *)

(** The path that a file operation acts on is one of the given paths, or,
    for the creation of a directory, the directory of one of them. *)
Definition opWithin (paths : list string) (op : FileOp) : Prop :=
  match op with
  | OpMkdirAll dir => ∃ p, p ∈ paths ∧ dir = GoPath.Dir p
  | OpOpenFile p => p ∈ paths
  | OpWrite p _ => p ∈ paths
  end.

(** The file that [downloadDirectory] writes for a secret. *)
Definition downloadTarget (namespace secretName : string) : string :=
  GoPath.Join ["secrets"; namespace; secretName +:+ ".env"].


Section Download.

Context {Disk Cluster : Type}.

Variable osStat : Disk → string → result StatError bool.
Variable osReadFile : Disk → string → result string string.
Variable sopsDecrypt : Disk → string → result (string * string) string.
Variable walkVisits : Disk → string → list WalkVisit.
Variable environ : gmap string string.
Variable osMkdirAll : Disk → string → Disk * option string.
Variable osOpenFile : Disk → string → Disk * option string.
Variable fileWrite : Disk → string → string → Disk * option string.

Variable getClient : Cluster → option string.
Variable apiGet : Cluster → string → string → result string K8sSecret.

(** [Secrets(namespace).List] of client-go: the names of the secrets of the
    namespace with the secrets. *)
Variable apiList : Cluster → string → result string (list (string * K8sSecret)).

(** The tables of package strconv, and the choice of the runtime in the
    iteration of a map for the secret at each index (see [rangeFirst]). *)
Variable isPrintWide : N → bool.
Variable rangePick : nat → nat.

(** What a download acts on: the cluster with the requests sent, the disk
    with the operations on it, the namespaces listed and the text printed
    with [Printf]. *)
Record Host := {
  world : @World Cluster;
  disk : Disk;
  fileOps : list FileOp;
  listed : list string;
  printed : list string
}.

Definition say (text : string) (h : Host) : Host :=
  {| world := world h; disk := disk h; fileOps := fileOps h; listed := listed h;
     printed := printed h ++ [text] |}.

Definition setWorld (w : @World Cluster) (h : Host) : Host :=
  {| world := w; disk := disk h; fileOps := fileOps h; listed := listed h;
     printed := printed h |}.

(** [secretRead] on the cluster of the host. *)
Definition readSecret (namespace secretName : string) (h : Host)
  : result string (gmap string string) * Host :=
  let '(r, w) := secretRead getClient apiGet namespace secretName (world h) in
  (r, setWorld w h).

(** retrieves secret metadata from Kubernetes (just type info) *)
Definition getSecretMetadata (namespace secretName : string) (h : Host)
  : result string K8sSecret * Host :=
  let w := world h in
  match getClient (cluster w) with
  | Some e => (Err e, h)
  | None =>
    let w1 := call (CallGet namespace secretName) w in
    match apiGet (cluster w1) namespace secretName with
    | Err e => (Err ("error reading secret: " +:+ e), setWorld w1 h)
    | Ok secret => (Ok secret, setWorld w1 h)
    end
  end.

(** lists all secrets in a Kubernetes namespace *)
Definition listSecretsInNamespace (namespace : string) (h : Host)
  : result string (list (string * K8sSecret)) * Host :=
  match getClient (cluster (world h)) with
  | Some e => (Err e, h)
  | None =>
    let h1 := {| world := world h; disk := disk h; fileOps := fileOps h;
                 listed := listed h ++ [namespace]; printed := printed h |} in
    match apiList (cluster (world h)) namespace with
    | Err e => (Err ("error listing secrets: " +:+ e), h1)
    | Ok items => (Ok items, h1)
    end
  end.

(** [WriteSecretFile] on the disk of the host. *)
Definition writeSecret (filePath secretType : string) (data : gmap string string)
    (h : Host) : option string * Host :=
  let '(d, ops, err) :=
    WriteSecretFile osMkdirAll osOpenFile fileWrite isPrintWide (disk h)
                    filePath secretType data in
  (err, {| world := world h; disk := d; fileOps := fileOps h ++ ops;
           listed := listed h; printed := printed h |}).

(** downloadFile downloads a single secret based on file path *)
Definition downloadFile (filePath : string) (h : Host) : option string * Host :=
  match secretOfPath filePath with
  | None =>
    (Some ("invalid secret file path: expected secrets/<namespace>/<secretname>.env, got "
           +:+ filePath), h)
  | Some (namespace, secretName) =>
    let label := namespace +:+ "/" +:+ secretName in
    let h1 := say ("Downloading secret " +:+ label +:+ "..." +:+ newline) h in
    match readSecret namespace secretName h1 with
    | (Err e, h2) => (Some ("failed to read secret " +:+ label +:+ ": " +:+ e), h2)
    | (Ok k8sData, h2) =>
      match getSecretMetadata namespace secretName h2 with
      | (Err e, h3) =>
        (Some ("failed to get secret metadata " +:+ label +:+ ": " +:+ e), h3)
      | (Ok secret, h3) =>
        match FromKubernetesData (rangePick 0) (k8sType secret) k8sData with
        | Err e => (Some ("failed to convert secret " +:+ label +:+ ": " +:+ e), h3)
        | Ok fileData =>
          match writeSecret filePath (k8sType secret) fileData h3 with
          | (Some e, h4) =>
            (Some ("failed to write file " +:+ filePath +:+ ": " +:+ e), h4)
          | (None, h4) =>
            (None, say ("Successfully downloaded " +:+ label +:+ " to " +:+ filePath
                        +:+ newline) h4)
          end
        end
      end
    end
  end.

(** The body of either loop of [downloadDirectory] for one secret: the
    number of errors, increased by one when a step fails, and the host. *)
Definition downloadOne (pick : nat) (namespace secretName secretType : string)
    (st : nat * Host) : nat * Host :=
  let '(errors, h) := st in
  let label := namespace +:+ "/" +:+ secretName in
  let h1 := say ("Downloading secret " +:+ label +:+ "..." +:+ newline) h in
  match readSecret namespace secretName h1 with
  | (Err e, h2) =>
    (S errors,
     say ("Warning: download failed for " +:+ label +:+ ": " +:+ e +:+ newline) h2)
  | (Ok k8sData, h2) =>
    match FromKubernetesData pick secretType k8sData with
    | Err e =>
      (S errors,
       say ("Warning: conversion failed for " +:+ label +:+ ": " +:+ e +:+ newline) h2)
    | Ok fileData =>
      let filePath := GoPath.Join ["secrets"; namespace; secretName +:+ ".env"] in
      match writeSecret filePath secretType fileData h2 with
      | (Some e, h3) =>
        (S errors,
         say ("Warning: write failed for " +:+ label +:+ ": " +:+ e +:+ newline) h3)
      | (None, h3) =>
        (errors,
         say ("Successfully downloaded " +:+ label +:+ " to " +:+ filePath +:+ newline)
             h3)
      end
    end
  end.

(** The loops of [downloadDirectory]; [i] is the index of the first item. *)
Fixpoint downloadLoop (i : nat) (items : list (string * string * string))
    (st : nat * Host) : nat * Host :=
  match items with
  | [] => st
  | (namespace, secretName, secretType) :: rest =>
    downloadLoop (S i) rest
      (downloadOne (rangePick i) namespace secretName secretType st)
  end.

(** The line that ends either loop. *)
Definition downloadSummary (errors total : nat) (h : Host) : Host :=
  if (0 <? errors)%nat
  then say (newline +:+ "Completed with " +:+ pretty errors +:+ " error(s)" +:+ newline) h
  else say (newline +:+ "Successfully downloaded " +:+ pretty total +:+ " secret(s)"
            +:+ newline) h.

(** downloads all secrets from a directory/namespace *)
Definition downloadDirectory (dirPath : string) (h : Host) : option string * Host :=
  let loaded :=
    LoadSecretsFromPath osStat osReadFile sopsDecrypt walkVisits environ
                        (disk h) dirPath in
  match loaded with
  | Ok (secret :: secrets) =>
    (* download based on existing local files *)
    let items :=
      (λ s, (Namespace s, Name s, Type_ s)) <$> (secret :: secrets) in
    let '(errors, h1) := downloadLoop 0 items (0, h) in
    (None, downloadSummary errors (length items) h1)
  | _ =>
    (* if no local secrets exist, try to list from Kubernetes *)
    let parts := GoPath.pathParts dirPath in
    if (length parts <? 2)%nat then
      (Some ("invalid path: expected secrets/<namespace>, got " +:+ dirPath), h)
    else
      let namespace := default EmptyString (parts !! (length parts - 1)) in
      let h1 := say ("Listing secrets in namespace " +:+ namespace +:+ "..." +:+ newline) h in
      match listSecretsInNamespace namespace h1 with
      | (Err e, h2) =>
        (Some ("failed to list secrets in namespace " +:+ namespace +:+ ": " +:+ e), h2)
      | (Ok k8sSecrets, h2) =>
        if (length k8sSecrets =? 0)%nat then
          (None, say ("No secrets found in namespace " +:+ namespace +:+ newline) h2)
        else
          let h3 :=
            say ("Found " +:+ pretty (length k8sSecrets) +:+ " secret(s) in namespace "
                 +:+ namespace +:+ newline) h2 in
          let items :=
            (λ '(secretName, secret), (namespace, secretName, k8sType secret))
              <$> k8sSecrets in
          let '(errors, h4) := downloadLoop 0 items (0, h3) in
          (None, downloadSummary errors (length k8sSecrets) h4)
      end
  end.

(** handleDownload downloads secrets from Kubernetes and writes them to
    local files *)
Definition handleDownload (path : string) (h : Host) : option string * Host :=
  match osStat (disk h) path with
  | Ok true => downloadDirectory path h
  | Ok false => downloadFile path h
  | Err e =>
    if isNotExist e then
      if GoStringsMore.HasSuffix path ".env" then downloadFile path h
      else downloadDirectory path h
    else (Some ("failed to access path " +:+ path +:+ ": " +:+ statMessage e), h)
  end.

(** From one host to a later one: the cluster is the same, the requests
    sent in between are no writes, and the file operations in between act
    within the paths. *)
Definition follows (paths : list string) (h h' : Host) : Prop :=
  cluster (world h') = cluster (world h) ∧
  (∃ l, calls (world h') = calls (world h) ++ l ∧
        filter (λ c, isWrite c = true) l = []) ∧
  (∃ ops, fileOps h' = fileOps h ++ ops ∧ Forall (opWithin paths) ops).

(** The files that [downloadDirectory] may write: one for each secret
    loaded from the directory or, when there is none, for each secret that
    the cluster lists in the namespace, the last element of the path. *)
Definition directoryTargets (dirPath : string) (h : Host) : list string :=
  match LoadSecretsFromPath osStat osReadFile sopsDecrypt walkVisits environ
          (disk h) dirPath with
  | Ok (secret :: secrets) =>
    (λ s, downloadTarget (Namespace s) (Name s)) <$> (secret :: secrets)
  | _ =>
    let parts := GoPath.pathParts dirPath in
    let namespace := default EmptyString (parts !! (length parts - 1)) in
    match apiList (cluster (world h)) namespace with
    | Ok items => (λ item, downloadTarget namespace item.1) <$> items
    | Err _ => []
    end
  end.

End Download.

(** ** Vocabulary of the properties *)


(** The counters of [upload] before its loop. *)
Definition zeroTotals : Totals :=
  {| secretsChanged := 0; keysChanged := 0; errors := [] |}.

(** The line names a key of the comparison of two local secrets. *)
Definition isKeyLine (o : Output) : bool :=
  match o with PrintKey _ => true | _ => false end.

(** The entries that [ParseDockerConfigJSON] reads from the wire form of
    docker-registry values: every field coerced to valid UTF-8 as the JSON
    encoder does. *)
Definition readBack (values : gmap string string) : gmap string string :=
  let username := (mapIndex values "docker-username").1 in
  let password := (mapIndex values "docker-password").1 in
  dockerEntries
    (GoJSON.coerceUTF8 (mapIndex values "docker-server").1)
    (coerceAuth
       {| Username := username; Password := password;
          Email := (mapIndex values "docker-email").1;
          Auth := GoBase64.EncodeToString (username +:+ ":" +:+ password) |}).

(** The substitution of [substituteEnvVars] on one value. *)
Definition expandValue (env : gmap string string) (value : string) : string :=
  GoOs.Expand value (GoOs.Getenv env).

(** A byte that can begin the name of a variable after [$]. *)
Definition nameStart (c : ascii) : bool :=
  Ascii.eqb c "{" || GoOs.isShellSpecialVar c || GoOs.isAlphaNum c.

(** Every byte is a letter, a digit or an underscore. *)
Fixpoint allAlphaNum (s : string) : bool :=
  match s with
  | String c r => GoOs.isAlphaNum c && allAlphaNum r
  | EmptyString => true
  end.

(** The first byte of the string satisfies the test. *)
Definition startsWith (p : ascii → bool) (s : string) : bool :=
  match s with String c _ => p c | EmptyString => false end.

(** One pass of the inner loop over the keys that follow position [i]:
    the key left at position [i] and the keys after it. *)
Fixpoint sortPass (x : string) (rest : list string) : string * list string :=
  match rest with
  | [] => (x, [])
  | y :: ys =>
    if String.ltb y x
    then let '(m, r) := sortPass y ys in (m, x :: r)
    else let '(m, r) := sortPass x ys in (m, y :: r)
  end.

(** Every byte of the string satisfies the test. *)
Fixpoint allBytes (p : ascii → bool) (s : string) : bool :=
  match s with
  | String c r => p c && allBytes p r
  | EmptyString => true
  end.

(** No control character: a byte from the space on. *)
Definition visibleByte (c : ascii) : bool := (32 <=? byte_of c)%N.

(** A printable ASCII byte other than the double quote and the backslash. *)
Definition plainByte (c : ascii) : bool :=
  (32 <=? byte_of c)%N && (byte_of c <=? 126)%N
  && negb (Ascii.eqb c dquote) && negb (Ascii.eqb c GoJSON.backslash).

(** A printable ASCII byte other than the space. *)
Definition solidByte (c : ascii) : bool :=
  (33 <=? byte_of c)%N && (byte_of c <=? 126)%N.

(** The last byte of a string. *)
Fixpoint lastByte (s : string) : option ascii :=
  match s with
  | EmptyString => None
  | String c EmptyString => Some c
  | String _ r => lastByte r
  end.

(** The text of lines that each end with a newline. *)
Definition joinLines (bodies : list string) : string :=
  foldr String.append EmptyString ((λ b, b +:+ newline) <$> bodies).

(** A key of printable ASCII with no space and no [=], which does not begin
    with [#]. *)
Definition plainKey (key : string) : bool :=
  allBytes (λ c, solidByte c && negb (Ascii.eqb c "=")) key
  && negb (GoStrings.HasPrefix key "#").

(** A value of printable ASCII with no double quote and no backslash. *)
Definition plainValue (value : string) : bool := allBytes plainByte value.

(** The characters that make [WriteSecretFile] quote a value. *)
Definition quoteTriggers : string :=
  String " " (String "009" (String "010" (String "013"
    (String dquote (String squote "$"))))).

(** The value as [WriteSecretFile] writes it. *)
Definition writtenValue (isPrintWide : N → bool) (value : string) : string :=
  if GoStringsMore.ContainsAny value quoteTriggers
  then GoStrconv.Quote isPrintWide value
  else value.

(** The lines of the file that [WriteSecretFile] writes, without their
    newlines. *)
Definition fileBodies (isPrintWide : N → bool) (secretType : string)
    (data : gmap string string) : list string :=
  (if negb (String.eqb secretType "Opaque") && negb (String.eqb secretType "generic")
   then ["# type=" +:+ typeAlias secretType] else [])
  ++ ((λ key, key +:+ "=" +:+ writtenValue isPrintWide (mapIndex data key).1)
        <$> sortKeys (elements (dom data))).

(** A type that the file format can carry: printable ASCII with no space,
    and a name that the table of aliases leaves as it is. *)
Definition plainType (secretType : string) : bool :=
  allBytes solidByte secretType
  && String.eqb (mapSecretType secretType) secretType.

(** The markers that [isSOPSEncrypted] looks for. *)
Definition sopsMarkers : list string := ["sops_"; "sops:"; "ENC[AES256_GCM,"].

(** The string holds no newline. *)
Definition oneLine (s : string) : bool := negb (GoStrings.ContainsByte s "010").

(** The lines that [handleManifest] prints for a secret, without their
    newlines. *)
Definition manifestBodies (isPrintWide : N → bool) (secret : Secret)
    (k8sData : gmap string string) : list string :=
  ["apiVersion: v1"; "kind: Secret"; "metadata:";
   "  name: " +:+ Name secret;
   "  namespace: " +:+ Namespace secret;
   "type: " +:+ Type_ secret;
   "stringData:"]
  ++ ((λ key, "  " +:+ key +:+ ": "
                +:+ GoStrconv.Quote isPrintWide (mapIndex k8sData key).1)
        <$> sortStrings (elements (dom k8sData))).

(** The manifest of a secret that converts. *)
Definition manifestDoc (isPrintWide : N → bool) (secret : Secret) : list string :=
  match ToKubernetesData secret with
  | Ok k8sData => manifestLines isPrintWide secret k8sData
  | Err _ => []
  end.

(** The line that separates two manifests. *)
Definition manifestSeparator : string := "---" +:+ newline.

(** The manifests of the secrets, with a separator between two of them. *)
Definition manifestDocs (isPrintWide : N → bool) (secrets : list Secret)
  : list string :=
  match secrets with
  | [] => []
  | secret :: rest =>
    manifestDoc isPrintWide secret
    ++ flat_map (λ s, manifestSeparator :: manifestDoc isPrintWide s) rest
  end.

(** An element of a path that [Clean] keeps as it is: not empty, without a
    separator, and neither [.] nor [..]. *)
Definition plainElem (e : string) : bool :=
  negb (String.eqb e EmptyString) && negb (GoStrings.ContainsByte e "/")
  && negb (String.eqb e ".") && negb (String.eqb e "..").

(** ** A disk and a host for the examples *)

(** A disk with the single file secrets/test/dotenv.env, which holds the
    line K=1; every other path does not exist. *)
Definition exampleStat (d : unit) (path : string) : result StatError bool :=
  if String.eqb path "secrets/test/dotenv.env" then Ok false
  else Err {| isNotExist := true;
              statMessage := "stat " +:+ path +:+ ": no such file or directory" |}.

Definition exampleReadFile (d : unit) (path : string) : result string string :=
  if String.eqb path "secrets/test/dotenv.env" then Ok ("K=1" +:+ newline)
  else Err ("open " +:+ path +:+ ": no such file or directory").

Definition exampleDecrypt (d : unit) (path : string)
  : result (string * string) string :=
  Err ("exit status 1", "sops: no key found").

Definition exampleWalk (d : unit) (path : string) : list WalkVisit := [].

(** Directories and files can be created; a write succeeds on the first
    disk and fails on the full one. *)
Definition exampleCreate (d : unit) (path : string) : unit * option string :=
  (d, None).

Definition exampleWrite (d : unit) (path bytes : string) : unit * option string :=
  (d, None).

Definition fullDiskWrite (d : unit) (path bytes : string) : unit * option string :=
  (d, Some ("write " +:+ path +:+ ": no space left on device")).

(** The host before a download: the empty cluster and nothing done. *)
Definition exampleHost : @Host unit MemCluster :=
  {| world := emptyWorld; disk := tt; fileOps := []; listed := []; printed := [] |}.

(** [Secrets(namespace).List] on the cluster of the examples. *)
Definition memList (c : MemCluster) (namespace : string)
  : result string (list (string * K8sSecret)) :=
  Ok ((λ kv, (kv.1.2, kv.2)) <$>
        filter (λ kv, kv.1.1 = namespace) (map_to_list c)).
(* ================================================================== *)
(** * Properties *)

(** ** Content Parser *)

Section ContentParser.

Implicit Types (s line text key value : string) (data : gmap string string).
Implicit Types (lines : list string).

Lemma SplitN2_present s sep :
  GoStrings.ContainsByte s sep = true →
  ∃ a b, GoStrings.SplitN2 s sep = [a; b] ∧ s = a +:+ String sep b ∧
         GoStrings.ContainsByte a sep = false.
Proof.
  induction s as [|c r IH]; simpl; [discriminate|].
  destruct (Ascii.eqb c sep) eqn:Hc; simpl.
  - intros _. apply Ascii.eqb_eq in Hc as ->.
    exists EmptyString, r. done.
  - intros Hr. destruct (IH Hr) as (a & b & -> & -> & Ha).
    exists (String c a), b. simpl. by rewrite Hc, Ha.
Qed.

Lemma SplitN2_absent s sep :
  GoStrings.ContainsByte s sep = false → GoStrings.SplitN2 s sep = [s].
Proof.
  induction s as [|c r IH]; simpl; [done|].
  destruct (Ascii.eqb c sep); simpl; [discriminate|].
  intros Hr. by rewrite (IH Hr).
Qed.

Lemma parseLine_malformed n text data ty :
  malformedLine text = true →
  parseLine n text data ty = Err (InvalidLine n (GoStrings.TrimSpace text)).
Proof.
  unfold malformedLine, skippedLine, parseLine.
  intros [Hskip Hno]%andb_true_iff.
  apply negb_true_iff in Hskip. apply negb_true_iff in Hno.
  apply orb_false_iff in Hskip as [He Hp].
  rewrite He, Hp, andb_false_r. simpl.
  by rewrite (SplitN2_absent _ _ Hno).
Qed.

Lemma SplitN2_app k v sep :
  GoStrings.ContainsByte k sep = false →
  GoStrings.SplitN2 (k +:+ String sep v) sep = [k; v].
Proof.
  induction k as [|c r IH]; simpl.
  - intros _. by rewrite Ascii.eqb_refl.
  - destruct (Ascii.eqb c sep); simpl; [discriminate|].
    intros Hr. by rewrite (IH Hr).
Qed.

Lemma parseLine_wellformed n text data ty :
  malformedLine text = false →
  ∃ ty', parseLine n text data ty = Ok (applyEntry data text, ty') ∧
         (n ≠ 1 → ty' = ty).
Proof.
  unfold malformedLine, applyEntry, lineEntry, parseLine. intros Hwf.
  destruct (skippedLine (GoStrings.TrimSpace text)) eqn:Hskip; simpl in Hwf.
  - unfold skippedLine in Hskip.
    destruct ((n =? 1)%nat && GoStrings.HasPrefix (GoStrings.TrimSpace text) "#"
              && negb (String.eqb (extractTypeFromComment (GoStrings.TrimSpace text)) EmptyString))
      eqn:Hdir.
    + eexists; split; [done|]. intros Hn.
      apply Nat.eqb_neq in Hn. by rewrite Hn in Hdir.
    + rewrite Hskip. eexists; split; done.
  - apply negb_false_iff in Hwf.
    pose proof Hskip as Hskip'. unfold skippedLine in Hskip'.
    apply orb_false_iff in Hskip' as [He Hp].
    destruct (SplitN2_present _ _ Hwf) as (k & v & Hsplit & _ & _).
    rewrite He, Hp, andb_false_r, Hsplit. simpl. eexists; split; done.
Qed.



Lemma parseLines_wellformed lines : ∀ n data ty,
  Forall (λ t, malformedLine t = false) lines →
  ∃ ty', parseLines lines n data ty = Ok (foldl applyEntry data lines, ty') ∧
         (1 ≤ n → ty' = ty).
Proof.
  induction lines as [|l ls IH]; intros n data ty Hall; simpl.
  - by eexists.
  - apply Forall_cons in Hall as [Hl Hls].
    destruct (parseLine_wellformed (S n) l data ty Hl) as (ty1 & -> & Hty1).
    destruct (IH (S n) (applyEntry data l) ty1 Hls) as (ty2 & -> & Hty2).
    eexists; split; [done|]. intros Hn.
    rewrite Hty2 by lia. apply Hty1. lia.
Qed.

Lemma parseLines_ok_wellformed lines : ∀ n data ty r,
  parseLines lines n data ty = Ok r →
  Forall (λ t, malformedLine t = false) lines.
Proof.
  induction lines as [|l ls IH]; intros n data ty r Hr; [constructor|].
  simpl in Hr. destruct (malformedLine l) eqn:Hl.
  - by rewrite (parseLine_malformed _ _ _ _ Hl) in Hr.
  - constructor; [done|].
    destruct (parseLine_wellformed (S n) l data ty Hl) as (ty1 & Hpl & _).
    rewrite Hpl in Hr. eauto.
Qed.

Lemma foldl_applyEntry_other lines : ∀ data k,
  (∀ t v, t ∈ lines → lineEntry t ≠ Some (k, v)) →
  foldl applyEntry data lines !! k = data !! k.
Proof.
  induction lines as [|l ls IH]; intros data k Hno; simpl; [done|].
  rewrite IH by (intros t v Ht; apply Hno; by right).
  unfold applyEntry. destruct (lineEntry l) as [[k' v']|] eqn:Hl; [|done].
  apply lookup_insert_ne. intros ->. by apply (Hno l v'); [left|].
Qed.

Lemma foldl_applyEntry_last lines : ∀ data i text k v,
  lines !! i = Some text →
  lineEntry text = Some (k, v) →
  (∀ j t v', i < j → lines !! j = Some t → lineEntry t ≠ Some (k, v')) →
  foldl applyEntry data lines !! k = Some v.
Proof.
  induction lines as [|l ls IH]; intros data i text k v Hi He Hlast.
  - by rewrite lookup_nil in Hi.
  - destruct i as [|i]; simpl in *.
    + simplify_eq. rewrite foldl_applyEntry_other.
      * unfold applyEntry. rewrite He. apply lookup_insert_eq.
      * intros t v' [j Hj]%list_elem_of_lookup.
        apply (Hlast (S j)); [lia|done].
    + apply (IH _ i text); [done..|].
      intros j t v' Hj Ht. apply (Hlast (S j)); [lia|done].
Qed.

End ContentParser.

Lemma parseSecretContent_unfold content lines scanErr :
  GoBufio.Scan content = (lines, scanErr) →
  parseSecretContent content =
    finishParse scanErr (parseLines lines 0 ∅ "Opaque").
Proof. unfold parseSecretContent. by intros ->. Qed.

Lemma parseLine_first_directive text m data ty :
  typeDirective text m →
  parseLine 1 text data ty =
    Ok (data, if String.eqb (GoStrings.TrimSpace m) EmptyString
              then ty else GoStrings.TrimSpace m).
Proof.
  intros [Hp Hm]. unfold parseLine, extractTypeFromComment.
  rewrite Hp, Hm, orb_true_r. simpl.
  by destruct (String.eqb (GoStrings.TrimSpace m) EmptyString).
Qed.

Lemma parseLine_first_plain text data ty :
  (∀ m, ¬ typeDirective text m) →
  malformedLine text = false →
  parseLine 1 text data ty = Ok (applyEntry data text, ty).
Proof.
  intros Hno Hwf.
  destruct (parseLine_wellformed 1 text data ty Hwf) as (ty' & Hpl & _).
  rewrite Hpl. f_equal. f_equal.
  unfold parseLine in Hpl.
  destruct (GoStrings.HasPrefix (GoStrings.TrimSpace text) "#") eqn:Hp.
  - unfold extractTypeFromComment in Hpl.
    destruct (GoRegexp.findTypeDirective (GoStrings.TrimSpace text)) as [m|] eqn:Hm.
    + by destruct (Hno m).
    + simpl in Hpl. rewrite orb_true_r in Hpl. congruence.
  - simpl in Hpl.
    destruct (String.eqb (GoStrings.TrimSpace text) EmptyString); simpl in Hpl;
      [congruence|].
    destruct (GoStrings.SplitN2 (GoStrings.TrimSpace text) "=") as [|? [|? [|]]];
      congruence.
Qed.



(** C8. When the first line of the input, white space trimmed, begins with
    [#] and matches the directive pattern with capture [m], the line is taken
    as the type declaration: the parse yields the type that the alias table
    gives for the trimmed capture, and the entries come from the remaining
    lines alone.  In every other case the type is [Opaque]. *)
Theorem first_line_type_directive (content : string) (lines : list string)
    (scanErr : bool) :
  GoBufio.Scan content = (lines, scanErr) →
  (∀ text rest m,
      lines = text :: rest → typeDirective text m →
      (scanErr = false → Forall (λ t, malformedLine t = false) rest →
       parseSecretContent content =
         Ok (foldl applyEntry ∅ rest, mapSecretType (GoStrings.TrimSpace m)))
      ∧
      (∀ data ty, parseSecretContent content = Ok (data, ty) →
                  ty = mapSecretType (GoStrings.TrimSpace m) ∧
                  data = foldl applyEntry ∅ rest))
  ∧
  ((∀ text rest m, lines = text :: rest → ¬ typeDirective text m) →
      (scanErr = false → Forall (λ t, malformedLine t = false) lines →
       parseSecretContent content = Ok (foldl applyEntry ∅ lines, "Opaque"))
      ∧
      (∀ data ty, parseSecretContent content = Ok (data, ty) → ty = "Opaque")).
Proof.
  intros Hscan. rewrite (parseSecretContent_unfold _ _ _ Hscan). split.
  - intros text rest m -> Hdir. simpl.
    rewrite (parseLine_first_directive _ _ _ _ Hdir).
    set (ty0 := if String.eqb (GoStrings.TrimSpace m) EmptyString
                then "Opaque" else GoStrings.TrimSpace m).
    assert (mapSecretType ty0 = mapSecretType (GoStrings.TrimSpace m)) as Hty0.
    { unfold ty0.
      destruct (String.eqb (GoStrings.TrimSpace m) EmptyString) eqn:He; [|done].
      apply String.eqb_eq in He. by rewrite He. }
    assert (∀ data ty,
      finishParse scanErr (parseLines rest 1 ∅ ty0) = Ok (data, ty) →
      scanErr = false ∧ Forall (λ t, malformedLine t = false) rest) as Hinv.
    { intros data ty Hok.
      destruct (parseLines rest 1 ∅ ty0) as [[d t]|e] eqn:Hpl; [|done].
      split; [|by eapply parseLines_ok_wellformed].
      simpl in Hok. by destruct scanErr. }
    assert (scanErr = false → Forall (λ t, malformedLine t = false) rest →
      finishParse scanErr (parseLines rest 1 ∅ ty0) =
        Ok (foldl applyEntry ∅ rest, mapSecretType (GoStrings.TrimSpace m))) as Hfwd.
    { intros -> Hwf.
      destruct (parseLines_wellformed rest 1 ∅ ty0 Hwf) as (ty' & -> & Hty').
      simpl. rewrite Hty' by lia. by rewrite Hty0. }
    split; [done|].
    intros data ty Hok. destruct (Hinv _ _ Hok) as [He Hwf].
    rewrite (Hfwd He Hwf) in Hok. by simplify_eq.
  - intros Hno.
    assert (scanErr = false → Forall (λ t, malformedLine t = false) lines →
      finishParse scanErr (parseLines lines 0 ∅ "Opaque") =
        Ok (foldl applyEntry ∅ lines, "Opaque")) as Hfwd.
    { intros -> Hwf. destruct lines as [|text rest]; [done|].
      apply Forall_cons in Hwf as [Hwf1 Hwf]. simpl.
      rewrite parseLine_first_plain by eauto.
      destruct (parseLines_wellformed rest 1 (applyEntry ∅ text) "Opaque" Hwf)
        as (ty' & -> & Hty').
      simpl. by rewrite Hty' by lia. }
    split; [done|].
    intros data ty Hok.
    destruct (parseLines lines 0 ∅ "Opaque") as [[d t]|e] eqn:Hpl; [|done].
    assert (scanErr = false) as He by (simpl in Hok; by destruct scanErr).
    pose proof (parseLines_ok_wellformed _ _ _ _ _ Hpl) as Hwf.
    rewrite (Hfwd He Hwf) in Hok. congruence.
Qed.

Lemma first_line_type_directive_witness :
  parseSecretContent ("  # type = docker-registry" +:+ newline +:+ "A=1") =
    Ok (<["A" := "1"]> ∅, "kubernetes.io/dockerconfigjson")
  ∧
  ∀ data ty, parseSecretContent (newline +:+ "# type = tls") = Ok (data, ty) →
             ty = "Opaque".
Proof.
  split.
  - apply (proj1 (proj1 (first_line_type_directive
             ("  # type = docker-registry" +:+ newline +:+ "A=1")
             ["  # type = docker-registry"; "A=1"] false eq_refl)
           "  # type = docker-registry" ["A=1"] "docker-registry" eq_refl
           (conj eq_refl eq_refl)) eq_refl).
    repeat constructor.
  - refine (proj2 (proj2 (first_line_type_directive
             (newline +:+ "# type = tls") [EmptyString; "# type = tls"] false eq_refl)
           _)).
    intros text rest m Heq [Hp _]. injection Heq as <- _.
    vm_compute in Hp. discriminate Hp.
Defined.

(** C10. A key that appears on several lines is no error: the parse fails
    only on a malformed line or on a reading error of the scanner.  When it
    succeeds, every key holds the value of the last line that sets it, and
    keys that no line sets are absent. *)
Theorem duplicate_keys_last_wins (content : string) (lines : list string)
    (scanErr : bool) :
  GoBufio.Scan content = (lines, scanErr) →
  (is_ok (parseSecretContent content) = true ↔
     scanErr = false ∧ Forall (λ t, malformedLine t = false) lines)
  ∧
  (scanErr = false → Forall (λ t, malformedLine t = false) lines →
   ∃ data ty,
     parseSecretContent content = Ok (data, ty) ∧
     (∀ i text k v,
        lines !! i = Some text → lineEntry text = Some (k, v) →
        (∀ j t v', i < j → lines !! j = Some t → lineEntry t ≠ Some (k, v')) →
        data !! k = Some v) ∧
     (∀ k, (∀ t v, t ∈ lines → lineEntry t ≠ Some (k, v)) → data !! k = None)).
Proof.
  intros Hscan. rewrite (parseSecretContent_unfold _ _ _ Hscan).
  assert (scanErr = false → Forall (λ t, malformedLine t = false) lines →
    ∃ ty, finishParse scanErr (parseLines lines 0 ∅ "Opaque") =
            Ok (foldl applyEntry ∅ lines, ty)) as Hfwd.
  { intros -> Hwf.
    destruct (parseLines_wellformed lines 0 ∅ "Opaque" Hwf) as (ty' & -> & _).
    by eexists. }
  split; [split|].
  - destruct (parseLines lines 0 ∅ "Opaque") as [[d t]|e] eqn:Hpl; [|done].
    intros Hok. split; [|by eapply parseLines_ok_wellformed].
    simpl in Hok. by destruct scanErr.
  - intros [He Hwf]. destruct (Hfwd He Hwf) as [ty ->]. done.
  - intros He Hwf. destruct (Hfwd He Hwf) as [ty ->].
    exists (foldl applyEntry ∅ lines), ty. split; [done|]. split.
    + intros i text k v Hi Hentry Hlast.
      by apply (foldl_applyEntry_last lines ∅ i text).
    + intros k Hno. by rewrite foldl_applyEntry_other.
Qed.

Lemma duplicate_keys_last_wins_witness :
  (is_ok (parseSecretContent ("A=1" +:+ newline +:+ "B=x" +:+ newline +:+ "A=2"))
     = true ↔
   false = false ∧ Forall (λ t, malformedLine t = false) ["A=1"; "B=x"; "A=2"])
  ∧
  (false = false → Forall (λ t, malformedLine t = false) ["A=1"; "B=x"; "A=2"] →
   ∃ data ty,
     parseSecretContent ("A=1" +:+ newline +:+ "B=x" +:+ newline +:+ "A=2") =
       Ok (data, ty) ∧
     (∀ i text k v,
        ["A=1"; "B=x"; "A=2"] !! i = Some text → lineEntry text = Some (k, v) →
        (∀ j t v', i < j → ["A=1"; "B=x"; "A=2"] !! j = Some t →
                   lineEntry t ≠ Some (k, v')) →
        data !! k = Some v) ∧
     (∀ k, (∀ t v, t ∈ ["A=1"; "B=x"; "A=2"] → lineEntry t ≠ Some (k, v)) →
           data !! k = None)).
Proof.
  apply (duplicate_keys_last_wins
           ("A=1" +:+ newline +:+ "B=x" +:+ newline +:+ "A=2")
           ["A=1"; "B=x"; "A=2"] false).
  reflexivity.
Defined.

Example duplicate_keys_example :
  parseSecretContent ("A=1" +:+ newline +:+ "B=x" +:+ newline +:+ "A=2") =
    Ok (<["A" := "2"]> (<["B" := "x"]> ∅), "Opaque").
Proof. vm_compute. reflexivity. Qed.

(** ** Comparison of entry maps *)

Section Comparison.

Implicit Types (a b onsite remote : gmap string string).
Implicit Types (key : string) (keys : list string) (out : list Output).

Lemma sortStrings_Permutation keys : sortStrings keys ≡ₚ keys.
Proof. apply merge_sort_Permutation. Qed.

Lemma sortStrings_Sorted keys : Sorted String.le (sortStrings keys).
Proof. apply (Sorted_merge_sort String.le). Qed.

(** The order in which the keys leave the map does not matter. *)
Lemma sortStrings_order_irrelevant keys keys' :
  keys ≡ₚ keys' → sortStrings keys = sortStrings keys'.
Proof.
  intros Hp. apply (Sorted_unique String.le); try apply sortStrings_Sorted.
  by rewrite !sortStrings_Permutation.
Qed.

Lemma elem_of_allKeys a b key :
  key ∈ allKeys a b ↔ key ∈ dom a ∪ dom b.
Proof.
  unfold allKeys. rewrite sortStrings_Permutation. apply elem_of_elements.
Qed.

Lemma allKeys_NoDup a b : NoDup (allKeys a b).
Proof.
  unfold allKeys. rewrite sortStrings_Permutation. apply NoDup_elements.
Qed.

Lemma changed_keyDiffers a b key :
  negb (mapIndex a key).2 || negb (mapIndex b key).2
  || negb (String.eqb (mapIndex a key).1 (mapIndex b key).1)
  = keyDiffers a b key.
Proof.
  unfold mapIndex, keyDiffers.
  destruct (a !! key), (b !! key); simpl; done.
Qed.

Lemma compareKeyLocal_block ns1 ns2 a b verbose n out key :
  compareKeyLocal ns1 ns2 a b verbose (n, out) key =
    (n + (if keyDiffers a b key then 1 else 0),
     out ++ localBlock ns1 ns2 a b verbose key).
Proof.
  unfold compareKeyLocal, localBlock.
  rewrite <- (changed_keyDiffers a b key).
  destruct (mapIndex a key) as [v1 e1], (mapIndex b key) as [v2 e2]. simpl.
  destruct (negb e1 || negb e2 || negb (String.eqb v1 v2)).
  - rewrite <- app_assoc. f_equal. lia.
  - f_equal. lia.
Qed.

Lemma compareKeyRemote_block secretName a b verbose n out key :
  compareKeyRemote secretName a b verbose (n, out) key =
    (n + (if keyDiffers a b key then 1 else 0),
     out ++ remoteBlock secretName a b verbose key).
Proof.
  unfold compareKeyRemote, remoteBlock.
  rewrite <- (changed_keyDiffers a b key).
  destruct (mapIndex a key) as [v1 e1], (mapIndex b key) as [v2 e2]. simpl.
  destruct (negb e1 || negb e2 || negb (String.eqb v1 v2)); simpl.
  - rewrite <- app_assoc. f_equal. lia.
  - destruct verbose; simpl; rewrite ?app_nil_r; f_equal; lia.
Qed.

Lemma foldl_blocks (step : nat * list Output → string → nat * list Output)
    (differs : string → bool) (block : string → list Output) :
  (∀ n out key,
      step (n, out) key = (n + (if differs key then 1 else 0), out ++ block key)) →
  ∀ keys n out,
    foldl step (n, out) keys =
      (n + length (filter (λ k, differs k = true) keys),
       out ++ flat_map block keys).
Proof.
  intros Hstep keys. induction keys as [|k keys IH]; intros n out; simpl.
  - by rewrite Nat.add_0_r, app_nil_r.
  - rewrite Hstep, IH, <- app_assoc. f_equal.
    rewrite filter_cons. destruct (differs k) eqn:Hk.
    + rewrite decide_True by done. simpl. lia.
    + rewrite decide_False by congruence. lia.
Qed.

Lemma reportedKeys_app out out' :
  reportedKeys (out ++ out') = reportedKeys out ++ reportedKeys out'.
Proof. apply omap_app. Qed.

Lemma reportedKeys_local ns1 ns2 a b verbose keys :
  reportedKeys (flat_map (localBlock ns1 ns2 a b verbose) keys) = keys.
Proof.
  induction keys as [|k keys IH]; [done|].
  simpl. rewrite reportedKeys_app, IH.
  unfold reportedKeys. by destruct (keyDiffers a b k).
Qed.

Lemma reportedKeys_remote secretName a b verbose keys :
  reportedKeys (flat_map (remoteBlock secretName a b verbose) keys) =
    filter (λ k, keyDiffers a b k || verbose = true) keys.
Proof.
  induction keys as [|k keys IH]; [done|].
  simpl. rewrite reportedKeys_app, IH, filter_cons.
  unfold remoteBlock.
  destruct (keyDiffers a b k), verbose; simpl; done.
Qed.

End Comparison.

(** C5. The comparison with the remote at an input where it breaks the
    output policy: with the verbose flag off and both maps holding K = 1, the
    key K is in the union of the keys, yet [compareSecretsRemote] counts no
    difference and prints no line at all, so K is not reported.  The loop is
    headed by the comment `show all keys, but only show values when they
    differ`, and [compareSecretsLocal] prints every key; the guard
    `if changed || verbose` around the key line departs from both. *)
Lemma remote_equal_key_not_reported :
  let onsite : gmap string string := {[ "K" := "1" ]} in
  let remote : gmap string string := {[ "K" := "1" ]} in
  "K" ∈ dom onsite ∪ dom remote ∧
  compareSecretsRemote "ns/name" onsite remote false = (0, []) ∧
  "K" ∉ reportedKeys (compareSecretsRemote "ns/name" onsite remote false).2.
Proof.
  simpl. split; [set_solver|]. split; [by vm_compute|].
  vm_compute. by intros ?%elem_of_nil.
Qed.

(** The output of the two comparisons as the code computes it, for every
    input.  Both walk the union of the keys in ascending order and count the
    keys classified as different.  The local comparison reports every key of
    the union; the comparison with the remote, because of its guard, reports
    a key only when it is different or the verbose flag is set.  In both, the
    pair of values follows the key exactly when the key is different,
    whatever the verbose flag. *)
Theorem comparison_output (ns1 ns2 secretName : string)
    (a b : gmap string string) (verbose : bool) :
  let keys := allKeys a b in
  let differing := filter (λ k, keyDiffers a b k = true) keys in
  Sorted String.le keys ∧ NoDup keys ∧
  (∀ k, k ∈ keys ↔ k ∈ dom a ∪ dom b) ∧
  compareSecretsLocal ns1 ns2 a b verbose =
    (length differing, flat_map (localBlock ns1 ns2 a b verbose) keys) ∧
  compareSecretsRemote secretName a b verbose =
    (length differing, flat_map (remoteBlock secretName a b verbose) keys) ∧
  reportedKeys (compareSecretsLocal ns1 ns2 a b verbose).2 = keys ∧
  reportedKeys (compareSecretsRemote secretName a b verbose).2 =
    filter (λ k, keyDiffers a b k || verbose = true) keys.
Proof.
  intros keys differing.
  assert (compareSecretsLocal ns1 ns2 a b verbose =
    (length differing, flat_map (localBlock ns1 ns2 a b verbose) keys)) as Hl.
  { unfold compareSecretsLocal.
    by rewrite (foldl_blocks _ _ _ (compareKeyLocal_block ns1 ns2 a b verbose)). }
  assert (compareSecretsRemote secretName a b verbose =
    (length differing, flat_map (remoteBlock secretName a b verbose) keys)) as Hr.
  { unfold compareSecretsRemote.
    by rewrite (foldl_blocks _ _ _ (compareKeyRemote_block secretName a b verbose)). }
  split; [apply sortStrings_Sorted|].
  split; [apply allKeys_NoDup|].
  split; [intros k; apply elem_of_allKeys|].
  split; [done|]. split; [done|].
  rewrite Hl, Hr. simpl. split.
  - apply reportedKeys_local.
  - apply reportedKeys_remote.
Qed.

(** ** Strings and UTF-8 *)

Section StringFacts.

Implicit Types (s t u : string) (c : ascii).

Lemma str_app_nil_l s : EmptyString +:+ s = s.
Proof. reflexivity. Qed.

Lemma str_app_cons c s t : String c s +:+ t = String c (s +:+ t).
Proof. reflexivity. Qed.

Lemma str_app_nil_r s : s +:+ EmptyString = s.
Proof. induction s as [|c s IH]; [done|]. by rewrite str_app_cons, IH. Qed.

Lemma str_app_assoc s t u : (s +:+ t) +:+ u = s +:+ (t +:+ u).
Proof. induction s as [|c s IH]; [done|]. by rewrite !str_app_cons, IH. Qed.

Lemma str_length_app s t :
  String.length (s +:+ t) = String.length s + String.length t.
Proof. induction s as [|c s IH]; [done|]. rewrite str_app_cons. simpl. by rewrite IH. Qed.

Lemma take_drop_bytes n s :
  GoJSON.takeBytes n s +:+ GoStrings.dropBytes n s = s.
Proof.
  revert s. induction n as [|n IH]; intros [|c s]; simpl; try done.
  by rewrite str_app_cons, IH.
Qed.

Lemma drop_take_app n s t :
  n ≤ String.length s →
  GoStrings.dropBytes n (GoJSON.takeBytes n s +:+ t) = t.
Proof.
  revert s. induction n as [|n IH]; intros [|c s] Hn; simpl in *;
    try done; try lia.
  apply IH. lia.
Qed.

Lemma length_dropBytes n s :
  String.length (GoStrings.dropBytes n s) = String.length s - n.
Proof.
  revert s. induction n as [|n IH]; intros [|c s]; simpl; try done. 
Qed.

Lemma length_takeBytes n s :
  n ≤ String.length s → String.length (GoJSON.takeBytes n s) = n.
Proof.
  revert s. induction n as [|n IH]; intros [|c s] Hn; simpl in *; try done; try lia.
  rewrite IH; lia.
Qed.

Lemma byte_of_bounded c : (byte_of c < 256)%N.
Proof. apply N_ascii_bounded. Qed.

Lemma byte_to_ascii_of c n : n = byte_of c → GoUtf8.byte_to_ascii n = c.
Proof. intros ->. apply ascii_N_embedding. Qed.

End StringFacts.

Ltac nlia := zify; Z.to_euclidean_division_equations; lia.

(** Turn the boolean tests on bytes and runes into arithmetic facts. *)
Ltac bool_to_arith :=
  repeat match goal with
  | H : GoUtf8.between _ _ _ = true |- _ =>
    unfold GoUtf8.between in H
  | H : GoUtf8.between _ _ _ = false |- _ =>
    unfold GoUtf8.between in H
  | H : GoUtf8.isCont _ = _ |- _ => unfold GoUtf8.isCont, GoUtf8.between in H
  | H : _ && _ = true |- _ => apply andb_true_iff in H as [? ?]
  | H : _ || _ = false |- _ => apply orb_false_iff in H as [? ?]
  | H : (_ <=? _)%N = true |- _ => apply N.leb_le in H
  | H : (_ <=? _)%N = false |- _ => apply N.leb_gt in H
  | H : (_ <? _)%N = true |- _ => apply N.ltb_lt in H
  | H : (_ <? _)%N = false |- _ => apply N.ltb_ge in H
  | H : (_ =? _)%N = true |- _ => apply N.eqb_eq in H
  | H : (_ =? _)%N = false |- _ => apply N.eqb_neq in H
  end.

Ltac bytes_eq :=
  unfold str1;
  repeat (apply (f_equal2 String); [apply byte_to_ascii_of; nlia|]);
  try reflexivity.

Section Utf8Facts.

Implicit Types (s t : string) (c : ascii).

(** A rune that [DecodeRune] accepts is given back by [EncodeRune] with the
    same bytes, and it is decoded from these bytes alone. *)
Lemma DecodeRune_accepts s r size :
  s ≠ EmptyString →
  GoUtf8.DecodeRune s = (r, size) →
  (r =? GoUtf8.RuneError)%N && (size =? 1)%nat = false →
  1 ≤ size ∧ size ≤ String.length s ∧
  GoUtf8.EncodeRune r = GoJSON.takeBytes size s ∧
  ∀ t, GoUtf8.DecodeRune (GoJSON.takeBytes size s +:+ t) = (r, size).
Proof.
  intros Hne Hdec Hok. destruct s as [|c0 s]; [done|]. clear Hne.
  pose proof (byte_of_bounded c0) as Hb0.
  unfold GoUtf8.DecodeRune in Hdec.
  destruct (byte_of c0 <? 128)%N eqn:H0.
  { (* ASCII *)
    simplify_eq. split; [lia|]. split; [simpl; lia|]. split.
    - unfold GoUtf8.EncodeRune. rewrite H0. simpl.
      by rewrite (byte_to_ascii_of c0).
    - intros t. cbn [GoJSON.takeBytes]. rewrite !str_app_cons. unfold GoUtf8.DecodeRune. by rewrite H0. }
  destruct (GoUtf8.between 194 223 c0) eqn:H2.
  { destruct s as [|c1 s]; [simplify_eq; by rewrite N.eqb_refl in Hok|].
    destruct (GoUtf8.isCont c1) eqn:Hc1;
      [|simplify_eq; by rewrite N.eqb_refl in Hok].
    pose proof (byte_of_bounded c1).
    simplify_eq. split; [lia|]. split; [simpl; lia|]. split.
    - bool_to_arith. unfold GoUtf8.EncodeRune.
      destruct (_ <? 128)%N eqn:E1; [bool_to_arith; nlia|].
      destruct (_ <? 2048)%N eqn:E2; [|bool_to_arith; nlia].
      bytes_eq.
    - intros t. cbn [GoJSON.takeBytes]. rewrite !str_app_cons.
      unfold GoUtf8.DecodeRune.
      by rewrite H0, H2, Hc1. }
  destruct (GoUtf8.between 224 239 c0) eqn:H3.
  { destruct s as [|c1 [|c2 s]]; try (simplify_eq; by rewrite N.eqb_refl in Hok).
    match type of Hdec with (if ?b then _ else _) = _ => destruct b eqn:Hc end;
      [|simplify_eq; by rewrite N.eqb_refl in Hok].
    pose proof (byte_of_bounded c1). pose proof (byte_of_bounded c2).
    simplify_eq. split; [lia|]. split; [simpl; lia|]. split.
    - unfold GoUtf8.EncodeRune.
      destruct (byte_of c0 =? 224)%N eqn:Ea, (byte_of c0 =? 237)%N eqn:Eb;
        bool_to_arith;
        (destruct (_ <? 128)%N eqn:E1; [bool_to_arith; nlia|]);
        (destruct (_ <? 2048)%N eqn:E2; [bool_to_arith; nlia|]);
        (match goal with |- (if ?b then _ else _) = _ => destruct b eqn:E3 end;
         [apply orb_true_iff in E3 as [E3|E3]; bool_to_arith; nlia|]);
        (destruct (_ <? 65536)%N eqn:E4; [|bool_to_arith; nlia]);
        bytes_eq.
    - intros t. cbn [GoJSON.takeBytes]. rewrite !str_app_cons.
      unfold GoUtf8.DecodeRune.
      by rewrite H0, H2, H3, Hc. }
  destruct (GoUtf8.between 240 244 c0) eqn:H4.
  { destruct s as [|c1 [|c2 [|c3 s]]];
      try (simplify_eq; by rewrite N.eqb_refl in Hok).
    match type of Hdec with (if ?b then _ else _) = _ => destruct b eqn:Hc end;
      [|simplify_eq; by rewrite N.eqb_refl in Hok].
    pose proof (byte_of_bounded c1). pose proof (byte_of_bounded c2).
    pose proof (byte_of_bounded c3).
    simplify_eq. split; [lia|]. split; [simpl; lia|]. split.
    - unfold GoUtf8.EncodeRune.
      destruct (byte_of c0 =? 240)%N eqn:Ea, (byte_of c0 =? 244)%N eqn:Eb;
        bool_to_arith;
        (destruct (_ <? 128)%N eqn:E1; [bool_to_arith; nlia|]);
        (destruct (_ <? 2048)%N eqn:E2; [bool_to_arith; nlia|]);
        (match goal with |- (if ?b then _ else _) = _ => destruct b eqn:E3 end;
         [apply orb_true_iff in E3 as [E3|E3]; bool_to_arith; nlia|]);
        (destruct (_ <? 65536)%N eqn:E4; [bool_to_arith; nlia|]);
        bytes_eq.
    - intros t. cbn [GoJSON.takeBytes]. rewrite !str_app_cons.
      unfold GoUtf8.DecodeRune.
      by rewrite H0, H2, H3, H4, Hc. }
  by simplify_eq.
Qed.

End Utf8Facts.

(** ** JSON: a string literal is read back coerced to valid UTF-8 *)

Section JsonStrings.

Lemma scan_ascii_piece b g X :
  (byte_of b <? 128)%N = true →
  GoJSON.scanString (S g) (asciiPiece b +:+ X) =
    GoJSON.consResult (str1 b) (GoJSON.scanString g X).
Proof.
  destruct b as [[] [] [] [] [] [] [] []]; intros Hb;
    try discriminate Hb; reflexivity.
Qed.

Lemma asciiPiece_length b : 1 ≤ String.length (asciiPiece b).
Proof.
  unfold asciiPiece, GoJSON.escapeByte.
  repeat match goal with |- context [if ?c then _ else _] => destruct c end;
    simpl; lia.
Qed.

Lemma coerceWith_ascii f b r :
  (byte_of b <? 128)%N = true →
  GoJSON.coerceWith (S f) (String b r) = String b (GoJSON.coerceWith f r).
Proof.
  intros Hb. cbn [GoJSON.coerceWith]. unfold GoUtf8.DecodeRune. rewrite Hb.
  unfold GoUtf8.EncodeRune. rewrite Hb. unfold str1.
  by rewrite (byte_to_ascii_of b).
Qed.

Lemma DecodeRune_high_invalid b r :
  (byte_of b <? 128)%N = false →
  ∀ rr size, GoUtf8.DecodeRune (String b r) = (rr, size) →
  (rr =? GoUtf8.RuneError)%N && (size =? 1)%nat = true →
  rr = GoUtf8.RuneError ∧ size = 1.
Proof.
  intros _ rr size _ [H1 H2]%andb_true_iff.
  apply N.eqb_eq in H1. apply Nat.eqb_eq in H2. done.
Qed.

Lemma scanString_appendStringBody fuel : ∀ s fuel2 rest,
  String.length s ≤ fuel →
  String.length (GoJSON.appendStringBody fuel s) < fuel2 →
  GoJSON.scanString fuel2 (GoJSON.appendStringBody fuel s +:+ String dquote rest)
  = Some (GoJSON.coerceWith fuel s, rest).
Proof.
  induction fuel as [|f IH]; intros s fuel2 rest Hlen Hfuel.
  - destruct s; [|simpl in Hlen; lia]. destruct fuel2; [lia|]. reflexivity.
  - destruct s as [|b r].
    { destruct fuel2; [simpl in Hfuel; lia|]. reflexivity. }
    simpl in Hlen. cbn [GoJSON.appendStringBody] in *.
    destruct (byte_of b <? 128)%N eqn:Hb.
    + (* an ASCII byte *)
      fold (asciiPiece b) in *.
      pose proof (asciiPiece_length b).
      rewrite str_length_app in Hfuel.
      destruct fuel2 as [|g]; [lia|].
      rewrite str_app_assoc, scan_ascii_piece by done.
      rewrite IH by lia. rewrite coerceWith_ascii by done. reflexivity.
    + destruct (GoUtf8.DecodeRune (String b r)) as [rr size] eqn:Hdec.
      destruct ((rr =? GoUtf8.RuneError)%N && (size =? 1)%nat) eqn:Hinv.
      * (* a byte that starts no valid sequence *)
        destruct (DecodeRune_high_invalid b r Hb rr size Hdec Hinv) as [-> ->].
        rewrite str_length_app in Hfuel. simpl in Hfuel.
        destruct fuel2 as [|g]; [lia|].
        rewrite str_app_assoc.
        change (GoJSON.scanString (S g)
                  (String GoJSON.backslash "ufffd" +:+
                   (GoJSON.appendStringBody f r +:+ String dquote rest)))
          with (GoJSON.consResult (GoUtf8.EncodeRune GoUtf8.RuneError)
                  (GoJSON.scanString g
                     (GoJSON.appendStringBody f r +:+ String dquote rest))).
        rewrite IH by lia.
        cbn [GoJSON.coerceWith]. rewrite Hdec. reflexivity.
      * destruct (DecodeRune_accepts (String b r) rr size) as (H1 & H2 & Henc & Hpre);
          [done..|].
        assert (String.length (GoStrings.dropBytes size (String b r)) ≤ f) as Hrest.
        { rewrite length_dropBytes. simpl in *. lia. }
        destruct ((rr =? 8232)%N || (rr =? 8233)%N) eqn:Hsep.
        -- (* U+2028 and U+2029 *)
           rewrite !str_length_app in Hfuel. simpl in Hfuel.
           destruct fuel2 as [|g]; [lia|].
           rewrite !str_app_assoc.
           assert (GoJSON.scanString (S g)
                  (String GoJSON.backslash "u202" +:+
                   (str1 (GoJSON.hex (rr `mod` 16)) +:+
                   (GoJSON.appendStringBody f (GoStrings.dropBytes size (String b r))
                      +:+ String dquote rest)))
              = GoJSON.consResult (GoUtf8.EncodeRune rr)
                  (GoJSON.scanString g
                     (GoJSON.appendStringBody f (GoStrings.dropBytes size (String b r))
                        +:+ String dquote rest))) as ->.
           { apply orb_true_iff in Hsep as [->%N.eqb_eq | ->%N.eqb_eq]; reflexivity. }
           rewrite IH by lia.
           cbn [GoJSON.coerceWith]. rewrite Hdec. reflexivity.
        -- (* any other rune is copied *)
           rewrite str_length_app, length_takeBytes in Hfuel by done.
           destruct fuel2 as [|g]; [lia|].
           rewrite str_app_assoc.
           set (Y := GoJSON.appendStringBody f (GoStrings.dropBytes size (String b r))
                       +:+ String dquote rest).
           assert (GoJSON.scanString (S g) (GoJSON.takeBytes size (String b r) +:+ Y)
                   = GoJSON.consResult (GoUtf8.EncodeRune rr) (GoJSON.scanString g Y)) as ->.
           { destruct size as [|size]; [lia|].
             pose proof (Hpre Y) as HY.
             cbn [GoJSON.takeBytes] in *. rewrite str_app_cons in *.
             cbn [GoJSON.scanString].
             assert (Ascii.eqb b dquote = false) as ->.
             { apply Ascii.eqb_neq. intros ->. by vm_compute in Hb. }
             assert (Ascii.eqb b GoJSON.backslash = false) as ->.
             { apply Ascii.eqb_neq. intros ->. by vm_compute in Hb. }
             assert ((byte_of b <? 32)%N = false) as ->.
             { bool_to_arith. apply N.ltb_ge. lia. }
             rewrite Hb, HY. do 2 f_equal.
             rewrite <- str_app_cons.
             change (String b (GoJSON.takeBytes size r))
               with (GoJSON.takeBytes (S size) (String b r)).
             by rewrite drop_take_app. }
           unfold Y. rewrite IH by lia.
           cbn [GoJSON.coerceWith]. rewrite Hdec. reflexivity.
Qed.

Lemma coerceWith_valid fuel : ∀ s,
  String.length s ≤ fuel → GoUtf8.validWith fuel s = true →
  GoJSON.coerceWith fuel s = s.
Proof.
  induction fuel as [|f IH]; intros s Hlen Hvalid.
  - destruct s; [done|simpl in Hlen; lia].
  - destruct s as [|b r]; [done|].
    cbn [GoUtf8.validWith GoJSON.coerceWith] in *.
    destruct (GoUtf8.DecodeRune (String b r)) as [rr size] eqn:Hdec.
    destruct ((rr =? GoUtf8.RuneError)%N && (size =? 1)%nat) eqn:Hinv; [done|].
    destruct (DecodeRune_accepts (String b r) rr size) as (H1 & H2 & Henc & _);
      [done..|].
    rewrite Henc, IH; [apply take_drop_bytes| |done].
    rewrite length_dropBytes. simpl in *. lia.
Qed.

Lemma coerceUTF8_valid s : GoUtf8.ValidString s = true → GoJSON.coerceUTF8 s = s.
Proof. intros Hv. by apply coerceWith_valid. Qed.


Lemma appendString_unfold s rest :
  GoJSON.appendString s +:+ rest =
    String dquote (GoJSON.appendStringBody (String.length s) s +:+ String dquote rest).
Proof.
  unfold GoJSON.appendString. rewrite !str_app_cons, str_app_assoc.
  reflexivity.
Qed.

Lemma scanString_literal s rest fuel :
  String.length (GoJSON.appendStringBody (String.length s) s) < fuel →
  GoJSON.scanString fuel
    (GoJSON.appendStringBody (String.length s) s +:+ String dquote rest)
  = Some (GoJSON.coerceUTF8 s, rest).
Proof. intros Hf. by apply scanString_appendStringBody. Qed.

Lemma reads_string depth s :
  reads depth (GoJSON.JString s) (GoJSON.JString (GoJSON.coerceUTF8 s)).
Proof.
  intros fuel rest Hf. cbn [GoJSON.render] in *.
  rewrite appendString_unfold in *.
  destruct fuel as [|f]; [lia|].
  cbn [GoJSON.parseValue GoJSON.skipWS].
  change (GoJSON.isWS dquote) with false. cbv iota.
  change (Ascii.eqb dquote "{") with false.
  change (Ascii.eqb dquote "[") with false.
  change (Ascii.eqb dquote dquote) with true. cbv iota.
  rewrite scanString_literal; [done|].
  rewrite str_length_app. lia.
Qed.


Lemma parseMembers_join depth (ms : list (string * GoJSON.Value)) ms' :
  ms ≠ [] →
  Forall2 (λ m m', m'.1 = GoJSON.coerceUTF8 m.1 ∧ reads depth m.2 m'.2) ms ms' →
  ∀ fuel rest,
    String.length (GoJSON.joinWith memberText ms +:+ String "}" rest) < fuel →
    GoJSON.parseMembers fuel depth (GoJSON.joinWith memberText ms +:+ String "}" rest)
    = Some (ms', rest).
Proof.
  intros Hne Hall. induction Hall as [|[k x] [k' x'] ms ms' [Hk Hx] Hall IH];
    [done|]. clear Hne. simpl in Hk, Hx. subst k'.
  intros fuel rest Hf.
  assert (∀ tail,
    String.length (memberText (k, x) +:+ tail) < fuel →
    ∃ f, fuel = S f ∧
      GoJSON.parseMembers fuel depth (memberText (k, x) +:+ tail) =
        match GoJSON.parseValue f depth (GoJSON.render x +:+ tail) with
        | None => None
        | Some (v, r3) =>
          match GoJSON.skipWS r3 with
          | EmptyString => None
          | String c3 r4 =>
            if Ascii.eqb c3 "," then
              match GoJSON.parseMembers f depth r4 with
              | Some (ms0, rest0) => Some ((GoJSON.coerceUTF8 k, v) :: ms0, rest0)
              | None => None
              end
            else if Ascii.eqb c3 "}" then Some ([(GoJSON.coerceUTF8 k, v)], r4)
            else None
          end
        end) as Hhead.
  { intros tail Ht. destruct fuel as [|f]; [lia|]. exists f. split; [done|].
    unfold memberText in *. cbn [fst snd] in *.
    rewrite !str_app_assoc in *. rewrite appendString_unfold in *.
    cbn [GoJSON.parseMembers GoJSON.skipWS].
    change (GoJSON.isWS dquote) with false. cbv iota.
    change (Ascii.eqb dquote dquote) with true. cbv iota.
    rewrite scanString_literal by (rewrite str_length_app; lia).
    rewrite str_app_cons, str_app_nil_l.
    cbn [GoJSON.skipWS]. change (GoJSON.isWS ":") with false. cbv iota.
    change (Ascii.eqb ":" ":") with true. cbv iota. reflexivity. }
  destruct ms as [|m ms].
  - (* the last member *)
    inversion Hall; subst. cbn [GoJSON.joinWith] in *.
    destruct (Hhead _ Hf) as (f & -> & ->).
    rewrite Hx.
    + cbn [GoJSON.skipWS]. change (GoJSON.isWS "}") with false. cbv iota.
      change (Ascii.eqb "}" ",") with false. change (Ascii.eqb "}" "}") with true.
      reflexivity.
    + unfold memberText in Hf. cbn [fst snd] in Hf.
      rewrite !str_app_assoc, !str_length_app in Hf.
      change (String.length ":") with 1 in Hf.
      rewrite str_length_app. lia.
  - (* a member followed by others *)
    change (GoJSON.joinWith memberText ((k, x) :: m :: ms))
      with (memberText (k, x) +:+ "," +:+ GoJSON.joinWith memberText (m :: ms)) in *.
    rewrite !str_app_assoc in *.
    destruct (Hhead _ Hf) as (f & -> & ->).
    assert (String.length
              (GoJSON.render x +:+ "," +:+
               GoJSON.joinWith memberText (m :: ms) +:+ String "}" rest) < f) as Hf'.
    { unfold memberText in Hf at 1. cbn [fst snd] in Hf.
      rewrite !str_app_assoc in Hf. rewrite !str_length_app in Hf.
      change (String.length ":") with 1 in Hf.
      rewrite !str_length_app. lia. }
    rewrite Hx by done.
    rewrite str_app_cons, str_app_nil_l.
    cbn [GoJSON.skipWS]. change (GoJSON.isWS ",") with false. cbv iota.
    change (Ascii.eqb "," ",") with true. cbv iota.
    rewrite IH; [done|done|].
    rewrite str_length_app, str_app_cons, str_app_nil_l in Hf'.
    cbn [String.length] in Hf'. lia.
Qed.

End JsonStrings.

(** ** JSON: objects, and the docker-registry codec *)

Lemma joinWith_memberText_head (ms : list (string * GoJSON.Value)) tail :
  ms ≠ [] →
  ∃ y, GoJSON.joinWith memberText ms +:+ tail = String dquote y.
Proof.
  destruct ms as [|[k x] ms]; [done|]. intros _.
  destruct ms as [|m ms].
  - cbn [GoJSON.joinWith]. unfold memberText. cbn [fst snd].
    rewrite !str_app_assoc, appendString_unfold. by eexists.
  - change (GoJSON.joinWith memberText ((k, x) :: m :: ms))
      with (memberText (k, x) +:+ "," +:+ GoJSON.joinWith memberText (m :: ms)).
    unfold memberText at 1. cbn [fst snd].
    rewrite !str_app_assoc, appendString_unfold. by eexists.
Qed.

Lemma render_object ms rest :
  GoJSON.render (GoJSON.JObject ms) +:+ rest =
    String "{" (GoJSON.joinWith memberText ms +:+ String "}" rest).
Proof.
  cbn [GoJSON.render]. fold memberText.
  change (λ m : string * GoJSON.Value,
            GoJSON.appendString m.1 +:+ ":" +:+ GoJSON.render m.2)
    with memberText.
  by rewrite !str_app_cons, str_app_nil_l, !str_app_assoc.
Qed.

Lemma reads_object depth (ms ms' : list (string * GoJSON.Value)) :
  (depth < GoJSON.maxNestingDepth)%N →
  ms ≠ [] →
  Forall2 (λ m m', m'.1 = GoJSON.coerceUTF8 m.1 ∧ reads (depth + 1) m.2 m'.2) ms ms' →
  reads depth (GoJSON.JObject ms) (GoJSON.JObject ms').
Proof.
  intros Hd Hne Hall fuel rest Hf.
  rewrite render_object in *.
  destruct fuel as [|f]; [lia|].
  cbn [GoJSON.parseValue GoJSON.skipWS].
  change (GoJSON.isWS "{") with false. cbv iota.
  change (Ascii.eqb "{" "{") with true. cbv iota.
  apply N.leb_gt in Hd. rewrite Hd.
  destruct (joinWith_memberText_head ms (String "}" rest) Hne) as [y Hy].
  rewrite Hy at 1. cbn [GoJSON.skipWS].
  change (GoJSON.isWS dquote) with false. cbv iota.
  change (Ascii.eqb dquote "}") with false. cbv iota.
  rewrite (parseMembers_join (depth + 1) ms ms' Hne Hall); [done|].
  cbn [String.length] in Hf. lia.
Qed.

Lemma reads_auth depth a :
  (depth < GoJSON.maxNestingDepth)%N →
  reads depth (DockerAuth_toJSON a) (authTree a).
Proof.
  intros Hd. unfold DockerAuth_toJSON, authTree.
  apply reads_object; [done| |].
  - by destruct (String.eqb (Email a) EmptyString).
  - destruct (String.eqb (Email a) EmptyString); simpl;
      repeat (constructor; [split; [reflexivity|apply reads_string]|]);
      constructor.
Qed.

Lemma marshal_single server a :
  json_Marshal {| Auths := {[ server := a ]} |} =
    GoJSON.render
      (GoJSON.JObject
         [("auths", GoJSON.JObject [(server, DockerAuth_toJSON a)])]).
Proof.
  unfold json_Marshal, DockerConfig_toJSON. cbn [Auths].
  rewrite dom_singleton_L, elements_singleton. cbn.
  by rewrite lookup_singleton_eq.
Qed.

Lemma parse_marshal_single server a :
  GoJSON.parse (json_Marshal {| Auths := {[ server := a ]} |}) =
    Some (GoJSON.JObject
            [("auths",
              GoJSON.JObject [(GoJSON.coerceUTF8 server, authTree a)])]).
Proof.
  rewrite marshal_single. unfold GoJSON.parse.
  set (v := GoJSON.JObject _).
  assert (reads 0 v
    (GoJSON.JObject
       [("auths", GoJSON.JObject [(GoJSON.coerceUTF8 server, authTree a)])])) as Hr.
  { apply reads_object; [done|done|].
    constructor; [|constructor]. split; [reflexivity|]. cbn [snd].
    apply reads_object; [done|done|].
    constructor; [|constructor]. split; [reflexivity|]. cbn [snd].
    by apply reads_auth. }
  specialize (Hr (2 * String.length (GoJSON.render v) + 2) EmptyString).
  rewrite str_app_nil_r in Hr. rewrite Hr; [done|]. lia.
Qed.

Lemma decodeAuth_authTree a : decodeAuth (authTree a) = Some (coerceAuth a).
Proof.
  unfold authTree, coerceAuth.
  destruct (String.eqb (Email a) EmptyString) eqn:He.
  - apply String.eqb_eq in He. rewrite He. reflexivity.
  - reflexivity.
Qed.

Lemma unmarshal_marshal_single server a :
  json_Unmarshal (json_Marshal {| Auths := {[ server := a ]} |}) =
    Some {| Auths := {[ GoJSON.coerceUTF8 server := coerceAuth a ]} |}.
Proof.
  unfold json_Unmarshal. rewrite parse_marshal_single. cbn [mbind option_bind].
  unfold decodeConfig, decodeMembers. cbn [foldl].
  cbn [mbind option_bind]. unfold decodeConfigField.
  change (GoJSON.keyIsField "auths" "auths") with true. cbv iota.
  unfold decodeAuths, decodeMembers. cbn [foldl Auths mbind option_bind].
  rewrite decodeAuth_authTree. reflexivity.
Qed.

Lemma rangeFirst_singleton {A} pick (k : string) (x : A) :
  rangeFirst pick ({[ k := x ]} : gmap string A) = Some (k, x).
Proof.
  unfold rangeFirst. rewrite map_size_singleton, map_to_list_singleton.
  by rewrite Nat.mod_1_r.
Qed.

Lemma fieldPresent_mapIndex values field :
  fieldPresent values field →
  ∃ v, mapIndex values field = (v, true) ∧ String.eqb v EmptyString = false.
Proof.
  intros (v & Hv & Hne). exists v. unfold mapIndex. rewrite Hv. split; [done|].
  by apply String.eqb_neq.
Qed.

Lemma fieldMissing_mapIndex values field :
  fieldMissing values field →
  negb (mapIndex values field).2
  || String.eqb (mapIndex values field).1 EmptyString = true.
Proof. intros [H|H]; unfold mapIndex; by rewrite H. Qed.

Lemma fieldMissing_or_present values field :
  fieldMissing values field ∨ fieldPresent values field.
Proof.
  unfold fieldMissing, fieldPresent.
  destruct (values !! field) as [v|]; [|by left; left].
  destruct (decide (v = EmptyString)) as [->|Hne]; [by left; right|].
  right. by exists v.
Qed.

Lemma fieldMissing_not_present values field :
  fieldMissing values field → ¬ fieldPresent values field.
Proof. intros [H|H] (v & Hv & Hne); congruence. Qed.

Lemma Build_ok values :
  Forall (fieldPresent values) requiredFields →
  BuildDockerConfigJSON values = Ok (json_Marshal (builtConfig values)).
Proof.
  intros Hreq. unfold requiredFields in Hreq.
  apply Forall_cons in Hreq as [(s & Hs & Hs')%fieldPresent_mapIndex Hreq].
  apply Forall_cons in Hreq as [(u & Hu & Hu')%fieldPresent_mapIndex Hreq].
  apply Forall_cons in Hreq as [(p & Hp & Hp')%fieldPresent_mapIndex _].
  unfold BuildDockerConfigJSON, builtConfig.
  rewrite Hs, Hu, Hp. cbn [negb orb fst]. by rewrite Hs', Hu', Hp'.
Qed.

Lemma Build_err values :
  Exists (fieldMissing values) requiredFields →
  ∃ field, field ∈ requiredFields ∧ fieldMissing values field ∧
           BuildDockerConfigJSON values = Err (FieldRequired field).
Proof.
  intros Hex. unfold BuildDockerConfigJSON.
  destruct (fieldMissing_or_present values "docker-server") as [Hm|Hs].
  { exists "docker-server". split; [set_solver|]. split; [done|].
    apply fieldMissing_mapIndex in Hm.
    destruct (mapIndex values "docker-server") as [v ok]. cbn [fst snd] in Hm.
    by rewrite Hm. }
  pose proof Hs as (s & Hs1 & Hs2)%fieldPresent_mapIndex.
  rewrite Hs1. cbn [negb orb]. rewrite Hs2.
  destruct (fieldMissing_or_present values "docker-username") as [Hm|Hu].
  { exists "docker-username". split; [set_solver|]. split; [done|].
    apply fieldMissing_mapIndex in Hm.
    destruct (mapIndex values "docker-username") as [v ok]. cbn [fst snd] in Hm.
    by rewrite Hm. }
  pose proof Hu as (u & Hu1 & Hu2)%fieldPresent_mapIndex.
  rewrite Hu1. cbn [negb orb]. rewrite Hu2.
  destruct (fieldMissing_or_present values "docker-password") as [Hm|Hp].
  { exists "docker-password". split; [set_solver|]. split; [done|].
    apply fieldMissing_mapIndex in Hm.
    destruct (mapIndex values "docker-password") as [v ok]. cbn [fst snd] in Hm.
    by rewrite Hm. }
  exfalso. unfold requiredFields in Hex.
  repeat (apply Exists_cons in Hex as [Hex|Hex];
          [by eapply fieldMissing_not_present|]).
  by apply Exists_nil in Hex.
Qed.

Lemma Parse_marshal_single pick server a :
  ParseDockerConfigJSON pick (json_Marshal {| Auths := {[ server := a ]} |}) =
    Ok (dockerEntries (GoJSON.coerceUTF8 server) (coerceAuth a)).
Proof.
  unfold ParseDockerConfigJSON. rewrite unmarshal_marshal_single.
  cbn [Auths]. rewrite map_size_singleton. cbn [Nat.eqb].
  rewrite rangeFirst_singleton. cbn [default id]. unfold dockerEntries.
  by destruct (negb (String.eqb (Email (coerceAuth a)) EmptyString)).
Qed.

Lemma dockerEntries_normalize (X : gmap string string) s u p auth :
  dom X ⊆ dockerKeys →
  X !! "docker-server" = Some s →
  X !! "docker-username" = Some u →
  X !! "docker-password" = Some p →
  dockerEntries s {| Username := u; Password := p;
                     Email := (mapIndex X "docker-email").1; Auth := auth |}
  = normalizeEmail X.
Proof.
  intros Hdom Hs Hu Hp.
  assert (∀ k, k ≠ "docker-server" → k ≠ "docker-username" →
               k ≠ "docker-password" → k ≠ "docker-email" → X !! k = None) as Hother.
  { intros k ????. apply not_elem_of_dom. intros Hk%Hdom.
    unfold dockerKeys in Hk.
    repeat (apply elem_of_union in Hk as [Hk|Hk]);
      apply elem_of_singleton in Hk; congruence. }
  apply map_eq. intros k.
  unfold dockerEntries, normalizeEmail, mapIndex. cbn [Email Username Password].
  destruct (X !! "docker-email") as [e|] eqn:He; cbn [fst].
  - destruct (String.eqb e EmptyString) eqn:Hee; cbn [negb].
    + destruct (decide (k = "docker-email")) as [->|]; [by simplify_map_eq|].
      destruct (decide (k = "docker-password")) as [->|]; [by simplify_map_eq|].
      destruct (decide (k = "docker-username")) as [->|]; [by simplify_map_eq|].
      destruct (decide (k = "docker-server")) as [->|]; [by simplify_map_eq|].
      simplify_map_eq. by rewrite Hother.
    + destruct (decide (k = "docker-email")) as [->|]; [by simplify_map_eq|].
      destruct (decide (k = "docker-password")) as [->|]; [by simplify_map_eq|].
      destruct (decide (k = "docker-username")) as [->|]; [by simplify_map_eq|].
      destruct (decide (k = "docker-server")) as [->|]; [by simplify_map_eq|].
      simplify_map_eq. by rewrite Hother.
  - cbn. 
    destruct (decide (k = "docker-email")) as [->|]; [by simplify_map_eq|].
    destruct (decide (k = "docker-password")) as [->|]; [by simplify_map_eq|].
    destruct (decide (k = "docker-username")) as [->|]; [by simplify_map_eq|].
    destruct (decide (k = "docker-server")) as [->|]; [by simplify_map_eq|].
    simplify_map_eq. by rewrite Hother.
Qed.

(** C4, amended. For every valid docker-registry entry map (the three
    required fields present and not empty, docker-email optional, no other
    key) whose values are valid UTF-8, parsing the wire form built from it
    gives the map back, except that an empty docker-email is absent; this
    holds whatever order the runtime iterates the map in. *)
Theorem docker_roundtrip (X : gmap string string) (pick : nat) :
  validDockerEntries X →
  (∀ k v, X !! k = Some v → GoUtf8.ValidString v = true) →
  ∃ jsonData,
    BuildDockerConfigJSON X = Ok jsonData ∧
    ParseDockerConfigJSON pick jsonData = Ok (normalizeEmail X).
Proof.
  intros [Hdom Hreq] Hvalid.
  exists (json_Marshal (builtConfig X)). split; [by apply Build_ok|].
  unfold builtConfig. rewrite Parse_marshal_single.
  unfold requiredFields in Hreq.
  apply Forall_cons in Hreq as [(s & Hs & _) Hreq].
  apply Forall_cons in Hreq as [(u & Hu & _) Hreq].
  apply Forall_cons in Hreq as [(p & Hp & _) _].
  unfold coerceAuth. cbn [Username Password Email Auth].
  assert (∀ k, GoJSON.coerceUTF8 (mapIndex X k).1 = (mapIndex X k).1) as Hco.
  { intros k. unfold mapIndex. destruct (X !! k) as [v|] eqn:Hk; [|done].
    apply coerceUTF8_valid. by eapply Hvalid. }
  rewrite !Hco. f_equal.
  unfold mapIndex at 1 2 3. rewrite Hs, Hu, Hp. cbn [fst].
  by apply dockerEntries_normalize.
Qed.

Lemma docker_roundtrip_witness :
  ∃ jsonData,
    BuildDockerConfigJSON
      (<["docker-server" := "https://ghcr.io"]>
         (<["docker-username" := "u"]>
            (<["docker-password" := "p"]> (<["docker-email" := ""]> ∅)))) =
      Ok jsonData ∧
    ParseDockerConfigJSON 5 jsonData =
      Ok (normalizeEmail
            (<["docker-server" := "https://ghcr.io"]>
               (<["docker-username" := "u"]>
                  (<["docker-password" := "p"]> (<["docker-email" := ""]> ∅))))).
Proof.
  apply (docker_roundtrip _ 5).
  - split.
    + intros k Hk. apply elem_of_dom in Hk as [v Hv].
      unfold dockerKeys. rewrite !elem_of_union, !elem_of_singleton.
      destruct (decide (k = "docker-server")) as [->|]; [tauto|].
      destruct (decide (k = "docker-username")) as [->|]; [tauto|].
      destruct (decide (k = "docker-password")) as [->|]; [tauto|].
      destruct (decide (k = "docker-email")) as [->|]; [tauto|].
      by simplify_map_eq.
    + repeat constructor; eexists; (split; [by simplify_map_eq|done]).
  - intros k v Hk.
    destruct (decide (k = "docker-server")) as [->|]; [by simplify_map_eq|].
    destruct (decide (k = "docker-username")) as [->|]; [by simplify_map_eq|].
    destruct (decide (k = "docker-password")) as [->|]; [by simplify_map_eq|].
    destruct (decide (k = "docker-email")) as [->|]; [by simplify_map_eq|].
    by simplify_map_eq.
Defined.

(** C4, as stated, fails: a server name that is not valid UTF-8 passes the
    checks of [BuildDockerConfigJSON], is written as the escape of U+FFFD by
    [json.Marshal], and comes back as the three bytes of U+FFFD. *)
Lemma docker_roundtrip_invalid_utf8 :
  validDockerEntries invalidServerEntries ∧
  ∃ jsonData,
    BuildDockerConfigJSON invalidServerEntries = Ok jsonData ∧
    serverOf (ParseDockerConfigJSON 0 jsonData) =
      Some (String "239" (String "191" (String "189" EmptyString))) ∧
    ParseDockerConfigJSON 0 jsonData ≠ Ok (normalizeEmail invalidServerEntries).
Proof.
  split.
  - split.
    + intros k Hk. apply elem_of_dom in Hk as [v Hv].
      unfold dockerKeys. rewrite !elem_of_union, !elem_of_singleton.
      unfold invalidServerEntries in Hv.
      destruct (decide (k = "docker-server")) as [->|]; [tauto|].
      destruct (decide (k = "docker-username")) as [->|]; [tauto|].
      destruct (decide (k = "docker-password")) as [->|]; [tauto|].
      by simplify_map_eq.
    + unfold invalidServerEntries.
      repeat constructor; eexists; (split; [by simplify_map_eq|done]).
  - exists (json_Marshal (builtConfig invalidServerEntries)).
    split; [vm_compute; reflexivity|].
    assert (serverOf (ParseDockerConfigJSON 0
                        (json_Marshal (builtConfig invalidServerEntries))) =
            Some (String "239" (String "191" (String "189" EmptyString)))) as H1
      by (vm_compute; reflexivity).
    split; [exact H1|].
    intros Heq. rewrite Heq in H1. vm_compute in H1. discriminate H1.
Qed.

(** C6. [BuildDockerConfigJSON] fails when any of docker-server,
    docker-username, docker-password is missing or empty, with an error that
    names a field that is missing or empty (the first in that order); it
    succeeds exactly when the three are present and not empty, and then the
    JSON text holds an email field in the entry of the registry if and only
    if docker-email is present and not empty. *)
Theorem build_requires_fields (values : gmap string string) :
  (Exists (fieldMissing values) requiredFields →
   ∃ field,
     field ∈ requiredFields ∧ fieldMissing values field ∧
     BuildDockerConfigJSON values = Err (FieldRequired field) ∧
     DockerError_message (FieldRequired field) =
       field +:+ " is required for docker-registry secrets")
  ∧
  (Forall (fieldPresent values) requiredFields →
   ∃ jsonData server members,
     BuildDockerConfigJSON values = Ok jsonData ∧
     GoJSON.parse jsonData =
       Some (GoJSON.JObject
               [("auths", GoJSON.JObject [(server, GoJSON.JObject members)])]) ∧
     ((∃ v, ("email", v) ∈ members) ↔ fieldPresent values "docker-email"))
  ∧
  (is_ok (BuildDockerConfigJSON values) = true ↔
   Forall (fieldPresent values) requiredFields).
Proof.
  split; [|split].
  - intros Hex. destruct (Build_err values Hex) as (field & Hin & Hm & Hb).
    exists field. by repeat split.
  - intros Hreq. rewrite (Build_ok values Hreq).
    exists (json_Marshal (builtConfig values)).
    unfold builtConfig. rewrite parse_marshal_single.
    eexists _, _. split; [reflexivity|]. split; [reflexivity|].
    cbn [Username Password Email Auth].
    unfold fieldPresent, mapIndex.
    destruct (values !! "docker-email") as [e|] eqn:He; cbn [fst].
    + destruct (String.eqb e EmptyString) eqn:Hee.
      * apply String.eqb_eq in Hee as ->. split.
        -- intros [v Hv]. cbn in Hv.
           repeat (apply elem_of_cons in Hv as [Hv|Hv]; [discriminate Hv|]).
           by apply elem_of_nil in Hv.
        -- intros (v & Hv & Hne). congruence.
      * apply String.eqb_neq in Hee. split.
        -- intros _. by exists e.
        -- intros _. eexists. cbn. do 2 right. left.
    + split.
      * intros [v Hv]. cbn in Hv.
        repeat (apply elem_of_cons in Hv as [Hv|Hv]; [discriminate Hv|]).
        by apply elem_of_nil in Hv.
      * intros (v & Hv & _). discriminate Hv.
  - split.
    + intros Hok. apply Forall_forall. intros field Hin.
      destruct (fieldMissing_or_present values field) as [Hm|]; [|done].
      destruct (Build_err values) as (f & _ & _ & Hb).
      { apply Exists_exists. eauto. }
      by rewrite Hb in Hok.
    + intros Hreq. by rewrite (Build_ok values Hreq).
Qed.

Lemma build_requires_fields_witness :
  (∃ field,
     field ∈ requiredFields ∧
     fieldMissing (<["docker-server" := "https://ghcr.io"]>
                     (<["docker-username" := ""]> ∅)) field ∧
     BuildDockerConfigJSON (<["docker-server" := "https://ghcr.io"]>
                              (<["docker-username" := ""]> ∅)) =
       Err (FieldRequired field) ∧
     DockerError_message (FieldRequired field) =
       field +:+ " is required for docker-registry secrets")
  ∧
  (∃ jsonData server members,
     BuildDockerConfigJSON
       (<["docker-server" := "https://ghcr.io"]>
          (<["docker-username" := "u"]> (<["docker-password" := "p"]> ∅))) =
       Ok jsonData ∧
     GoJSON.parse jsonData =
       Some (GoJSON.JObject
               [("auths", GoJSON.JObject [(server, GoJSON.JObject members)])]) ∧
     ((∃ v, ("email", v) ∈ members) ↔
      fieldPresent (<["docker-server" := "https://ghcr.io"]>
                      (<["docker-username" := "u"]> (<["docker-password" := "p"]> ∅)))
                   "docker-email")).
Proof.
  split.
  - apply (proj1 (build_requires_fields _)).
    apply Exists_cons_tl, Exists_cons_hd. right. by simplify_map_eq.
  - apply (proj1 (proj2 (build_requires_fields _))).
    repeat constructor; eexists; (split; [by simplify_map_eq|done]).
Defined.

(** C9, as stated, fails: with two registries under auths, two runs that
    start the iteration of the map at different places select different
    registries, both from the JSON text and from the wire map that carries
    it under .dockerconfigjson. *)
Lemma parse_two_registries_differs :
  serverOf (ParseDockerConfigJSON 0 twoRegistries) = Some "a.example" ∧
  serverOf (ParseDockerConfigJSON 1 twoRegistries) = Some "b.example" ∧
  ParseDockerConfigJSON 0 twoRegistries ≠ ParseDockerConfigJSON 1 twoRegistries ∧
  FromKubernetesData 0 "kubernetes.io/dockerconfigjson"
    {[ ".dockerconfigjson" := twoRegistries ]}
  ≠ FromKubernetesData 1 "kubernetes.io/dockerconfigjson"
      {[ ".dockerconfigjson" := twoRegistries ]}.
Proof.
  assert (serverOf (ParseDockerConfigJSON 0 twoRegistries) = Some "a.example") as H0
    by (vm_compute; reflexivity).
  assert (serverOf (ParseDockerConfigJSON 1 twoRegistries) = Some "b.example") as H1
    by (vm_compute; reflexivity).
  split; [done|]. split; [done|]. split.
  - intros Heq. rewrite Heq, H1 in H0. discriminate H0.
  - intros Heq. apply (f_equal serverOf) in Heq.
    vm_compute in Heq. discriminate Heq.
Qed.

Lemma Parse_selected pick jsonData config :
  json_Unmarshal jsonData = Some config →
  Auths config ≠ ∅ →
  ∃ server auth,
    rangeFirst pick (Auths config) = Some (server, auth) ∧
    Auths config !! server = Some auth ∧
    ParseDockerConfigJSON pick jsonData = Ok (dockerEntries server auth).
Proof.
  intros Hun Hne. unfold ParseDockerConfigJSON. rewrite Hun.
  assert (size (Auths config) ≠ 0) as Hsize.
  { intros Hs. by apply map_size_empty_iff in Hs. }
  destruct (size (Auths config) =? 0)%nat eqn:Hz;
    [by apply Nat.eqb_eq in Hz|].
  unfold rangeFirst.
  destruct (lookup_lt_is_Some_2 (map_to_list (Auths config))
              (pick mod size (Auths config))) as [[server auth] Hl].
  { rewrite length_map_to_list. by apply Nat.mod_upper_bound. }
  exists server, auth. rewrite Hl. split; [done|]. split.
  - apply elem_of_map_to_list. eapply list_elem_of_lookup_2. done.
  - cbn [default id]. unfold dockerEntries.
    by destruct (negb (String.eqb (Email auth) EmptyString)).
Qed.

(** C9, amended. When the .dockerconfigjson value decodes to a config with
    at least one registry, [ParseDockerConfigJSON] answers with the entries
    of exactly one of the registries under auths; every registry can be the
    one selected, depending on where the runtime starts the iteration of the
    map; the answer is the same on every run when auths holds one registry. *)
Theorem parse_selects_one_registry (jsonData : string) (config : DockerConfig) :
  json_Unmarshal jsonData = Some config →
  Auths config ≠ ∅ →
  (∀ pick, ∃ server auth,
      Auths config !! server = Some auth ∧
      ParseDockerConfigJSON pick jsonData = Ok (dockerEntries server auth))
  ∧
  (∀ server auth,
      Auths config !! server = Some auth →
      ∃ pick, ParseDockerConfigJSON pick jsonData = Ok (dockerEntries server auth))
  ∧
  (size (Auths config) = 1 →
   ∀ pick pick', ParseDockerConfigJSON pick jsonData =
                 ParseDockerConfigJSON pick' jsonData).
Proof.
  intros Hun Hne. split; [|split].
  - intros pick.
    destruct (Parse_selected pick jsonData config Hun Hne)
      as (server & auth & _ & Hl & Hp).
    by exists server, auth.
  - intros server auth Hl.
    apply elem_of_map_to_list in Hl.
    apply list_elem_of_lookup in Hl as [i Hi].
    pose proof (lookup_lt_Some _ _ _ Hi) as Hlt.
    rewrite length_map_to_list in Hlt.
    exists i.
    destruct (Parse_selected i jsonData config Hun Hne)
      as (server' & auth' & Hr & _ & Hp).
    unfold rangeFirst in Hr. rewrite Nat.mod_small in Hr by done.
    rewrite Hi in Hr. by simplify_eq.
  - intros Hone pick pick'.
    destruct (Parse_selected pick jsonData config Hun Hne)
      as (s1 & a1 & Hr1 & _ & ->).
    destruct (Parse_selected pick' jsonData config Hun Hne)
      as (s2 & a2 & Hr2 & _ & ->).
    unfold rangeFirst in *. rewrite Hone, Nat.mod_1_r in *.
    by simplify_eq.
Qed.

Lemma parse_selects_one_registry_witness :
  (∀ pick, ∃ server auth,
      Auths oneRegistryConfig !! server = Some auth ∧
      ParseDockerConfigJSON pick oneRegistry = Ok (dockerEntries server auth))
  ∧
  ∀ pick pick',
    ParseDockerConfigJSON pick oneRegistry = ParseDockerConfigJSON pick' oneRegistry.
Proof.
  pose proof (parse_selects_one_registry oneRegistry oneRegistryConfig eq_refl) as H.
  destruct H as (H1 & _ & H3).
  - cbn [Auths oneRegistryConfig]. apply (insert_non_empty (M := gmap string)).
  - split; [exact H1|]. apply H3. apply map_size_singleton.
Defined.

(** ** The fuel of the recursive definitions is enough *)

Section FuelFacts.

Implicit Types (s r : string) (f g : nat).

Lemma length_skipWS s : String.length (GoJSON.skipWS s) ≤ String.length s.
Proof.
  induction s as [|c s IH]; simpl; [lia|].
  destruct (GoJSON.isWS c); simpl; lia.
Qed.

Lemma length_stripPrefix p s r :
  GoRegexp.stripPrefix p s = Some r → String.length r ≤ String.length s.
Proof.
  unfold GoRegexp.stripPrefix. destruct (String.prefix p s); [|done].
  intros [= <-]. rewrite length_dropBytes. lia.
Qed.

Lemma consResult_Some p o str r :
  GoJSON.consResult p o = Some (str, r) → ∃ str', o = Some (str', r).
Proof. destruct o as [[str' r']|]; [|done]. intros [= <- <-]. by eexists. Qed.

Lemma length_parseHex4 s n r :
  GoJSON.parseHex4 s = Some (n, r) → String.length s = 4 + String.length r.
Proof.
  unfold GoJSON.parseHex4. intros H.
  repeat case_match; simplify_eq. reflexivity.
Qed.

Lemma length_getu4 s n r :
  GoJSON.getu4 s = Some (n, r) → String.length s = 6 + String.length r.
Proof.
  unfold GoJSON.getu4. intros H.
  repeat case_match; simplify_eq.
  apply length_parseHex4 in H. simpl. lia.
Qed.

Lemma DecodeRune_size s (r : N) (size : nat) :
  GoUtf8.DecodeRune s = (r, size) → s ≠ EmptyString →
  1 ≤ size ∧ size ≤ String.length s.
Proof.
  intros Hdec Hne.
  destruct ((r =? GoUtf8.RuneError)%N && (size =? 1)%nat) eqn:Hinv.
  - apply andb_true_iff in Hinv as [_ ->%Nat.eqb_eq].
    destruct s; [done|]. simpl. lia.
  - destruct (DecodeRune_accepts s r size Hne Hdec Hinv) as (? & ? & _). lia.
Qed.

Lemma length_scanString f : ∀ s str r,
  GoJSON.scanString f s = Some (str, r) → String.length r < String.length s.
Proof.
  induction f as [|f IH]; intros s str r H; [done|].
  destruct s as [|c s]; [done|]. cbn [GoJSON.scanString] in H.
  repeat case_match; simplify_eq;
    repeat match goal with
    | H : GoJSON.consResult _ _ = Some _ |- _ =>
      apply consResult_Some in H as [? H]
    | H : GoJSON.scanString f _ = Some _ |- _ => apply IH in H
    | H : GoJSON.parseHex4 _ = Some _ |- _ => apply length_parseHex4 in H
    | H : GoJSON.getu4 _ = Some _ |- _ => apply length_getu4 in H
    | H : GoUtf8.DecodeRune _ = _ |- _ =>
      apply DecodeRune_size in H; [|done]
    end;
    rewrite ?length_dropBytes in *; simpl in *; lia.
Qed.

Lemma scanString_fuel f : ∀ s g,
  String.length s ≤ f → f ≤ g →
  GoJSON.scanString g s = GoJSON.scanString f s.
Proof.
  induction f as [|f IH]; intros s g Hs Hg.
  - destruct s; [|simpl in Hs; lia]. by destruct g.
  - destruct g as [|g]; [lia|].
    destruct s as [|c s]; [done|]. simpl in Hs.
    cbn [GoJSON.scanString].
    repeat case_match; simplify_eq; try done;
      repeat match goal with
      | H : GoJSON.parseHex4 _ = Some _ |- _ => apply length_parseHex4 in H
      | H : GoJSON.getu4 _ = Some _ |- _ => apply length_getu4 in H
      | H : GoUtf8.DecodeRune _ = _ |- _ =>
        apply DecodeRune_size in H; [|done]
      end;
      f_equal; apply IH; rewrite ?length_dropBytes; simpl in *; lia.
Qed.

Lemma length_spanDigits s ds r :
  GoJSON.spanDigits s = (ds, r) →
  String.length s = String.length ds + String.length r.
Proof.
  revert ds r. induction s as [|c s IH]; intros ds r H; simpl in H.
  - by simplify_eq.
  - destruct (GoJSON.isDigit c).
    + destruct (GoJSON.spanDigits s) as [ds' r'] eqn:Hs. simplify_eq.
      simpl. rewrite (IH ds' r); [lia|done].
    + by simplify_eq.
Qed.

Lemma length_scanNumber s lit r :
  GoJSON.scanNumber s = Some (lit, r) → String.length r < String.length s.
Proof.
  unfold GoJSON.scanNumber. intros H.
  repeat case_match; simplify_eq;
    repeat match goal with
    | H : GoJSON.spanDigits _ = _ |- _ => apply length_spanDigits in H
    end; simpl in *; lia.
Qed.

(** Every parser consumes at least one byte. *)
Lemma parse_shorter f :
  (∀ d s v r, GoJSON.parseValue f d s = Some (v, r) →
              String.length r < String.length s) ∧
  (∀ d s ms r, GoJSON.parseMembers f d s = Some (ms, r) →
               String.length r < String.length s) ∧
  (∀ d s vs r, GoJSON.parseElements f d s = Some (vs, r) →
               String.length r < String.length s).
Proof.
  induction f as [|f (IHv & IHm & IHe)]; [done|].
  split; [|split]; intros d s x r H.
  - cbn [GoJSON.parseValue] in H.
    repeat case_match; simplify_eq;
      repeat match goal with
      | H : GoJSON.parseMembers _ _ _ = Some _ |- _ => apply IHm in H
      | H : GoJSON.parseElements _ _ _ = Some _ |- _ => apply IHe in H
      | H : GoJSON.scanString _ _ = Some _ |- _ => apply length_scanString in H
      | H : GoJSON.scanNumber _ = Some _ |- _ => apply length_scanNumber in H
      | H : GoRegexp.stripPrefix _ _ = Some _ |- _ => apply length_stripPrefix in H
      end;
      pose proof (length_skipWS s);
      repeat match goal with
      | H : GoJSON.skipWS _ = _ |- _ =>
        apply (f_equal String.length) in H
      end; simpl in *; try lia.
    all: match goal with
         | H : String.length (GoJSON.skipWS ?x) = _ |- _ =>
           pose proof (length_skipWS x); lia
         end.
  - cbn [GoJSON.parseMembers] in H.
    repeat case_match; simplify_eq;
      repeat match goal with
      | H : GoJSON.parseValue _ _ _ = Some _ |- _ => apply IHv in H
      | H : GoJSON.parseMembers _ _ _ = Some _ |- _ => apply IHm in H
      | H : GoJSON.scanString _ _ = Some _ |- _ => apply length_scanString in H
      end;
      repeat match goal with
      | H : GoJSON.skipWS ?x = _ |- _ =>
        pose proof (length_skipWS x);
        apply (f_equal String.length) in H
      end; simpl in *; lia.
  - cbn [GoJSON.parseElements] in H.
    repeat case_match; simplify_eq;
      repeat match goal with
      | H : GoJSON.parseValue _ _ _ = Some _ |- _ => apply IHv in H
      | H : GoJSON.parseElements _ _ _ = Some _ |- _ => apply IHe in H
      end;
      repeat match goal with
      | H : GoJSON.skipWS ?x = _ |- _ =>
        pose proof (length_skipWS x);
        apply (f_equal String.length) in H
      end; simpl in *; lia.
Qed.

Ltac len_facts :=
  repeat match goal with
  | H : GoJSON.parseValue _ _ _ = Some _ |- _ =>
    apply (proj1 (parse_shorter _)) in H
  | H : GoJSON.parseMembers _ _ _ = Some _ |- _ =>
    apply (proj1 (proj2 (parse_shorter _))) in H
  | H : GoJSON.parseElements _ _ _ = Some _ |- _ =>
    apply (proj2 (proj2 (parse_shorter _))) in H
  | H : GoJSON.scanString _ _ = Some _ |- _ => apply length_scanString in H
  | H : GoJSON.skipWS ?x = _ |- _ =>
    pose proof (length_skipWS x); apply (f_equal String.length) in H
  end; simpl in *.

(** The fuel that [parse] provides is enough: beyond it the result of the
    parsers does not change. *)
Lemma parse_fuel f :
  (∀ d s g, 2 * String.length s + 1 ≤ f → f ≤ g →
            GoJSON.parseValue g d s = GoJSON.parseValue f d s) ∧
  (∀ d s g, 2 * String.length s + 1 ≤ f → f ≤ g →
            GoJSON.parseMembers g d s = GoJSON.parseMembers f d s) ∧
  (∀ d s g, 2 * String.length s + 2 ≤ f → f ≤ g →
            GoJSON.parseElements g d s = GoJSON.parseElements f d s).
Proof.
  induction f as [|f (IHv & IHm & IHe)]; [repeat split; intros; lia|].
  split; [|split]; intros d s [|g] Hs Hg; try lia.
  - cbn [GoJSON.parseValue].
    repeat first
      [ done
      | rewrite (IHv _ _ g) by (len_facts; lia)
      | rewrite (IHm _ _ g) by (len_facts; lia)
      | rewrite (IHe _ _ g) by (len_facts; lia)
      | case_match ].
  - cbn [GoJSON.parseMembers].
    repeat first
      [ done
      | rewrite (IHv _ _ g) by (len_facts; lia)
      | rewrite (IHm _ _ g) by (len_facts; lia)
      | case_match ].
  - cbn [GoJSON.parseElements].
    repeat first
      [ done
      | rewrite (IHv _ _ g) by (len_facts; lia)
      | rewrite (IHe _ _ g) by (len_facts; lia)
      | case_match ].
Qed.

Lemma parse_fuel_enough s g :
  2 * String.length s + 2 ≤ g →
  GoJSON.parseValue g 0 s = GoJSON.parseValue (2 * String.length s + 2) 0 s.
Proof. intros Hg. apply (proj1 (parse_fuel _)); lia. Qed.

Lemma trimWith_fuel (width : string → nat) :
  width EmptyString = 0 →
  ∀ f g s, String.length s ≤ f → String.length s ≤ g →
           GoStrings.trimWith width f s = GoStrings.trimWith width g s.
Proof.
  intros Hw. induction f as [|f IH]; intros g s Hf Hg.
  - destruct s; [|simpl in Hf; lia]. destruct g; [done|]. simpl. by rewrite Hw.
  - destruct g as [|g].
    + destruct s; [|simpl in Hg; lia]. simpl. by rewrite Hw.
    + simpl. destruct (width s) as [|n] eqn:Hn; [done|].
      destruct s as [|c s]; [congruence|].
      apply IH; rewrite length_dropBytes; simpl in *; lia.
Qed.

Lemma appendStringBody_fuel : ∀ f g s,
  String.length s ≤ f → String.length s ≤ g →
  GoJSON.appendStringBody f s = GoJSON.appendStringBody g s.
Proof.
  induction f as [|f IH]; intros g s Hf Hg.
  - destruct s; [|simpl in Hf; lia]. by destruct g.
  - destruct g as [|g]; [destruct s; [done|simpl in Hg; lia]|].
    destruct s as [|c s]; [done|]. cbn [GoJSON.appendStringBody].
    simpl in Hf, Hg.
    repeat case_match; try done;
      repeat match goal with
      | H : GoUtf8.DecodeRune _ = _ |- _ =>
        apply DecodeRune_size in H; [|done]
      end;
      by rewrite (IH g) by (rewrite ?length_dropBytes; simpl in *; lia).
Qed.

Lemma coerceWith_fuel : ∀ f g s,
  String.length s ≤ f → String.length s ≤ g →
  GoJSON.coerceWith f s = GoJSON.coerceWith g s.
Proof.
  induction f as [|f IH]; intros g s Hf Hg.
  - destruct s; [|simpl in Hf; lia]. by destruct g.
  - destruct g as [|g]; [destruct s; [done|simpl in Hg; lia]|].
    destruct s as [|c s]; [done|]. cbn [GoJSON.coerceWith].
    simpl in Hf, Hg.
    destruct (GoUtf8.DecodeRune (String c s)) as [r size] eqn:Hd.
    apply DecodeRune_size in Hd; [|done].
    f_equal. apply IH; rewrite length_dropBytes; simpl in *; lia.
Qed.

Lemma validWith_fuel : ∀ f g s,
  String.length s ≤ f → String.length s ≤ g →
  GoUtf8.validWith f s = GoUtf8.validWith g s.
Proof.
  induction f as [|f IH]; intros g s Hf Hg.
  - destruct s; [|simpl in Hf; lia]. by destruct g.
  - destruct g as [|g]; [destruct s; [done|simpl in Hg; lia]|].
    destruct s as [|c s]; [done|]. cbn [GoUtf8.validWith].
    simpl in Hf, Hg.
    destruct (GoUtf8.DecodeRune (String c s)) as [r size] eqn:Hd.
    apply DecodeRune_size in Hd; [|done].
    destruct ((r =? GoUtf8.RuneError)%N && (size =? 1)%nat); [done|].
    apply IH; rewrite length_dropBytes; simpl in *; lia.
Qed.

End FuelFacts.

(** ** Synchronization driver *)

Section DriverFacts.

Context {Cluster : Type}.
Variable getClient : Cluster → option string.
Variable apiGet : Cluster → string → string → result string K8sSecret.
Variable apiCreate :
  Cluster → string → string → string → gmap string string → Cluster * option string.
Variable apiUpdate :
  Cluster → string → string → string → gmap string string → Cluster * option string.
Variable LoadSecretsFromPath : string → result string (list Secret).
Variable rangePick : nat → nat.
Variable handleDownload : string → @World Cluster → option string * @World Cluster.
Variable handleManifest : string → @World Cluster → option string * @World Cluster.

Local Abbreviation World := (@World Cluster).
Local Abbreviation secretRead := (secretRead getClient apiGet).
Local Abbreviation secretWrite := (secretWrite getClient apiGet apiCreate apiUpdate).
Local Abbreviation FromRemoteSecret := (FromRemoteSecret getClient apiGet).
Local Abbreviation diffOne := (diffOne getClient apiGet).
Local Abbreviation uploadOne := (uploadOne getClient apiGet apiCreate apiUpdate).
Local Abbreviation upload := (upload getClient apiGet apiCreate apiUpdate LoadSecretsFromPath rangePick).
Local Abbreviation main :=
  (main getClient apiGet apiCreate apiUpdate LoadSecretsFromPath rangePick
        handleDownload handleManifest).

Implicit Types (w : World) (t : Totals) (secret : Secret).

Lemma newCalls_app w w' l : calls w' = calls w ++ l → newCalls w w' = l.
Proof. intros H. unfold newCalls. by rewrite H, drop_app_length. Qed.

Lemma newOutput_app w w' l : stdout w' = stdout w ++ l → newOutput w w' = l.
Proof. intros H. unfold newOutput. by rewrite H, drop_app_length. Qed.

Lemma secretRead_calls namespace name w r w1 :
  secretRead namespace name w = (r, w1) →
  cluster w1 = cluster w ∧ stdout w1 = stdout w ∧
  ∃ l, calls w1 = calls w ++ l ∧ filter (λ c, isWrite c = true) l = [].
Proof.
  unfold secretRead. intros H.
  destruct (getClient (cluster w)).
  { simplify_eq. repeat split; try done. exists []. by rewrite app_nil_r. }
  destruct (apiGet _ _ _); simplify_eq; (repeat split; try done);
    by exists [CallGet namespace name].
Qed.

Lemma FromRemoteSecret_calls pick namespace name ty w r w1 :
  FromRemoteSecret pick namespace name ty w = (r, w1) →
  cluster w1 = cluster w ∧ stdout w1 = stdout w ∧
  ∃ l, calls w1 = calls w ++ l ∧ filter (λ c, isWrite c = true) l = [].
Proof.
  unfold FromRemoteSecret. intros H.
  destruct (secretRead namespace name w) as [[d|e] w0] eqn:Hr.
  - destruct (FromKubernetesData pick ty d); simplify_eq;
      by eapply secretRead_calls.
  - simplify_eq. by eapply secretRead_calls.
Qed.

Lemma diffOne_calls verbose pick secret onsite w n w1 :
  diffOne verbose pick secret onsite w = (n, w1) →
  cluster w1 = cluster w ∧
  ∃ l, calls w1 = calls w ++ l ∧ filter (λ c, isWrite c = true) l = [].
Proof.
  unfold diffOne. intros H.
  destruct (FromRemoteSecret pick (Namespace secret) (Name secret) (Type_ secret) w)
    as [[remote|e] w0] eqn:Hr;
    destruct (FromRemoteSecret_calls _ _ _ _ _ _ _ Hr) as (Hc & _ & l & Hl & Hf).
  - destruct (compareSecretsRemote _ _ _ _) as [d out]. simplify_eq.
    split; [done|]. by exists l.
  - simplify_eq. split; [done|]. by exists l.
Qed.

Lemma secretWrite_calls namespace name ty data w err w' :
  secretWrite namespace name ty data w = (err, w') →
  match getClient (cluster w) with
  | Some e => err = Some e ∧ w' = w
  | None =>
    ∃ c, calls w' = calls w ++ [CallGet namespace name; c] ∧
         (c = CallCreate namespace name ty data ∨ c = CallUpdate namespace name ty data)
  end.
Proof.
  unfold secretWrite. intros H.
  destruct (getClient (cluster w)); [by simplify_eq|].
  cbn [cluster call] in H.
  destruct (apiGet (cluster w) namespace name).
  - destruct (apiUpdate _ _ _ _ _) as [c [e'|]]; simplify_eq;
      (eexists; split; [|by right]); cbn; by rewrite <- app_assoc.
  - destruct (apiCreate _ _ _ _ _) as [c [e'|]]; simplify_eq;
      (eexists; split; [|by left]); cbn; by rewrite <- app_assoc.
Qed.

Lemma errors_addDifferences n t : errors (addDifferences n t) = errors t.
Proof. unfold addDifferences. by destruct (0 <? n)%nat. Qed.

(** C1, amended. For every loaded secret the driver sends a write to the
    store exactly when the commit flag is set and either the force flag is
    set or the comparison found a difference, provided the conversion to
    wire form succeeds and the client is obtained: it is one Create or one
    Update of the secret with the converted entries, after a Get.  Without
    the commit flag it only reports, also when the force flag is set.  The
    comparison itself never writes. *)
Theorem upload_write_policy (force doit verbose : bool) (pick : nat)
    (t t' : Totals) (w w1 w' : World) (secret : Secret) (differences : nat) :
  diffOne verbose pick secret (Data secret) w = (differences, w1) →
  uploadOne force doit verbose pick (t, w) secret = (t', w') →
  filter (λ c, isWrite c = true) (newCalls w w1) = [] ∧
  (doit && (force || (0 <? differences)%nat) = false →
   w' = w1 ∧ t' = addDifferences differences t) ∧
  (doit && (force || (0 <? differences)%nat) = true →
   match ToKubernetesData secret with
   | Err e =>
     newCalls w1 w' = [] ∧
     errors t' = errors t ++ [secretNameOf secret +:+ ": " +:+ e]
   | Ok k8sData =>
     match getClient (cluster w1) with
     | Some e =>
       newCalls w1 w' = [] ∧
       errors t' = errors t ++ [secretNameOf secret +:+ ": " +:+ e]
     | None =>
       ∃ c, newCalls w1 w' = [CallGet (Namespace secret) (Name secret); c] ∧
            (c = CallCreate (Namespace secret) (Name secret) (Type_ secret) k8sData ∨
             c = CallUpdate (Namespace secret) (Name secret) (Type_ secret) k8sData)
     end
   end).
Proof.
  intros Hd Hu.
  unfold uploadOne in Hu. cbn [FromOnsiteSecret] in Hu. rewrite Hd in Hu.
  destruct (diffOne_calls _ _ _ _ _ _ _ Hd) as (Hc & l & Hl & Hf).
  split; [by rewrite (newCalls_app _ _ _ Hl)|]. split.
  - intros Hno.
    destruct doit, force, (0 <? differences)%nat;
      cbn [andb orb] in Hno, Hu; try discriminate Hno; by simplify_eq.
  - intros Hyes. apply andb_true_iff in Hyes as [-> Hyes].
    rewrite andb_true_r, Hyes in Hu.
    destruct (ToKubernetesData secret) as [data|e].
    + destruct (secretWrite _ _ _ _ _) as [err w3] eqn:Hw.
      apply secretWrite_calls in Hw. cbn [cluster print] in Hw.
      destruct (getClient (cluster w1)) as [e|].
      * destruct Hw as [-> ->]. simplify_eq. split.
        -- by apply newCalls_app; cbn; rewrite app_nil_r.
        -- cbn [errors addError]. by rewrite errors_addDifferences.
      * destruct Hw as (c & Hcalls & Hc').
        exists c. cbn [calls print] in Hcalls.
        assert (calls w' = calls w1 ++ [CallGet (Namespace secret) (Name secret); c])
          as Hw' by (destruct err; by simplify_eq).
        by rewrite (newCalls_app _ _ _ Hw').
    + simplify_eq. split.
      * by apply newCalls_app; cbn; rewrite app_nil_r.
      * cbn [errors addError]. by rewrite errors_addDifferences.
Qed.

(** C2, amended. When the read of the remote secret fails, the comparison
    counts one difference for the secret as a whole, whatever the number of
    its keys: it prints that the secret is missing, with no line per key,
    and the driver adds one to the secrets changed and one to the keys
    changed. *)
Theorem missing_remote_counts_one (force doit verbose : bool) (pick : nat)
    (t : Totals) (w w1 : World) (secret : Secret) (e : string) :
  secretRead (Namespace secret) (Name secret) w = (Err e, w1) →
  diffOne verbose pick secret (Data secret) w =
    (1, print (PrintMissing (secretNameOf secret)) w1) ∧
  newOutput w (diffOne verbose pick secret (Data secret) w).2 =
    [PrintMissing (secretNameOf secret)] ∧
  let t' := (uploadOne force doit verbose pick (t, w) secret).1 in
  secretsChanged t' = S (secretsChanged t) ∧
  keysChanged t' = keysChanged t + 1.
Proof.
  intros Hr.
  assert (diffOne verbose pick secret (Data secret) w =
    (1, print (PrintMissing (secretNameOf secret)) w1)) as Hd.
  { unfold diffOne, FromRemoteSecret. by rewrite Hr. }
  split; [done|]. split.
  - rewrite Hd. cbn [snd]. apply newOutput_app. cbn [stdout print].
    by destruct (secretRead_calls _ _ _ _ _ Hr) as (_ & -> & _).
  - unfold uploadOne. cbn [FromOnsiteSecret]. rewrite Hd.
    cbn [Nat.ltb Nat.leb addDifferences].
    repeat match goal with
    | |- context [if ?b then _ else _] => destruct b
    | |- context [match ?x with _ => _ end] => destruct x
    end; cbn; done.
Qed.

Lemma exitWith_code label (r : option string * World) :
  (exitWith label r).1 = if r.1 is Some _ then 1 else 0.
Proof. by destruct r as [[e|] w]. Qed.

Lemma upload_error path force doit verbose w :
  (upload path force doit verbose w).1 =
    match LoadSecretsFromPath path with
    | Err e => Some ("failed to load secrets: " +:+ e)
    | Ok _ => None
    end.
Proof.
  unfold upload. destruct (LoadSecretsFromPath path) as [secrets|e]; [|done].
  destruct (length secrets =? 0)%nat; [done|].
  by destruct (uploadLoop _ _ _ _ _ _ _ _ _ _ _).
Qed.

(** C3, amended. The exit code is 0 or 1.  It is 1 when the command is
    missing or invalid, and otherwise exactly when the handler returns an
    error: for upload, and for diff against the remote, exactly when loading
    the secrets fails; for diff of two paths exactly when one of the two
    loads fails.  The errors recorded for single secrets during an upload
    batch do not change the exit code. *)
Theorem exit_code (args : list string) (verbose force doit : bool) (w : World) :
  let code := (main args verbose force doit w).1 in
  (code = 0 ∨ code = 1) ∧
  (args = [] → code = 1) ∧
  (∀ command paths,
      args = command :: paths →
      let path1 := default "secrets" (paths !! 0) in
      let path2 := default EmptyString (paths !! 1) in
      (command ∉ ["upload"; "download"; "diff"; "manifest"] → code = 1) ∧
      (command = "upload" →
       (code = 1 ↔ is_ok (LoadSecretsFromPath path1) = false)) ∧
      (command = "diff" → path2 = EmptyString →
       (code = 1 ↔ is_ok (LoadSecretsFromPath path1) = false)) ∧
      (command = "diff" → path2 ≠ EmptyString →
       (code = 1 ↔ is_ok (LoadSecretsFromPath path1) = false ∨
                   is_ok (LoadSecretsFromPath path2) = false)) ∧
      (command = "download" →
       (code = 1 ↔ is_Some (handleDownload path1 w).1)) ∧
      (command = "manifest" →
       (code = 1 ↔ is_Some (handleManifest path1 w).1))).
Proof.
  intros code. subst code. split; [|split].
  - unfold main. destruct args as [|command paths]; [by right|].
    repeat match goal with
    | |- context [if ?b then _ else _] => destruct b
    end; cbn [fst]; rewrite ?exitWith_code; try (by right);
    match goal with |- context [if ?x then _ else _] => destruct x end; auto.
  - by intros ->.
  - intros command paths -> path1 path2. cbn [main].
    fold path1. fold path2.
    split; [|split; [|split; [|split; [|split]]]].
    + intros Hnot.
      assert (String.eqb command "upload" = false) as ->
        by (apply String.eqb_neq; intros ->; apply Hnot; set_solver).
      assert (String.eqb command "download" = false) as ->
        by (apply String.eqb_neq; intros ->; apply Hnot; set_solver).
      assert (String.eqb command "diff" = false) as ->
        by (apply String.eqb_neq; intros ->; apply Hnot; set_solver).
      assert (String.eqb command "manifest" = false) as ->
        by (apply String.eqb_neq; intros ->; apply Hnot; set_solver).
      done.
    + intros ->. cbn. rewrite exitWith_code. unfold handleUpload.
      rewrite upload_error.
      destruct (LoadSecretsFromPath path1); cbn; split; (done || lia).
    + intros -> Hp. cbn. rewrite exitWith_code. unfold handleDiff.
      rewrite Hp. cbn. rewrite upload_error.
      destruct (LoadSecretsFromPath path1); cbn; split; (done || lia).
    + intros -> Hp. cbn. rewrite exitWith_code. unfold handleDiff.
      apply String.eqb_neq in Hp. rewrite Hp. unfold diffLocalVsLocal.
      destruct (LoadSecretsFromPath path1) as [s1|e1]; cbn [is_ok fst].
      * destruct (LoadSecretsFromPath path2) as [s2|e2]; cbn [is_ok fst].
        -- assert (∀ r : option string * World, r.1 = None → (if r.1 is Some _ then 1 else 0) = 0)
             as Hz by (by intros [[?|] ?]).
           match goal with |- (match ?r.1 with Some _ => _ | None => _ end) = 1 ↔ _ =>
             assert (r.1 = None) as Hn end.
           { destruct s1 as [|? [|? ?]], s2 as [|? [|? ?]];
               repeat match goal with
               | |- context [let '(_, _) := ?x in _] => destruct x
               end; done. }
           rewrite Hn. split; [lia|]. intros [?|?]; done.
        -- split; [by right|done].
      * split; [by left|done].
    + intros ->. cbn. rewrite exitWith_code.
      destruct (handleDownload path1 w).1 as [e|].
      * split; [by eexists|done].
      * split; [lia|]. intros [? ?]; done.
    + intros ->. cbn. rewrite exitWith_code.
      destruct (handleManifest path1 w).1 as [e|].
      * split; [by eexists|done].
      * split; [lia|]. intros [? ?]; done.
Qed.

End DriverFacts.

(** ** The examples on the store in memory *)

(** C1, as stated, fails: with the force flag set and the commit flag not
    set, nothing is written; the only request is the Get of the
    comparison. *)
Lemma forced_dry_run_writes_nothing :
  let r := memMain [oneKeySecret] ["upload"] false true false emptyWorld in
  r.1 = 0 ∧
  calls r.2 = [CallGet "test" "dotenv"] ∧
  filter (λ c, isWrite c = true) (calls r.2) = [] ∧
  cluster r.2 = ∅.
Proof. vm_compute. repeat split; reflexivity. Qed.

Lemma upload_write_policy_witness :
  ∃ c,
    newCalls
      (print (PrintMissing "test/dotenv") (call (CallGet "test" "dotenv") emptyWorld))
      (uploadOne (λ _, None) memGet memCreate memUpdate true true false 0
         ({| secretsChanged := 0; keysChanged := 0; errors := [] |}, emptyWorld)
         oneKeySecret).2
    = [CallGet "test" "dotenv"; c] ∧
    (c = CallCreate "test" "dotenv" "Opaque" (Data oneKeySecret) ∨
     c = CallUpdate "test" "dotenv" "Opaque" (Data oneKeySecret)).
Proof.
  exact (proj2 (proj2 (upload_write_policy (λ _, None) memGet memCreate memUpdate
           true true false 0
           {| secretsChanged := 0; keysChanged := 0; errors := [] |}
           _ emptyWorld _ _ oneKeySecret 1 eq_refl eq_refl)) eq_refl).
Defined.

(** C2, as stated, fails: a secret with two keys that is absent from the
    store counts as one changed key, not two. *)
Lemma missing_remote_two_keys :
  size (Data twoKeySecret) = 2 ∧
  stdout (memMain [twoKeySecret] ["upload"] false false false emptyWorld).2 =
    [PrintMissing "test/dotenv"; PrintBlank; PrintSecretsChanged 1;
     PrintKeysChanged 1].
Proof. split; vm_compute; reflexivity. Qed.

Lemma missing_remote_counts_one_witness :
  diffOne (λ _, None) memGet false 0 twoKeySecret (Data twoKeySecret) emptyWorld =
    (1, print (PrintMissing (secretNameOf twoKeySecret))
          (call (CallGet "test" "dotenv") emptyWorld)) ∧
  newOutput emptyWorld
    (diffOne (λ _, None) memGet false 0 twoKeySecret (Data twoKeySecret) emptyWorld).2 =
    [PrintMissing (secretNameOf twoKeySecret)] ∧
  let t' := (uploadOne (λ _, None) memGet memCreate memUpdate false false false 0
               ({| secretsChanged := 0; keysChanged := 0; errors := [] |}, emptyWorld)
               twoKeySecret).1 in
  secretsChanged t' = 1 ∧ keysChanged t' = 0 + 1.
Proof.
  exact (missing_remote_counts_one (λ _, None) memGet memCreate memUpdate
           false false false 0
           {| secretsChanged := 0; keysChanged := 0; errors := [] |}
           emptyWorld _ twoKeySecret "error reading secret: secrets not found" eq_refl).
Defined.

(** C3, as stated, fails: an upload batch whose one secret cannot be
    converted records the error and reports it, and the process still exits
    with code 0. *)
Lemma upload_errors_exit_zero :
  let r := memMain [brokenDockerSecret] ["upload"] false false true emptyWorld in
  r.1 = 0 ∧
  stdout r.2 =
    [PrintMissing "test/registry"; PrintUploading "test/registry";
     PrintConversionFailed "test/registry"
       "failed to build docker config: docker-username is required for docker-registry secrets";
     PrintBlank; PrintSecretsChanged 1; PrintKeysChanged 1; PrintCompleted 1].
Proof. vm_compute. split; reflexivity. Qed.

Lemma exit_code_witness :
  (memMain [brokenDockerSecret] ["upload"] false false true emptyWorld).1 = 1 ↔
  is_ok (Ok [brokenDockerSecret] : result string (list Secret)) = false.
Proof.
  exact (proj1 (proj2 (proj2 (proj2
           (exit_code (λ _, None) memGet memCreate memUpdate
              (λ _, Ok [brokenDockerSecret]) (λ _, 0)
              (λ _ w, (None, w)) (λ _ w, (None, w))
              ["upload"] false false true emptyWorld))
           "upload" [] eq_refl)) eq_refl).
Defined.
(** * Properties of the rest of the code *)

(** ** handle_diff.go: the two comparisons *)

Section ComparisonFacts.

Implicit Types (a b : gmap string string) (key : string).

Lemma keyDiffers_false a b key :
  keyDiffers a b key = false ↔ ∃ v, a !! key = Some v ∧ b !! key = Some v.
Proof.
  unfold keyDiffers. destruct (a !! key) as [x|], (b !! key) as [y|]; simpl.
  - rewrite negb_false_iff, String.eqb_eq. split.
    + intros ->. by exists y.
    + intros (v & ? & ?). congruence.
  - split; [done|]. intros (v & ? & ?). congruence.
  - split; [done|]. intros (v & ? & ?). congruence.
  - split; [done|]. intros (v & ? & ?). congruence.
Qed.

Lemma keyDiffers_sym a b key : keyDiffers a b key = keyDiffers b a key.
Proof.
  unfold keyDiffers. destruct (a !! key) as [x|], (b !! key) as [y|]; simpl; try done.
  f_equal. apply String.eqb_sym.
Qed.

Lemma allKeys_sym a b : allKeys a b = allKeys b a.
Proof.
  unfold allKeys. apply sortStrings_order_irrelevant.
  by rewrite (comm_L (∪) (dom a) (dom b)).
Qed.

Lemma length_filter_zero {A} (P : A → Prop) `{!∀ x, Decision (P x)} (l : list A) :
  length (filter P l) = 0 ↔ Forall (λ x, ¬ P x) l.
Proof.
  induction l as [|x l IH]; [by split; [constructor|]|].
  rewrite filter_cons. destruct (decide (P x)); simpl.
  - split; [lia|]. intros [? ?]%Forall_cons. done.
  - rewrite IH. split; [by constructor|]. by intros [? ?]%Forall_cons.
Qed.

Lemma no_differing_iff a b :
  length (filter (λ k, keyDiffers a b k = true) (allKeys a b)) = 0 ↔ a = b.
Proof.
  rewrite length_filter_zero, Forall_forall. split.
  - intros Hall. apply map_eq. intros k.
    destruct (decide (k ∈ allKeys a b)) as [Hin|Hout].
    + specialize (Hall k Hin). apply not_true_is_false in Hall.
      apply keyDiffers_false in Hall as (v & -> & ->). done.
    + rewrite elem_of_allKeys, elem_of_union, !elem_of_dom in Hout.
      destruct (a !! k) eqn:Ha; [exfalso; apply Hout; left; by eexists|].
      destruct (b !! k) eqn:Hb; [exfalso; apply Hout; right; by eexists|].
      done.
  - intros <- k Hin.
    rewrite elem_of_allKeys, elem_of_union, !elem_of_dom in Hin.
    assert (is_Some (a !! k)) as [v Hv] by (by destruct Hin).
    apply not_true_iff_false, keyDiffers_false. by exists v.
Qed.

Lemma compareSecretsLocal_count ns1 ns2 a b verbose :
  (compareSecretsLocal ns1 ns2 a b verbose).1 =
    length (filter (λ k, keyDiffers a b k = true) (allKeys a b)).
Proof.
  unfold compareSecretsLocal.
  by rewrite (foldl_blocks _ _ _ (compareKeyLocal_block ns1 ns2 a b verbose)).
Qed.

Lemma compareSecretsRemote_count secretName a b verbose :
  (compareSecretsRemote secretName a b verbose).1 =
    length (filter (λ k, keyDiffers a b k = true) (allKeys a b)).
Proof.
  unfold compareSecretsRemote.
  by rewrite (foldl_blocks _ _ _ (compareKeyRemote_block secretName a b verbose)).
Qed.

Lemma compareSecretsLocal_lines ns1 ns2 a b verbose :
  (compareSecretsLocal ns1 ns2 a b verbose).2 =
    flat_map (localBlock ns1 ns2 a b verbose) (allKeys a b).
Proof.
  unfold compareSecretsLocal.
  by rewrite (foldl_blocks _ _ _ (compareKeyLocal_block ns1 ns2 a b verbose)).
Qed.


End ComparisonFacts.

(** X1. Both comparisons count zero differences exactly when the two entry
    maps are equal, that is, hold the same keys with the same values; the
    verbose flag plays no part. *)
Theorem no_differences_iff_equal (ns1 ns2 secretName : string)
    (a b : gmap string string) (verbose : bool) :
  ((compareSecretsLocal ns1 ns2 a b verbose).1 = 0 ↔ a = b) ∧
  ((compareSecretsRemote secretName a b verbose).1 = 0 ↔ a = b).
Proof.
  rewrite compareSecretsLocal_count, compareSecretsRemote_count.
  split; apply no_differing_iff.
Qed.

(** X2. The number of differences is the same whichever of the two maps comes
    first and whatever the verbose flag, the comparison with the remote counts
    what the local comparison counts, and the count is at most the number of
    keys in the union of the two maps. *)
Theorem differences_symmetric (ns1 ns2 secretName : string)
    (a b : gmap string string) (verbose verbose' : bool) :
  (compareSecretsLocal ns1 ns2 a b verbose).1 =
    (compareSecretsLocal ns2 ns1 b a verbose').1 ∧
  (compareSecretsRemote secretName a b verbose).1 =
    (compareSecretsLocal ns1 ns2 a b verbose').1 ∧
  (compareSecretsLocal ns1 ns2 a b verbose).1 ≤ size (dom a ∪ dom b).
Proof.
  rewrite !compareSecretsLocal_count, compareSecretsRemote_count.
  split; [|split; [done|]].
  - rewrite (allKeys_sym b a). f_equal. apply list_filter_iff.
    intros k. by rewrite keyDiffers_sym.
  - etrans; [apply length_filter|].
    unfold allKeys. rewrite sortStrings_Permutation.
    done.
Qed.

Section TruncationFacts.




End TruncationFacts.


(** ** The runs of upload and diff *)

Section BatchFacts.

Context {Cluster : Type}.
Variable getClient : Cluster → option string.
Variable apiGet : Cluster → string → string → result string K8sSecret.
Variable apiCreate :
  Cluster → string → string → string → gmap string string → Cluster * option string.
Variable apiUpdate :
  Cluster → string → string → string → gmap string string → Cluster * option string.
Variable LoadSecretsFromPath : string → result string (list Secret).
Variable rangePick : nat → nat.

Local Abbreviation World := (@World Cluster).
Local Abbreviation diffOne := (diffOne getClient apiGet).
Local Abbreviation uploadOne := (uploadOne getClient apiGet apiCreate apiUpdate).
Local Abbreviation uploadLoop := (uploadLoop getClient apiGet apiCreate apiUpdate rangePick).
Local Abbreviation upload :=
  (upload getClient apiGet apiCreate apiUpdate LoadSecretsFromPath rangePick).
Local Abbreviation handleDiff :=
  (handleDiff getClient apiGet apiCreate apiUpdate LoadSecretsFromPath rangePick).
Local Abbreviation diffLocalVsLocal := (@diffLocalVsLocal Cluster LoadSecretsFromPath).

Implicit Types (w : World) (t : Totals) (secret : Secret).

(** What one turn of the loop does to the totals. *)
Lemma uploadOne_totals force doit verbose pick t w secret :
  let t' := (uploadOne force doit verbose pick (t, w) secret).1 in
  ∃ ds dk de,
    secretsChanged t' = secretsChanged t + ds ∧
    keysChanged t' = keysChanged t + dk ∧
    length (errors t') = length (errors t) + de ∧
    ds ≤ 1 ∧ ds ≤ dk ∧ (ds = 0 → dk = 0) ∧ de ≤ 1.
Proof.
  unfold uploadOne. cbn [FromOnsiteSecret].
  destruct (diffOne verbose pick secret (Data secret) w) as [d w1].
  assert (∃ ds dk,
    secretsChanged (addDifferences d t) = secretsChanged t + ds ∧
    keysChanged (addDifferences d t) = keysChanged t + dk ∧
    ds ≤ 1 ∧ ds ≤ dk ∧ (ds = 0 → dk = 0)) as (ds & dk & H1 & H2 & H3 & H4 & H5).
  { unfold addDifferences. destruct (0 <? d)%nat eqn:Hd; cbn.
    - apply Nat.ltb_lt in Hd. exists 1, d. repeat split; lia.
    - exists 0, 0. repeat split; lia. }
  pose proof (errors_addDifferences d t) as He.
  assert (∀ e : string,
    secretsChanged (addError e (addDifferences d t)) = secretsChanged t + ds ∧
    keysChanged (addError e (addDifferences d t)) = keysChanged t + dk ∧
    length (errors (addError e (addDifferences d t))) = length (errors t) + 1) as Herr.
  { intros e. cbn. rewrite length_app, He. cbn. lia. }
  assert (∃ de, secretsChanged (addDifferences d t) = secretsChanged t + ds ∧
    keysChanged (addDifferences d t) = keysChanged t + dk ∧
    length (errors (addDifferences d t)) = length (errors t) + de ∧
    ds ≤ 1 ∧ ds ≤ dk ∧ (ds = 0 → dk = 0) ∧ de ≤ 1) as Hsame.
  { exists 0. rewrite He. repeat split; (done || lia). }
  assert (∀ e : string, ∃ de,
    secretsChanged (addError e (addDifferences d t)) = secretsChanged t + ds ∧
    keysChanged (addError e (addDifferences d t)) = keysChanged t + dk ∧
    length (errors (addError e (addDifferences d t))) = length (errors t) + de ∧
    ds ≤ 1 ∧ ds ≤ dk ∧ (ds = 0 → dk = 0) ∧ de ≤ 1) as Hfail.
  { intros e. exists 1. destruct (Herr e) as (? & ? & ?). repeat split; (done || lia). }
  exists ds, dk.
  destruct (force || (0 <? d)%nat && doit); [|exact Hsame].
  destruct doit; [|exact Hsame].
  destruct (ToKubernetesData secret) as [data|e]; [|apply Hfail].
  destruct (secretWrite _ _ _ _ _ _ _ _ _) as [[e|] w3]; [apply Hfail|exact Hsame].
Qed.

Lemma uploadLoop_cons force doit verbose i (st : Totals * World) secret rest :
  uploadLoop force doit verbose i st (secret :: rest) =
    uploadLoop force doit verbose (S i)
      (uploadOne force doit verbose (rangePick i) st secret) rest.
Proof. reflexivity. Qed.

Lemma uploadLoop_totals force doit verbose secrets : ∀ i t w,
  let t' := (uploadLoop force doit verbose i (t, w) secrets).1 in
  ∃ ds dk de,
    secretsChanged t' = secretsChanged t + ds ∧
    keysChanged t' = keysChanged t + dk ∧
    length (errors t') = length (errors t) + de ∧
    ds ≤ length secrets ∧ ds ≤ dk ∧ (ds = 0 → dk = 0) ∧ de ≤ length secrets.
Proof.
  induction secrets as [|s rest IH]; intros i t w.
  - exists 0, 0, 0. cbn. repeat split; lia.
  - rewrite uploadLoop_cons.
    destruct (uploadOne_totals force doit verbose (rangePick i) t w s)
      as (ds1 & dk1 & de1 & ? & ? & ? & ? & ? & ? & ?).
    destruct (uploadOne force doit verbose (rangePick i) (t, w) s) as [t1 w1].
    destruct (IH (S i) t1 w1) as (ds2 & dk2 & de2 & ? & ? & ? & ? & ? & ? & ?).
    cbn [fst] in *. exists (ds1 + ds2), (dk1 + dk2), (de1 + de2).
    cbn [length]. repeat split; lia.
Qed.

Lemma uploadOne_dry force verbose pick t w secret :
  let w' := (uploadOne force false verbose pick (t, w) secret).2 in
  cluster w' = cluster w ∧
  ∃ l, calls w' = calls w ++ l ∧ filter (λ c, isWrite c = true) l = [].
Proof.
  unfold uploadOne. cbn [FromOnsiteSecret].
  destruct (diffOne verbose pick secret (Data secret) w) as [d w1] eqn:Hd.
  apply diffOne_calls in Hd.
  rewrite andb_false_r, orb_false_r. by destruct force.
Qed.

Lemma uploadLoop_dry force verbose secrets : ∀ i t w,
  let w' := (uploadLoop force false verbose i (t, w) secrets).2 in
  cluster w' = cluster w ∧
  ∃ l, calls w' = calls w ++ l ∧ filter (λ c, isWrite c = true) l = [].
Proof.
  induction secrets as [|s rest IH]; intros i t w.
  - split; [done|]. exists []. by rewrite app_nil_r.
  - rewrite uploadLoop_cons.
    pose proof (uploadOne_dry force verbose (rangePick i) t w s) as H1.
    destruct (uploadOne force false verbose (rangePick i) (t, w) s) as [t1 w1].
    destruct (IH (S i) t1 w1) as (Hc & l2 & Hl2 & Hf2).
    cbn [snd] in H1. destruct H1 as (Hc1 & l1 & Hl1 & Hf1).
    split; [congruence|]. exists (l1 ++ l2).
    rewrite Hl2, Hl1, <- app_assoc. split; [done|].
    by rewrite filter_app, Hf1, Hf2.
Qed.

Lemma upload_dry path force verbose w :
  let w' := (upload path force false verbose w).2 in
  cluster w' = cluster w ∧
  ∃ l, calls w' = calls w ++ l ∧ filter (λ c, isWrite c = true) l = [].
Proof.
  unfold upload. destruct (LoadSecretsFromPath path) as [secrets|e].
  - destruct (length secrets =? 0)%nat.
    + split; [done|]. exists []. by rewrite app_nil_r.
    + pose proof (uploadLoop_dry force verbose secrets 0 zeroTotals w) as H.
      unfold zeroTotals in H.
      destruct (uploadLoop force false verbose 0 _ secrets) as [t w1].
      cbn [snd] in *. by destruct (0 <? length (errors t))%nat.
  - split; [done|]. exists []. by rewrite app_nil_r.
Qed.

Lemma diffLocalVsLocal_world path1 path2 verbose w :
  let w' := (diffLocalVsLocal path1 path2 verbose w).2 in
  cluster w' = cluster w ∧ calls w' = calls w.
Proof.
  unfold diffLocalVsLocal.
  repeat match goal with
  | |- context [match ?x with _ => _ end] => destruct x
  end; done.
Qed.

(** X4. A whole run of upload without the commit flag (doit), forced or not,
    and a whole run of diff, with one path or two, send no create and no
    update request and leave the cluster as it was. *)
Theorem dry_run_is_read_only (path1 path2 : string) (force verbose : bool) (w : World) :
  let wu := (upload path1 force false verbose w).2 in
  let wd := (handleDiff path1 path2 verbose w).2 in
  cluster wu = cluster w ∧ filter (λ c, isWrite c = true) (newCalls w wu) = [] ∧
  cluster wd = cluster w ∧ filter (λ c, isWrite c = true) (newCalls w wd) = [].
Proof.
  intros wu wd. subst wu wd.
  destruct (upload_dry path1 force verbose w) as (Hc & l & Hl & Hf).
  split; [done|]. split; [by rewrite (newCalls_app _ _ _ Hl)|].
  unfold handleDiff. destruct (String.eqb path2 EmptyString).
  - destruct (upload_dry path1 false verbose w) as (Hc' & l' & Hl' & Hf').
    split; [done|]. by rewrite (newCalls_app _ _ _ Hl').
  - destruct (diffLocalVsLocal_world path1 path2 verbose w) as [Hc' Hl'].
    split; [done|]. rewrite (newCalls_app _ _ []); [done|]. by rewrite app_nil_r.
Qed.

Lemma secretWrite_stdout namespace name ty data w :
  ∃ out, stdout (secretWrite getClient apiGet apiCreate apiUpdate
                   namespace name ty data w).2 = stdout w ++ out.
Proof.
  unfold secretWrite.
  destruct (getClient (cluster w)); [exists []; by rewrite app_nil_r|].
  cbn [cluster call].
  destruct (apiGet (cluster w) namespace name).
  - destruct (apiUpdate _ _ _ _ _) as [c [e'|]]; cbn;
      eexists; (reflexivity || by rewrite app_nil_r).
  - destruct (apiCreate _ _ _ _ _) as [c [e'|]]; cbn;
      eexists; (reflexivity || by rewrite app_nil_r).
Qed.

Lemma diffOne_stdout verbose pick secret onsite w :
  ∃ out, stdout (diffOne verbose pick secret onsite w).2 = stdout w ++ out.
Proof.
  unfold diffOne.
  destruct (FromRemoteSecret getClient apiGet pick (Namespace secret) (Name secret)
              (Type_ secret) w) as [[remote|e] w0] eqn:Hr;
    destruct (FromRemoteSecret_calls _ _ _ _ _ _ _ _ _ Hr) as (_ & Hs & _).
  - destruct (compareSecretsRemote _ _ _ _) as [d out]. cbn. rewrite Hs. by eexists.
  - cbn. rewrite Hs. by eexists.
Qed.

Lemma uploadOne_stdout force doit verbose pick t w secret :
  ∃ out, stdout (uploadOne force doit verbose pick (t, w) secret).2 = stdout w ++ out.
Proof.
  unfold uploadOne. cbn [FromOnsiteSecret].
  destruct (diffOne_stdout verbose pick secret (Data secret) w) as [out1 H1].
  destruct (diffOne verbose pick secret (Data secret) w) as [d w1]. cbn [snd] in H1.
  destruct (force || (0 <? d)%nat && doit); [|by eexists].
  destruct doit; [|by eexists].
  destruct (ToKubernetesData secret) as [data|e].
  - destruct (secretWrite_stdout (Namespace secret) (Name secret) (Type_ secret) data
                (print (PrintUploading (secretNameOf secret)) w1)) as [out2 H2].
    destruct (secretWrite _ _ _ _ _ _ _ _ _) as [[e|] w3]; cbn [snd stdout print] in *;
      rewrite H2, H1, <- ?app_assoc; by eexists.
  - cbn. rewrite H1, <- !app_assoc. by eexists.
Qed.

Lemma uploadLoop_stdout force doit verbose secrets : ∀ i t w,
  ∃ out, stdout (uploadLoop force doit verbose i (t, w) secrets).2 = stdout w ++ out.
Proof.
  induction secrets as [|s rest IH]; intros i t w.
  - exists []. by rewrite app_nil_r.
  - rewrite uploadLoop_cons.
    destruct (uploadOne_stdout force doit verbose (rangePick i) t w s) as [out1 H1].
    destruct (uploadOne force doit verbose (rangePick i) (t, w) s) as [t1 w1].
    destruct (IH (S i) t1 w1) as [out2 H2]. cbn [snd] in H1.
    rewrite H2, H1, <- app_assoc. by eexists.
Qed.

(** X5. When the secrets load and there is at least one, upload returns no
    error and its output ends with a blank line, the lines `secrets changed:
    n` and `keys changed: m` and, only when an error was recorded, the line
    `completed with k error(s)`; n and k are at most the number of secrets, n
    is at most m, and n is zero exactly when m is. *)
Theorem upload_summary (path : string) (force doit verbose : bool) (w : World)
    (secrets : list Secret) :
  LoadSecretsFromPath path = Ok secrets →
  secrets ≠ [] →
  ∃ (out : list Output) (n m errs : nat),
    upload path force doit verbose w =
      (None, (upload path force doit verbose w).2) ∧
    newOutput w (upload path force doit verbose w).2 =
      out ++ [PrintBlank; PrintSecretsChanged n; PrintKeysChanged m]
          ++ (if (0 <? errs)%nat then [PrintCompleted errs] else []) ∧
    n ≤ length secrets ∧ n ≤ m ∧ (n = 0 ↔ m = 0) ∧ errs ≤ length secrets.
Proof.
  intros Hload Hne. unfold upload. rewrite Hload.
  destruct secrets as [|s0 rest]; [done|]. cbn [length Nat.eqb].
  set (secrets := s0 :: rest).
  destruct (uploadLoop_totals force doit verbose secrets 0 zeroTotals w)
    as (ds & dk & de & Hs & Hk & He & ? & ? & ? & ?).
  destruct (uploadLoop_stdout force doit verbose secrets 0 zeroTotals w) as [out Hout].
  unfold zeroTotals in *.
  destruct (uploadLoop force doit verbose 0 _ secrets) as [t w1].
  cbn [fst snd secretsChanged keysChanged errors length] in *.
  exists out, (secretsChanged t), (keysChanged t), (length (errors t)).
  split; [done|]. split.
  - apply newOutput_app.
    destruct (0 <? length (errors t))%nat; cbn; rewrite Hout, <- ?app_assoc; done.
  - subst secrets. cbn [length] in *. lia.
Qed.

Lemma compareSecretsLocal_same ns1 ns2 (a : gmap string string) verbose :
  compareSecretsLocal ns1 ns2 a a verbose = (0, PrintKey <$> allKeys a a).
Proof.
  apply injective_projections.
  - rewrite compareSecretsLocal_count. cbn [fst]. by apply no_differing_iff.
  - rewrite compareSecretsLocal_lines. cbn [snd].
    assert (Forall (λ k, keyDiffers a a k = false) (allKeys a a)) as Hall.
    { assert (length (filter (λ k, keyDiffers a a k = true) (allKeys a a)) = 0) as Hz
        by (by apply no_differing_iff).
      apply length_filter_zero in Hz.
      eapply Forall_impl; [exact Hz|]. intros k Hk. by apply not_true_iff_false. }
    induction Hall as [|k ks Hk _ IH]; [done|].
    rewrite fmap_cons. cbn [flat_map]. unfold localBlock at 1.
    rewrite Hk. cbn [app]. by rewrite IH.
Qed.

Lemma diffName_same path1 path2 (m : gmap string Secret) verbose keys : ∀ n out,
  Forall (λ k, is_Some (m !! k)) keys →
  ∃ out', foldl (diffName path1 path2 m m verbose) (n, out) keys = (n, out ++ out') ∧
          Forall (λ o, isKeyLine o = true) out'.
Proof.
  induction keys as [|k ks IH]; intros n out Hall.
  - exists []. by rewrite app_nil_r.
  - apply Forall_cons in Hall as [[s Hs] Hall]. cbn [foldl].
    unfold diffName at 2. rewrite Hs, compareSecretsLocal_same, Nat.add_0_r.
    destruct (IH n (out ++ (PrintKey <$> allKeys (Data s) (Data s))) Hall)
      as (out' & -> & Hout').
    exists ((PrintKey <$> allKeys (Data s) (Data s)) ++ out').
    rewrite app_assoc. split; [done|].
    apply Forall_app. split; [|done]. by apply Forall_fmap, Forall_true.
Qed.

(** X6. Comparing a path with itself (diff of two equal local paths) returns
    no error, prints nothing but key lines, with no value and no missing
    secret, and ends with `differences: 0`. *)
Theorem diff_path_with_itself (path : string) (verbose : bool) (w : World)
    (secrets : list Secret) :
  LoadSecretsFromPath path = Ok secrets →
  ∃ out,
    diffLocalVsLocal path path verbose w =
      (None, print (PrintDifferences 0) (printAll out w)) ∧
    Forall (λ o, isKeyLine o = true) out.
Proof.
  intros Hload. unfold diffLocalVsLocal. rewrite Hload.
  set (m := foldl (λ (m : gmap string Secret) s, <[Name s := s]> m) ∅ secrets).
  assert (∃ out,
    (let '(totalDifferences, out) :=
       foldl (diffName path path m m verbose) (0, []) (sortStrings (elements (dom m ∪ dom m)))
     in (None : option string, print (PrintDifferences totalDifferences) (printAll out w)))
    = (None, print (PrintDifferences 0) (printAll out w)) ∧
    Forall (λ o, isKeyLine o = true) out) as Hmulti.
  { destruct (diffName_same path path m verbose
                (sortStrings (elements (dom m ∪ dom m))) 0 []) as (out & -> & Hout).
    - apply Forall_forall. intros k Hk.
      rewrite sortStrings_Permutation, elem_of_elements, elem_of_union in Hk.
      apply elem_of_dom. by destruct Hk.
    - by exists out. }
  destruct secrets as [|s1 [|s2 rest]]; [exact Hmulti| |exact Hmulti].
  rewrite compareSecretsLocal_same.
  eexists. split; [done|]. by apply Forall_fmap, Forall_true.
Qed.

End BatchFacts.

Lemma diff_path_with_itself_witness :
  ∃ out,
    diffLocalVsLocal (λ _, Ok [oneKeySecret]) "secrets" "secrets" false emptyWorld =
      (None, print (PrintDifferences 0) (printAll out emptyWorld)) ∧
    Forall (λ o, isKeyLine o = true) out.
Proof.
  exact (diff_path_with_itself (λ _, Ok [oneKeySecret]) "secrets" false emptyWorld
           [oneKeySecret] eq_refl).
Defined.

Lemma upload_summary_witness :
  ∃ (out : list Output) (n m errs : nat),
    newOutput emptyWorld
      (upload (λ _, None) memGet memCreate memUpdate (λ _, Ok [oneKeySecret])
         (λ _, 0) "secrets" false true false emptyWorld).2 =
      out ++ [PrintBlank; PrintSecretsChanged n; PrintKeysChanged m]
          ++ (if (0 <? errs)%nat then [PrintCompleted errs] else []) ∧
    n ≤ 1 ∧ n ≤ m.
Proof.
  destruct (upload_summary (λ _, None) memGet memCreate memUpdate
              (λ _, Ok [oneKeySecret]) (λ _, 0) "secrets" false true false
              emptyWorld [oneKeySecret] eq_refl ltac:(discriminate))
    as (out & n & m & errs & _ & Hout & Hn & Hm & _).
  exists out, n, m, errs. split; [exact Hout|]. split; [exact Hn|exact Hm].
Defined.

(** ** secret.go: the wire form of a secret *)

Lemma dom_dockerEntries server auth :
  dom (dockerEntries server auth) =
    if String.eqb (Email auth) EmptyString
    then ({[ "docker-server"; "docker-username"; "docker-password" ]} : gset string)
    else dockerKeys.
Proof.
  unfold dockerEntries, dockerKeys.
  destruct (String.eqb (Email auth) EmptyString); cbn [negb];
    rewrite ?dom_insert_L, dom_empty_L; set_solver.
Qed.

(** X7. For a secret whose type is not kubernetes.io/dockerconfigjson,
    ToKubernetesData returns the entries as they are and FromKubernetesData
    gives them back unchanged. For a docker-registry secret with the three
    required fields, ToKubernetesData returns the single key
    .dockerconfigjson, and FromKubernetesData of that map succeeds with the
    docker fields, each coerced to valid UTF-8, and with no key outside the
    four docker keys. *)
Theorem wire_form_read_back (s : Secret) (pick : nat) :
  (Type_ s ≠ "kubernetes.io/dockerconfigjson" →
   ToKubernetesData s = Ok (Data s) ∧
   FromKubernetesData pick (Type_ s) (Data s) = Ok (Data s))
  ∧
  (Type_ s = "kubernetes.io/dockerconfigjson" →
   Forall (fieldPresent (Data s)) requiredFields →
   ∃ jsonData,
     ToKubernetesData s = Ok {[ ".dockerconfigjson" := jsonData ]} ∧
     FromKubernetesData pick (Type_ s) {[ ".dockerconfigjson" := jsonData ]} =
       Ok (readBack (Data s)) ∧
     dom (readBack (Data s)) ⊆ dockerKeys).
Proof.
  split.
  - intros Hty. apply String.eqb_neq in Hty.
    unfold ToKubernetesData, FromKubernetesData. by rewrite Hty.
  - intros Hty Hreq. exists (json_Marshal (builtConfig (Data s))).
    unfold ToKubernetesData, FromKubernetesData. rewrite Hty. cbn [String.eqb Ascii.eqb Bool.eqb].
    rewrite (Build_ok _ Hreq). split; [done|].
    rewrite lookup_singleton_eq. unfold builtConfig.
    rewrite Parse_marshal_single. split; [done|].
    unfold readBack. rewrite dom_dockerEntries.
    destruct (String.eqb _ _); [|done]. unfold dockerKeys. set_solver.
Qed.

(** ** secret.go: the substitution of variables *)

Section ExpandFacts.

Variable mapping : string → string.

Implicit Types (s r pre post name : string).

Lemma expandWith_fuel : ∀ f g s,
  String.length s ≤ f → String.length s ≤ g →
  GoOs.expandWith mapping f s = GoOs.expandWith mapping g s.
Proof.
  induction f as [|f IH]; intros g s Hf Hg.
  - destruct s; [|simpl in Hf; lia]. by destruct g.
  - destruct g as [|g]; [destruct s; [done|simpl in Hg; lia]|].
    destruct s as [|c r]; [done|]. simpl in Hf, Hg. cbn [GoOs.expandWith].
    destruct (Ascii.eqb c "$" && negb (String.eqb r EmptyString)).
    + destruct (GoOs.getShellName r) as [name w]. f_equal.
      apply IH; rewrite length_dropBytes; lia.
    + f_equal. apply IH; lia.
Qed.

Lemma Expand_nil : GoOs.Expand EmptyString mapping = EmptyString.
Proof. done. Qed.

Lemma Expand_cons c r :
  GoOs.Expand (String c r) mapping =
    if Ascii.eqb c "$" && negb (String.eqb r EmptyString) then
      let '(name, w) := GoOs.getShellName r in
      (if String.eqb name EmptyString then
         if (0 <? w)%nat then EmptyString else str1 c
       else mapping name)
      +:+ GoOs.Expand (GoStrings.dropBytes w r) mapping
    else String c (GoOs.Expand r mapping).
Proof.
  unfold GoOs.Expand. cbn [String.length GoOs.expandWith].
  destruct (Ascii.eqb c "$" && negb (String.eqb r EmptyString)).
  - destruct (GoOs.getShellName r) as [name w]. f_equal.
    apply expandWith_fuel; rewrite ?length_dropBytes; lia.
  - done.
Qed.

Lemma Expand_plain_app pre s :
  GoStrings.ContainsByte pre "$" = false →
  GoOs.Expand (pre +:+ s) mapping = pre +:+ GoOs.Expand s mapping.
Proof.
  induction pre as [|c pre IH]; [done|]. cbn [GoStrings.ContainsByte].
  intros [Hc Hpre]%orb_false_iff. rewrite !str_app_cons, Expand_cons, Hc.
  cbn [andb]. by rewrite IH.
Qed.

Lemma Expand_plain s :
  GoStrings.ContainsByte s "$" = false → GoOs.Expand s mapping = s.
Proof.
  intros H. rewrite <- (str_app_nil_r s) at 1.
  rewrite Expand_plain_app by done. by rewrite Expand_nil, str_app_nil_r.
Qed.

Lemma Expand_dollar r :
  r ≠ EmptyString →
  GoOs.Expand (String "$" r) mapping =
    let '(name, w) := GoOs.getShellName r in
    (if String.eqb name EmptyString then
       if (0 <? w)%nat then EmptyString else "$"
     else mapping name)
    +:+ GoOs.Expand (GoStrings.dropBytes w r) mapping.
Proof.
  intros Hr. rewrite Expand_cons. apply String.eqb_neq in Hr. by rewrite Hr.
Qed.

Lemma indexBrace_app name post :
  GoStrings.ContainsByte name "}" = false →
  GoOs.indexBrace (name +:+ String "}" post) = Some (String.length name).
Proof.
  induction name as [|c name IH]; [done|]. cbn [GoStrings.ContainsByte].
  intros [Hc Hn]%orb_false_iff. rewrite str_app_cons. cbn [GoOs.indexBrace].
  rewrite Hc, IH by done. done.
Qed.

Lemma substring_app_length s t :
  String.substring 0 (String.length s) (s +:+ t) = s.
Proof.
  induction s as [|c s IH]; [by destruct t|]. rewrite str_app_cons. cbn. by rewrite IH.
Qed.

Lemma dropBytes_app_length s t :
  GoStrings.dropBytes (String.length s) (s +:+ t) = t.
Proof. induction s as [|c s IH]; [by destruct t|]. by rewrite str_app_cons. Qed.

Lemma dropBytes_S n c s :
  GoStrings.dropBytes (S n) (String c s) = GoStrings.dropBytes n s.
Proof. reflexivity. Qed.

Lemma dropBytes_app_length_cons s c t :
  GoStrings.dropBytes (S (String.length s)) (s +:+ String c t) = t.
Proof. induction s as [|d s IH]; [done|]. by rewrite str_app_cons. Qed.

Lemma getShellName_braces name post :
  name ≠ EmptyString →
  GoStrings.ContainsByte name "}" = false →
  GoOs.getShellName (String "{" (name +:+ String "}" post)) =
    (name, String.length name + 2).
Proof.
  intros Hne Hno. cbn [GoOs.getShellName]. cbn [Ascii.eqb Bool.eqb]. 
  rewrite indexBrace_app by done.
  destruct name as [|c1 name]; [done|].
  rewrite str_app_cons. destruct name as [|c2 name].
  - cbn. by destruct (GoOs.isShellSpecialVar c1).
  - rewrite str_app_cons. cbn [GoStrings.ContainsByte] in Hno.
    apply orb_false_iff in Hno as [_ [Hc2 _]%orb_false_iff].
    rewrite Hc2, andb_false_r.
    rewrite <- !str_app_cons. by rewrite substring_app_length.
Qed.

Lemma spanAlphaNum_app name post :
  allAlphaNum name = true →
  startsWith GoOs.isAlphaNum post = false →
  GoOs.spanAlphaNum (name +:+ post) = name.
Proof.
  intros Hn Hp. induction name as [|c name IH].
  - destruct post as [|d post]; [done|]. rewrite str_app_nil_l.
    cbn [startsWith] in Hp. cbn [GoOs.spanAlphaNum]. by rewrite Hp.
  - cbn [allAlphaNum] in Hn. apply andb_true_iff in Hn as [Hc Hn].
    rewrite str_app_cons. cbn [GoOs.spanAlphaNum]. by rewrite Hc, IH.
Qed.

Lemma getShellName_bare name post :
  name ≠ EmptyString →
  allAlphaNum name = true →
  startsWith GoOs.isShellSpecialVar name = false →
  startsWith GoOs.isAlphaNum post = false →
  GoOs.getShellName (name +:+ post) = (name, String.length name).
Proof.
  intros Hne Hn Hs Hp. destruct name as [|c name]; [done|].
  rewrite str_app_cons. cbn [GoOs.getShellName]. cbn [startsWith] in Hs. rewrite Hs.
  assert (Ascii.eqb c "{" = false) as ->.
  { apply Ascii.eqb_neq. intros ->. cbn in Hn. discriminate Hn. }
  rewrite <- str_app_cons. by rewrite spanAlphaNum_app.
Qed.

End ExpandFacts.

Lemma expandValue_plain_app env pre s :
  GoStrings.ContainsByte pre "$" = false →
  expandValue env (pre +:+ s) = pre +:+ expandValue env s.
Proof. apply Expand_plain_app. Qed.

(** X8. substituteEnvVars keeps the set of keys, replaces every value by its
    expansion, and leaves a value without a dollar sign as it is. *)
Theorem substitution_keeps_plain_entries (env data : gmap string string) :
  dom (substituteEnvVars env data) = dom data ∧
  (∀ key value,
      data !! key = Some value →
      substituteEnvVars env data !! key = Some (expandValue env value)) ∧
  (∀ key value,
      data !! key = Some value →
      GoStrings.ContainsByte value "$" = false →
      substituteEnvVars env data !! key = Some value).
Proof.
  unfold substituteEnvVars. split; [apply dom_fmap_L|]. split.
  - intros key value Hk. by rewrite lookup_fmap, Hk.
  - intros key value Hk Hno. rewrite lookup_fmap, Hk. cbn.
    by rewrite Expand_plain.
Qed.

(** X9. In a value, the first reference ${NAME} (NAME without a closing brace
    inside) or $NAME (letters, digits and underscores, not starting with a
    digit, and followed by no such byte) is replaced by the value of NAME in
    the environment and the rest is expanded in turn; a variable that is not
    set expands to the empty string. *)
Theorem references_are_replaced (env : gmap string string)
    (pre name post : string) :
  GoStrings.ContainsByte pre "$" = false →
  name ≠ EmptyString →
  (GoStrings.ContainsByte name "}" = false →
   expandValue env (pre +:+ "${" +:+ name +:+ "}" +:+ post) =
     pre +:+ GoOs.Getenv env name +:+ expandValue env post)
  ∧
  (allAlphaNum name = true →
   startsWith GoOs.isShellSpecialVar name = false →
   startsWith GoOs.isAlphaNum post = false →
   expandValue env (pre +:+ "$" +:+ name +:+ post) =
     pre +:+ GoOs.Getenv env name +:+ expandValue env post)
  ∧
  (env !! name = None → GoOs.Getenv env name = EmptyString).
Proof.
  intros Hpre Hne. split; [|split].
  - intros Hno. rewrite expandValue_plain_app by done. f_equal.
    unfold expandValue.
    change ("${" +:+ name +:+ "}" +:+ post)
      with (String "$" (String "{" (name +:+ String "}" post))).
    rewrite Expand_dollar by done.
    rewrite getShellName_braces by done.
    apply String.eqb_neq in Hne. rewrite Hne. f_equal.
    rewrite Nat.add_comm. cbn [Nat.add].
    rewrite dropBytes_S. by rewrite dropBytes_app_length_cons.
  - intros Hal Hsp Hpost. rewrite expandValue_plain_app by done. f_equal.
    unfold expandValue.
    change ("$" +:+ name +:+ post) with (String "$" (name +:+ post)).
    rewrite Expand_dollar by (by destruct name).
    rewrite getShellName_bare by done.
    apply String.eqb_neq in Hne. rewrite Hne. f_equal.
    by rewrite dropBytes_app_length.
  - intros Hun. unfold GoOs.Getenv. by rewrite Hun.
Qed.

Lemma references_are_replaced_witness :
  expandValue {[ "HOME" := "/root" ]} ("dir=" +:+ "${" +:+ "HOME" +:+ "}" +:+ "/x") =
    "dir=" +:+ GoOs.Getenv {[ "HOME" := "/root" ]} "HOME"
    +:+ expandValue {[ "HOME" := "/root" ]} "/x"
  ∧
  expandValue {[ "HOME" := "/root" ]} ("dir=" +:+ "$" +:+ "HOME" +:+ "/x") =
    "dir=" +:+ GoOs.Getenv {[ "HOME" := "/root" ]} "HOME"
    +:+ expandValue {[ "HOME" := "/root" ]} "/x".
Proof.
  pose proof (references_are_replaced {[ "HOME" := "/root" ]} "dir=" "HOME" "/x"
                eq_refl ltac:(discriminate)) as (H1 & H2 & _).
  split; [exact (H1 eq_refl)|exact (H2 eq_refl eq_refl eq_refl)].
Defined.

(** X10. Dollar signs that name no variable: a dollar sign at the end of a
    value, or before a byte that can start no name, stays; a dollar sign
    before one of the special characters of the shell (such as * # $ @ ! ? -
    or a digit) is read as a reference to the variable of that one character;
    the text ${} disappears, and after an unclosed ${ only the two bytes ${
    are dropped. *)
Theorem dollar_edge_cases (env : gmap string string) (pre post : string) :
  GoStrings.ContainsByte pre "$" = false →
  (* a dollar that ends the value or is followed by a byte that starts no name stays *)
  expandValue env (pre +:+ "$") = pre +:+ "$" ∧
  (post ≠ EmptyString → startsWith nameStart post = false →
   expandValue env (pre +:+ "$" +:+ post) = pre +:+ "$" +:+ expandValue env post) ∧
  (* a one-character name of the shell *)
  (∀ c, GoOs.isShellSpecialVar c = true →
        expandValue env (pre +:+ "$" +:+ String c post) =
          pre +:+ GoOs.Getenv env (str1 c) +:+ expandValue env post) ∧
  (* bad syntax is eaten *)
  expandValue env (pre +:+ "${}" +:+ post) = pre +:+ expandValue env post ∧
  (post ≠ EmptyString → GoStrings.ContainsByte post "}" = false →
   expandValue env (pre +:+ "${" +:+ post) = pre +:+ expandValue env post).
Proof.
  intros Hpre. split; [|split; [|split; [|split]]].
  - rewrite expandValue_plain_app by done. done.
  - intros Hne Hst. rewrite expandValue_plain_app by done. f_equal.
    unfold expandValue.
    change ("$" +:+ post) with (String "$" post).
    rewrite Expand_dollar by done.
    destruct post as [|c post]; [done|].
    cbn [startsWith] in Hst. unfold nameStart in Hst.
    apply orb_false_iff in Hst as [[H1 H2]%orb_false_iff H3].
    cbn [GoOs.getShellName]. rewrite H1, H2. cbn [GoOs.spanAlphaNum]. rewrite H3.
    done.
  - intros c Hc. rewrite expandValue_plain_app by done. f_equal.
    unfold expandValue.
    change ("$" +:+ String c post) with (String "$" (String c post)).
    rewrite Expand_dollar by done.
    cbn [GoOs.getShellName]. rewrite Hc.
    assert (Ascii.eqb c "{" = false) as ->.
    { apply Ascii.eqb_neq. intros ->. discriminate Hc. }
    done.
  - rewrite expandValue_plain_app by done. f_equal. unfold expandValue.
    change ("${}" +:+ post) with (String "$" (String "{" (String "}" post))).
    rewrite Expand_dollar by done.
    cbn [GoOs.getShellName]. cbn [Ascii.eqb Bool.eqb GoOs.indexBrace].
    destruct post as [|d post]; [done|].
    cbn [GoOs.isShellSpecialVar andb]. done.
  - intros Hne Hno. rewrite expandValue_plain_app by done. f_equal.
    unfold expandValue.
    change ("${" +:+ post) with (String "$" (String "{" post)).
    rewrite Expand_dollar by done.
    assert (GoOs.indexBrace post = None) as Hidx.
    { clear Hne. induction post as [|d post IH]; [done|].
      cbn [GoStrings.ContainsByte] in Hno.
      apply orb_false_iff in Hno as [Hd Hno]. cbn [GoOs.indexBrace].
      rewrite Hd, IH by done. done. }
    cbn [GoOs.getShellName]. cbn [Ascii.eqb Bool.eqb]. rewrite Hidx.
    assert (match post with
            | String c1 (String c2 _) => GoOs.isShellSpecialVar c1 && Ascii.eqb c2 "}"
            | _ => false
            end = false) as ->.
    { destruct post as [|c1 [|c2 post]]; try done.
      cbn [GoStrings.ContainsByte] in Hno.
      apply orb_false_iff in Hno as [_ [Hc2 _]%orb_false_iff].
      by rewrite Hc2, andb_false_r. }
    done.
Qed.

Lemma dollar_edge_cases_witness :
  expandValue ∅ "pa$" = "pa$" ∧
  expandValue ∅ "pa${}ss" = "pa" +:+ expandValue ∅ "ss".
Proof.
  split.
  - exact (proj1 (dollar_edge_cases ∅ "pa" "ss" eq_refl)).
  - exact (proj1 (proj2 (proj2 (proj2 (dollar_edge_cases ∅ "pa" "ss" eq_refl))))).
Defined.

(** ** secret.go: the sort of the keys in WriteSecretFile *)

Section SortFacts.

Implicit Types (x y m : string) (keys pre rest : list string).

Lemma ltb_false_le x y : String.ltb y x = false → String.le x y.
Proof.
  unfold String.ltb, String.le, String.leb. rewrite (String.compare_antisym y x).
  destruct (String.compare x y); simpl; done.
Qed.

Lemma ltb_true_le x y : String.ltb y x = true → String.le y x.
Proof.
  unfold String.ltb, String.le, String.leb.
  destruct (String.compare y x); simpl; done.
Qed.

Lemma sortPass_spec rest : ∀ x,
  let '(m, r) := sortPass x rest in
  m :: r ≡ₚ x :: rest ∧ String.le m x ∧ Forall (String.le m) r.
Proof.
  induction rest as [|y ys IH]; intros x; cbn [sortPass].
  - split; [done|]. split; [done|constructor].
  - destruct (String.ltb y x) eqn:Hlt.
    + specialize (IH y). destruct (sortPass y ys) as [m r].
      destruct IH as (Hp & Hm & Hall).
      pose proof (ltb_true_le _ _ Hlt) as Hyx.
      split; [|split].
      * etrans; [apply Permutation_swap|]. by f_equiv.
      * by etrans.
      * constructor; [by etrans|done].
    + specialize (IH x). destruct (sortPass x ys) as [m r].
      destruct IH as (Hp & Hm & Hall).
      pose proof (ltb_false_le _ _ Hlt) as Hxy.
      split; [|split].
      * etrans; [apply Permutation_swap|].
        etrans; [|apply Permutation_swap]. by f_equiv.
      * done.
      * constructor; [by etrans|done].
Qed.

Lemma insert_middle {A} (l1 l2 : list A) (x y : A) :
  <[length l1 := y]> (l1 ++ x :: l2) = l1 ++ y :: l2.
Proof.
  rewrite <- (Nat.add_0_r (length l1)) at 1. by rewrite insert_app_r.
Qed.

Lemma sortInner_pass rest2 : ∀ pre x rest1,
  sortInner (length rest2) (length pre) (length pre + S (length rest1))
            (pre ++ x :: rest1 ++ rest2) =
    pre ++ (sortPass x rest2).1 :: rest1 ++ (sortPass x rest2).2.
Proof.
  induction rest2 as [|y ys IH]; intros pre x rest1; [done|].
  cbn [length sortInner sortPass].
  rewrite list_lookup_middle by done.
  assert ((pre ++ x :: rest1 ++ y :: ys) !! (length pre + S (length rest1)) = Some y)
    as ->.
  { rewrite lookup_app_r by lia.
    replace (length pre + S (length rest1) - length pre) with (S (length rest1)) by lia.
    cbn. by apply list_lookup_middle. }
  destruct (String.ltb y x) eqn:Hlt.
  - assert (<[length pre := y]>
              (<[length pre + S (length rest1) := x]> (pre ++ x :: rest1 ++ y :: ys))
            = pre ++ y :: (rest1 ++ [x]) ++ ys) as ->.
    { replace (pre ++ x :: rest1 ++ y :: ys) with ((pre ++ x :: rest1) ++ y :: ys)
        by (by rewrite <- app_assoc).
      replace (length pre + S (length rest1)) with (length (pre ++ x :: rest1))
        by (rewrite length_app; cbn; lia).
      rewrite insert_middle, <- app_assoc. cbn [app].
      rewrite insert_middle. by rewrite <- app_assoc. }
    replace (S (length pre + S (length rest1)))
      with (length pre + S (length (rest1 ++ [x])))
      by (rewrite length_app; cbn; lia).
    rewrite IH. destruct (sortPass y ys) as [m r]. cbn. by rewrite <- app_assoc.
  - assert (pre ++ x :: rest1 ++ y :: ys = pre ++ x :: (rest1 ++ [y]) ++ ys) as ->
      by (by rewrite <- app_assoc).
    replace (S (length pre + S (length rest1)))
      with (length pre + S (length (rest1 ++ [y])))
      by (rewrite length_app; cbn; lia).
    rewrite IH. destruct (sortPass x ys) as [m r]. cbn. by rewrite <- app_assoc.
Qed.

Lemma sortOuter_spec n : ∀ pre suffix,
  length suffix = n →
  ∃ sorted,
    sortOuter n (length pre) (pre ++ suffix) = pre ++ sorted ∧
    sorted ≡ₚ suffix ∧ Sorted String.le sorted.
Proof.
  induction n as [|n IH]; intros pre suffix Hlen.
  - destruct suffix; [|done]. exists []. by repeat split; [|constructor].
  - destruct suffix as [|x rest]; [done|]. injection Hlen as Hlen.
    cbn [sortOuter].
    replace (length (pre ++ x :: rest) - S (length pre)) with (length rest)
      by (rewrite length_app; cbn; lia).
    pose proof (sortInner_pass rest pre x []) as Hin.
    cbn [length app] in Hin. rewrite Nat.add_1_r in Hin. rewrite Hin.
    pose proof (sortPass_spec rest x) as Hspec.
    destruct (sortPass x rest) as [m r]. cbn [fst snd].
    destruct Hspec as (Hp & Hm & Hall).
    assert (length r = n) as Hr.
    { apply Permutation_length in Hp. cbn in Hp. lia. }
    destruct (IH (pre ++ [m]) r Hr) as (sorted & Heq & Hps & Hs).
    rewrite length_app in Heq. cbn [length] in Heq. rewrite Nat.add_1_r in Heq.
    rewrite <- app_assoc in Heq. cbn [app] in Heq. rewrite Heq.
    exists (m :: sorted). rewrite <- app_assoc. split; [done|]. split.
    + by rewrite Hps.
    + constructor; [done|].
      destruct sorted as [|s0 sorted]; constructor.
      eapply Forall_forall; [exact Hall|]. rewrite <- Hps. by left.
Qed.

Lemma sortKeys_sortStrings keys : sortKeys keys = sortStrings keys.
Proof.
  destruct (sortOuter_spec (length keys) [] keys eq_refl) as (sorted & Heq & Hp & Hs).
  unfold sortKeys. cbn in Heq. rewrite Heq.
  apply (Sorted_unique String.le); [done|apply sortStrings_Sorted|].
  by rewrite Hp, sortStrings_Permutation.
Qed.

End SortFacts.

(** X11. The two nested loops that sort the keys in WriteSecretFile return the
    keys in ascending byte order and as a permutation of the input; the result
    is that of sort.Strings and does not depend on the order in which the map
    was iterated. *)
Theorem hand_written_sort_sorts (keys keys' : list string) :
  Sorted String.le (sortKeys keys) ∧
  sortKeys keys ≡ₚ keys ∧
  sortKeys keys = sortStrings keys ∧
  (keys ≡ₚ keys' → sortKeys keys = sortKeys keys').
Proof.
  rewrite !sortKeys_sortStrings.
  split; [apply sortStrings_Sorted|]. split; [apply sortStrings_Permutation|].
  split; [done|]. apply sortStrings_order_irrelevant.
Qed.

(** ** Package strconv: what a quoted string holds *)

Section QuoteFacts.

Variable isPrintWide : N → bool.

Local Abbreviation Quote := (GoStrconv.Quote isPrintWide).
Local Abbreviation quoteWith := (GoStrconv.quoteWith isPrintWide).
Local Abbreviation appendEscapedRune := (GoStrconv.appendEscapedRune isPrintWide).

Implicit Types (s t : string) (c : ascii) (r : N).

Lemma allBytes_app p s t : allBytes p (s +:+ t) = allBytes p s && allBytes p t.
Proof.
  induction s as [|c s IH]; [done|]. rewrite str_app_cons. cbn.
  by rewrite IH, andb_assoc.
Qed.

Lemma allBytes_impl (p q : ascii → bool) s :
  (∀ c, p c = true → q c = true) → allBytes p s = true → allBytes q s = true.
Proof.
  intros Hpq. induction s as [|c s IH]; [done|]. cbn.
  intros [Hc Hs]%andb_true_iff. by rewrite (Hpq _ Hc), IH.
Qed.

Lemma visible_byte_to_ascii n :
  (32 ≤ n < 256)%N → visibleByte (GoUtf8.byte_to_ascii n) = true.
Proof.
  intros Hn. unfold visibleByte, byte_of, GoUtf8.byte_to_ascii.
  rewrite N_ascii_embedding by lia. apply N.leb_le. lia.
Qed.

Lemma lowerhex_visible n : visibleByte (GoStrconv.lowerhex n) = true.
Proof.
  unfold GoStrconv.lowerhex.
  assert (N.to_nat (n mod 16) < 16) as Hlt.
  { pose proof (N.mod_lt n 16). lia. }
  destruct (N.to_nat (n mod 16)) as [|k]; [done|].
  do 15 (destruct k as [|k]; [done|]). lia.
Qed.

Lemma hexDigits_visible n r : allBytes visibleByte (GoStrconv.hexDigits n r) = true.
Proof.
  induction n as [|n IH]; [done|]. cbn. by rewrite lowerhex_visible, IH.
Qed.

Lemma EncodeRune_visible r :
  (32 ≤ r)%N → allBytes visibleByte (GoUtf8.EncodeRune r) = true.
Proof.
  intros Hr. unfold GoUtf8.EncodeRune.
  repeat match goal with
  | |- context [if ?b then _ else _] => destruct b eqn:?
  end; bool_to_arith; cbn [allBytes str1];
  rewrite ?andb_true_r, ?andb_true_iff; repeat split;
  try (apply visible_byte_to_ascii; nlia); try done.
Qed.

Lemma appendEscapedRune_visible r :
  allBytes visibleByte (appendEscapedRune r) = true.
Proof.
  unfold GoStrconv.appendEscapedRune.
  destruct ((r =? 34)%N || (r =? 92)%N) eqn:Hq.
  { apply orb_true_iff in Hq as [->%N.eqb_eq| ->%N.eqb_eq]; done. }
  destruct (GoStrconv.IsPrint isPrintWide r) eqn:Hp.
  { apply EncodeRune_visible. unfold GoStrconv.IsPrint in Hp.
    repeat match type of Hp with
    | (if ?b then _ else _) = _ => destruct b eqn:?
    end; bool_to_arith; try lia; try done. }
  assert (∀ c n x, allBytes visibleByte
            (String GoJSON.backslash (String c (GoStrconv.hexDigits n x)))
          = visibleByte c) as Hhex.
  { intros c n x. cbn [allBytes]. rewrite hexDigits_visible. cbn. by rewrite andb_true_r. }
  repeat match goal with
  | |- context [if ?b then _ else _] => destruct b; [by rewrite ?Hhex|]
  end.
  by rewrite Hhex.
Qed.

Lemma quoteWith_visible fuel : ∀ s, allBytes visibleByte (quoteWith fuel s) = true.
Proof.
  induction fuel as [|fuel IH]; intros s; [done|].
  cbn [GoStrconv.quoteWith]. destruct s as [|c s]; [done|].
  destruct (if (byte_of c <? 128)%N then (byte_of c, 1) else GoUtf8.DecodeRune (String c s))
    as [r width].
  destruct ((width =? 1)%nat && (r =? GoUtf8.RuneError)%N).
  - rewrite str_app_cons. cbn [allBytes]. rewrite str_app_cons. cbn [allBytes].
    by rewrite allBytes_app, hexDigits_visible, IH.
  - by rewrite allBytes_app, appendEscapedRune_visible, IH.
Qed.

Lemma Quote_visible s : allBytes visibleByte (Quote s) = true.
Proof.
  unfold GoStrconv.Quote. cbn [allBytes].
  by rewrite allBytes_app, quoteWith_visible.
Qed.

Lemma plainByte_rune c :
  plainByte c = true →
  (byte_of c <? 128)%N = true ∧ appendEscapedRune (byte_of c) = str1 c.
Proof.
  unfold plainByte. intros Hc. bool_to_arith.
  apply negb_true_iff, Ascii.eqb_neq in H0, H1.
  split; [apply N.ltb_lt; lia|].
  unfold GoStrconv.appendEscapedRune.
  assert ((byte_of c =? 34)%N = false) as ->.
  { apply N.eqb_neq. intros Heq. apply H1.
    rewrite <- (ascii_N_embedding c). unfold byte_of in Heq. by rewrite Heq. }
  assert ((byte_of c =? 92)%N = false) as ->.
  { apply N.eqb_neq. intros Heq. apply H0.
    rewrite <- (ascii_N_embedding c). unfold byte_of in Heq. by rewrite Heq. }
  cbn [orb]. unfold GoStrconv.IsPrint.
  assert ((byte_of c <=? 255)%N = true) as -> by (apply N.leb_le; lia).
  assert ((32 <=? byte_of c)%N = true) as -> by (by apply N.leb_le).
  assert ((byte_of c <=? 126)%N = true) as -> by (by apply N.leb_le).
  cbn [andb]. unfold GoUtf8.EncodeRune.
  assert ((byte_of c <? 128)%N = true) as -> by (apply N.ltb_lt; lia).
  f_equal. by apply byte_to_ascii_of.
Qed.

Lemma quoteWith_plain s : ∀ fuel,
  String.length s ≤ fuel → allBytes plainByte s = true → quoteWith fuel s = s.
Proof.
  induction s as [|c s IH]; intros fuel Hf Hs.
  - by destruct fuel.
  - destruct fuel as [|fuel]; [simpl in Hf; lia|].
    cbn [allBytes] in Hs. apply andb_true_iff in Hs as [Hc Hs].
    destruct (plainByte_rune c Hc) as [Hlt Hr].
    cbn [GoStrconv.quoteWith]. rewrite Hlt.
    assert ((1 =? 1)%nat && (byte_of c =? GoUtf8.RuneError)%N = false) as ->.
    { cbn. apply N.eqb_neq. apply N.ltb_lt in Hlt. unfold GoUtf8.RuneError. lia. }
    rewrite Hr. cbn [GoStrings.dropBytes]. rewrite IH; [done| |done].
    simpl in Hf. lia.
Qed.

Lemma Quote_plain s :
  allBytes plainByte s = true → Quote s = String dquote (s +:+ str1 dquote).
Proof. intros Hs. unfold GoStrconv.Quote. by rewrite quoteWith_plain. Qed.

End QuoteFacts.

(** ** secret.go: the file written is the file read *)

Section MoreStringFacts.

Implicit Types (s t : string) (c : ascii).

Lemma rev_app_append s t : String.rev_app s t = String.rev s +:+ t.
Proof.
  unfold String.rev. revert t. induction s as [|c s IH]; intros t; [done|].
  cbn [String.rev_app]. rewrite (IH (String c t)), (IH (String c EmptyString)).
  by rewrite str_app_assoc.
Qed.

Lemma rev_cons c s : String.rev (String c s) = String.rev s +:+ str1 c.
Proof. unfold String.rev at 1. cbn [String.rev_app]. apply rev_app_append. Qed.

Lemma rev_append s t : String.rev (s +:+ t) = String.rev t +:+ String.rev s.
Proof.
  induction s as [|c s IH]; [by rewrite str_app_nil_r|].
  by rewrite str_app_cons, !rev_cons, IH, str_app_assoc.
Qed.

Lemma rev_involutive s : String.rev (String.rev s) = s.
Proof.
  induction s as [|c s IH]; [done|]. by rewrite rev_cons, rev_append, IH.
Qed.

Lemma rev_lastByte s c :
  lastByte s = Some c → ∃ r, String.rev s = String c r.
Proof.
  induction s as [|d s IH]; [done|]. destruct s as [|e s].
  - intros [= ->]. by exists EmptyString.
  - intros H. destruct (IH H) as [r Hr]. exists (r +:+ str1 d).
    by rewrite rev_cons, Hr.
Qed.

Lemma lastByte_app s t : t ≠ EmptyString → lastByte (s +:+ t) = lastByte t.
Proof.
  intros Ht. induction s as [|c s IH]; [done|]. rewrite str_app_cons.
  cbn [lastByte]. destruct (s +:+ t) eqn:Hst; [|done].
  destruct s; [|done]. by destruct t.
Qed.

Lemma lastByte_snoc s c : lastByte (s +:+ str1 c) = Some c.
Proof. by rewrite lastByte_app. Qed.

Lemma solidByte_spaceWidth c r :
  solidByte c = true → GoStrings.spaceWidth (String c r) = 0.
Proof.
  destruct c as [[] [] [] [] [] [] [] []]; try discriminate; intros _; done.
Qed.

Lemma solidByte_spaceWidthRev c r :
  solidByte c = true → GoStrings.spaceWidthRev (String c r) = 0.
Proof.
  destruct c as [[] [] [] [] [] [] [] []]; try discriminate; intros _;
    cbn; by repeat case_match.
Qed.

Lemma TrimSpace_solid s :
  startsWith solidByte s = true →
  (∃ c, lastByte s = Some c ∧ solidByte c = true) →
  GoStrings.TrimSpace s = s.
Proof.
  intros Hfirst (c & Hlast & Hc).
  unfold GoStrings.TrimSpace.
  assert (GoStrings.TrimLeftSpace s = s) as ->.
  { unfold GoStrings.TrimLeftSpace. destruct s as [|d s]; [done|].
    cbn [String.length GoStrings.trimWith]. cbn [startsWith] in Hfirst.
    by rewrite solidByte_spaceWidth. }
  unfold GoStrings.TrimRightSpace.
  destruct (rev_lastByte s c Hlast) as [r Hr].
  destruct (String.length s) as [|n] eqn:Hn; [by destruct s|].
  cbn [GoStrings.trimWith]. rewrite Hr, solidByte_spaceWidthRev by done.
  by rewrite <- Hr, rev_involutive.
Qed.

End MoreStringFacts.

Section ScannerFacts.

Implicit Types (s t body : string) (c : ascii) (bodies : list string).

Lemma visible_not_newline c : visibleByte c = true → Ascii.eqb c "010" = false.
Proof.
  intros Hc. apply Ascii.eqb_neq. intros ->. discriminate Hc.
Qed.

Lemma rawLines_joinLines bodies :
  Forall (λ b, allBytes visibleByte b = true) bodies →
  GoBufio.rawLines (joinLines bodies) = bodies.
Proof.
  induction 1 as [|body bodies Hb _ IH]; [done|].
  unfold joinLines in *. cbn [fmap list_fmap foldr] in *.
  rewrite str_app_assoc.
  set (rest := foldr String.append EmptyString _) in *.
  induction body as [|c body IHb].
  - change (EmptyString +:+ newline +:+ rest) with (String "010" rest).
    cbn [GoBufio.rawLines]. cbn [Ascii.eqb Bool.eqb]. by rewrite IH.
  - cbn [allBytes] in Hb. apply andb_true_iff in Hb as [Hc Hb].
    rewrite str_app_cons. cbn [GoBufio.rawLines].
    rewrite (visible_not_newline c Hc), (IHb Hb). done.
Qed.

Lemma dropCR_visible body :
  allBytes visibleByte body = true → GoBufio.dropCR body = body.
Proof.
  induction body as [|c body IH]; [done|]. cbn [allBytes].
  intros [Hc Hb]%andb_true_iff. cbn [GoBufio.dropCR].
  destruct body as [|d body].
  - assert (Ascii.eqb c "013" = false) as ->; [|done].
    apply Ascii.eqb_neq. intros ->. discriminate Hc.
  - by rewrite IH.
Qed.

Lemma Scan_joinLines bodies :
  Forall (λ b, allBytes visibleByte b = true) bodies →
  Forall (λ b, (N.of_nat (String.length b) < GoBufio.MaxScanTokenSize)%N) bodies →
  GoBufio.Scan (joinLines bodies) = (bodies, false).
Proof.
  intros Hv Hl. unfold GoBufio.Scan. rewrite rawLines_joinLines by done.
  induction bodies as [|body bodies IH]; [done|].
  apply Forall_cons in Hv as [Hb Hv]. apply Forall_cons in Hl as [Hlb Hl].
  cbn [GoBufio.scanTokens].
  assert ((GoBufio.MaxScanTokenSize <=? N.of_nat (String.length body))%N = false) as ->.
  { by apply N.leb_gt. }
  by rewrite IH, dropCR_visible.
Qed.

End ScannerFacts.

Section WriterFacts.

Variable isPrintWide : N → bool.

Implicit Types (s t key value body : string) (c : ascii).
Implicit Types (data : gmap string string).

Lemma secretLine_unfold key value :
  secretLine isPrintWide key value =
    (key +:+ "=" +:+ writtenValue isPrintWide value) +:+ newline.
Proof. unfold secretLine, writtenValue, quoteTriggers. by rewrite !str_app_assoc. Qed.

Lemma allBytes_startsWith p s :
  allBytes p s = true → s ≠ EmptyString → startsWith p s = true.
Proof. destruct s as [|c s]; [done|]. cbn. by intros [? ?]%andb_true_iff. Qed.

Lemma allBytes_lastByte p s :
  allBytes p s = true → s ≠ EmptyString → ∃ c, lastByte s = Some c ∧ p c = true.
Proof.
  induction s as [|c s IH]; [done|]. cbn [allBytes].
  intros [Hc Hs]%andb_true_iff _. destruct s as [|d s].
  - by exists c.
  - destruct (IH Hs) as (e & He & Hpe); [done|]. by exists e.
Qed.

Lemma TrimSpace_allSolid s :
  allBytes solidByte s = true → GoStrings.TrimSpace s = s.
Proof.
  intros Hs. destruct (decide (s = EmptyString)) as [->|Hne]; [done|].
  apply TrimSpace_solid; [by apply allBytes_startsWith|by apply allBytes_lastByte].
Qed.

Lemma get_last s c : String.get (String.length s) (s +:+ str1 c) = Some c.
Proof. induction s as [|d s IH]; [done|]. by rewrite str_app_cons. Qed.

Lemma removeQuotes_quoted s :
  removeQuotes (String dquote (s +:+ str1 dquote)) = s.
Proof.
  unfold removeQuotes. cbn [String.length]. rewrite str_length_app.
  cbn [String.length str1]. rewrite Nat.add_1_r.
  cbn [Nat.leb String.get]. 
  replace (S (S (String.length s)) - 1) with (S (String.length s)) by lia.
  cbn [String.get]. rewrite get_last. cbn [Ascii.eqb Bool.eqb andb orb dquote].
  replace (S (S (String.length s)) - 2) with (String.length s) by lia.
  cbn [String.substring]. apply substring_app_length.
Qed.

Lemma removeQuotes_unquoted s :
  startsWith (λ c, negb (Ascii.eqb c dquote) && negb (Ascii.eqb c squote)) s = true →
  removeQuotes s = s.
Proof.
  destruct s as [|c s]; [done|]. cbn [startsWith].
  intros [H1 H2]%andb_true_iff. apply negb_true_iff in H1, H2.
  unfold removeQuotes. destruct (2 <=? String.length (String c s))%nat; [|done].
  cbn [String.get]. rewrite H1, H2. cbn [andb orb].
  by repeat case_match.
Qed.

Lemma plainByte_solid_or_space c :
  plainByte c = true → GoStrings.ContainsByte quoteTriggers c = false →
  solidByte c = true ∧ Ascii.eqb c dquote = false ∧ Ascii.eqb c squote = false.
Proof.
  destruct c as [[] [] [] [] [] [] [] []]; try discriminate; intros _; try discriminate;
    intros _; done.
Qed.

Lemma plainValue_untriggered value :
  plainValue value = true →
  GoStringsMore.ContainsAny value quoteTriggers = false →
  allBytes (λ c, solidByte c && negb (Ascii.eqb c dquote) && negb (Ascii.eqb c squote))
           value = true.
Proof.
  unfold plainValue. induction value as [|c value IH]; [done|].
  cbn [allBytes GoStringsMore.ContainsAny].
  intros [Hc Hv]%andb_true_iff [Hn Hr]%orb_false_iff.
  destruct (plainByte_solid_or_space c Hc Hn) as (-> & -> & ->).
  cbn. by apply IH.
Qed.

Lemma writtenValue_visible value :
  plainValue value = true → allBytes visibleByte (writtenValue isPrintWide value) = true.
Proof.
  intros Hv. unfold writtenValue. destruct (GoStringsMore.ContainsAny _ _).
  - apply Quote_visible.
  - eapply allBytes_impl; [|exact Hv]. intros c Hc. unfold plainByte in Hc.
    by do 3 (apply andb_true_iff in Hc as [Hc _]).
Qed.

Lemma writtenValue_ends value :
  plainValue value = true →
  writtenValue isPrintWide value ≠ EmptyString →
  startsWith solidByte (writtenValue isPrintWide value) = true ∧
  ∃ c, lastByte (writtenValue isPrintWide value) = Some c ∧ solidByte c = true.
Proof.
  intros Hv Hne. unfold writtenValue in *.
  destruct (GoStringsMore.ContainsAny value quoteTriggers) eqn:Ht.
  - rewrite Quote_plain by done. split; [done|]. exists dquote.
    split; [|done]. rewrite <- str_app_cons. apply lastByte_snoc.
  - pose proof (plainValue_untriggered value Hv Ht) as Hs.
    assert (allBytes solidByte value = true) as Hsolid.
    { eapply allBytes_impl; [|exact Hs]. intros c Hc.
      by do 2 (apply andb_true_iff in Hc as [Hc _]). }
    split; [by apply allBytes_startsWith|by apply allBytes_lastByte].
Qed.

Lemma writtenValue_read value :
  plainValue value = true →
  removeQuotes (GoStrings.TrimSpace (writtenValue isPrintWide value)) = value.
Proof.
  intros Hv.
  destruct (decide (writtenValue isPrintWide value = EmptyString)) as [He|Hne].
  - rewrite He. unfold writtenValue in He.
    destruct (GoStringsMore.ContainsAny value quoteTriggers); [done|]. by subst.
  - destruct (writtenValue_ends value Hv Hne) as [Hf Hl].
    rewrite TrimSpace_solid by done. unfold writtenValue in *.
    destruct (GoStringsMore.ContainsAny value quoteTriggers) eqn:Ht.
    + rewrite Quote_plain by done. apply removeQuotes_quoted.
    + apply removeQuotes_unquoted.
      pose proof (plainValue_untriggered value Hv Ht) as Hs.
      apply allBytes_startsWith in Hs; [|done].
      destruct value as [|c value]; [done|]. cbn [startsWith] in *.
      apply andb_true_iff in Hs as [[_ H1]%andb_true_iff H2]. by rewrite H1, H2.
Qed.

End WriterFacts.

Section RoundTrip.

Variable isPrintWide : N → bool.

Implicit Types (s t key value body : string) (c : ascii).
Implicit Types (data : gmap string string) (keys : list string).

Lemma plainKey_facts key :
  plainKey key = true →
  allBytes solidByte key = true ∧ GoStrings.ContainsByte key "=" = false ∧
  GoStrings.HasPrefix key "#" = false.
Proof.
  unfold plainKey. intros [Hall Hp]%andb_true_iff.
  apply negb_true_iff in Hp. split; [|split; [|done]].
  - eapply allBytes_impl; [|exact Hall]. intros c Hc.
    by apply andb_true_iff in Hc as [Hc _].
  - clear Hp. induction key as [|c key IH]; [done|]. cbn [allBytes] in Hall.
    apply andb_true_iff in Hall as [[_ Hc]%andb_true_iff Hall].
    cbn [GoStrings.ContainsByte]. apply negb_true_iff in Hc. by rewrite Hc, IH.
Qed.

Lemma parseLine_written n key value data ty :
  plainKey key = true → plainValue value = true →
  parseLine n (key +:+ "=" +:+ writtenValue isPrintWide value) data ty =
    Ok (<[key := value]> data, ty).
Proof.
  intros Hk Hv. destruct (plainKey_facts key Hk) as (Hsolid & Hno & Hp).
  set (w := writtenValue isPrintWide value).
  set (body := key +:+ "=" +:+ w).
  assert (body = key +:+ String "=" w) as Hbody by done.
  assert (GoStrings.TrimSpace body = body) as Htrim.
  { apply TrimSpace_solid.
    - subst body. destruct key as [|c key]; [done|].
      rewrite str_app_cons. cbn [startsWith]. cbn [allBytes] in Hsolid.
      by apply andb_true_iff in Hsolid as [? _].
    - subst body. rewrite lastByte_app by done.
      destruct (decide (w = EmptyString)) as [->|Hne]; [by exists "="%char|].
      change ("=" +:+ w) with (str1 "=" +:+ w). rewrite lastByte_app by done.
      by apply writtenValue_ends. }
  assert (GoStrings.HasPrefix body "#" = false) as Hhash.
  { subst body. destruct key as [|c key]; [done|].
    rewrite str_app_cons. unfold GoStrings.HasPrefix in *.
    cbn [String.prefix] in *.
    destruct (ascii_dec "#" c); [by destruct key|done]. }
  unfold parseLine. rewrite Htrim, Hhash, andb_false_r. cbn [andb orb].
  assert (String.eqb body EmptyString = false) as ->.
  { apply String.eqb_neq. subst body. by destruct key. }
  cbn [orb]. rewrite Hbody, (SplitN2_app _ _ _ Hno).
  rewrite (TrimSpace_allSolid key Hsolid). subst w.
  by rewrite writtenValue_read.
Qed.

Lemma parseLines_written (f : string → string) keys : ∀ n data ty,
  Forall (λ k, plainKey k = true ∧ plainValue (f k) = true) keys →
  parseLines ((λ k, k +:+ "=" +:+ writtenValue isPrintWide (f k)) <$> keys) n data ty =
    Ok (foldl (λ m k, <[k := f k]> m) data keys, ty).
Proof.
  induction keys as [|k keys IH]; intros n data ty Hall; [done|].
  apply Forall_cons in Hall as [[Hk Hv] Hall].
  rewrite fmap_cons. cbn [parseLines foldl].
  rewrite parseLine_written by done. by apply IH.
Qed.

Lemma foldl_insert_lookup (f : string → string) keys : ∀ data k,
  foldl (λ m k, <[k := f k]> m) data keys !! k =
    if decide (k ∈ keys) then Some (f k) else data !! k.
Proof.
  induction keys as [|k0 keys IH]; intros data k; [done|].
  cbn [foldl]. rewrite IH.
  destruct (decide (k ∈ keys)) as [Hin|Hout].
  - rewrite decide_True; [done|by right].
  - destruct (decide (k = k0)) as [->|Hne].
    + rewrite decide_True by (by left). apply lookup_insert_eq.
    + rewrite decide_False; [by apply lookup_insert_ne|].
      intros [?|?]%elem_of_cons; done.
Qed.

Lemma foldl_insert_all data keys :
  keys ≡ₚ elements (dom data) →
  foldl (λ m k, <[k := (mapIndex data k).1]> m) ∅ keys = data.
Proof.
  intros Hp. apply map_eq. intros k. rewrite foldl_insert_lookup.
  destruct (decide (k ∈ keys)) as [Hin|Hout].
  - rewrite Hp, elem_of_elements, elem_of_dom in Hin. destruct Hin as [v Hv].
    unfold mapIndex. by rewrite Hv.
  - rewrite Hp, elem_of_elements, not_elem_of_dom in Hout. by rewrite Hout.
Qed.

Lemma skipSpace_solid s :
  startsWith solidByte s = true → GoRegexp.skipSpace s = s.
Proof.
  destruct s as [|c s]; [done|]. cbn [startsWith GoRegexp.skipSpace].
  intros Hc. assert (GoRegexp.reSpace c = false) as ->; [|done].
  revert Hc. destruct c as [[] [] [] [] [] [] [] []]; try discriminate; done.
Qed.

Lemma upToNewline_visible s :
  allBytes visibleByte s = true → GoRegexp.upToNewline s = s.
Proof.
  induction s as [|c s IH]; [done|]. cbn [allBytes].
  intros [Hc Hs]%andb_true_iff. cbn [GoRegexp.upToNewline].
  by rewrite (visible_not_newline c Hc), IH.
Qed.

Lemma solid_visible s : allBytes solidByte s = true → allBytes visibleByte s = true.
Proof.
  apply allBytes_impl. intros c. unfold solidByte, visibleByte.
  intros [H1 H2]%andb_true_iff. apply N.leb_le in H1. apply N.leb_le. lia.
Qed.

Lemma parseLine_typeComment alias data ty :
  allBytes solidByte alias = true → alias ≠ EmptyString →
  parseLine 1 ("# type=" +:+ alias) data ty = Ok (data, alias).
Proof.
  intros Hs Hne.
  assert (GoStrings.TrimSpace ("# type=" +:+ alias) = "# type=" +:+ alias) as Htrim.
  { apply TrimSpace_solid; [done|]. rewrite lastByte_app by done.
    by apply allBytes_lastByte. }
  assert (extractTypeFromComment ("# type=" +:+ alias) = alias) as Hex.
  { unfold extractTypeFromComment.
    assert (GoRegexp.findTypeDirective ("# type=" +:+ alias) =
      match GoRegexp.skipSpace alias with
      | EmptyString => str1 <$> GoRegexp.lastNonNewline alias
      | r3 => Some (GoRegexp.upToNewline r3)
      end) as -> by reflexivity.
    rewrite skipSpace_solid by (by apply allBytes_startsWith).
    destruct alias as [|c alias0] eqn:Ha; [done|]. rewrite <- Ha in *.
    rewrite upToNewline_visible by (by apply solid_visible).
    by apply TrimSpace_allSolid. }
  unfold parseLine. rewrite Htrim, Hex.
  apply String.eqb_neq in Hne. rewrite Hne. done.
Qed.

End RoundTrip.

Section FileRoundTrip.

Variable isPrintWide : N → bool.

Lemma concat_lines_app (l1 l2 : list string) :
  foldr String.append EmptyString (l1 ++ l2) =
    foldr String.append EmptyString l1 +:+ foldr String.append EmptyString l2.
Proof.
  induction l1 as [|x l1 IH]; [done|]. cbn [app foldr]. by rewrite IH, str_app_assoc.
Qed.

Local Abbreviation fileBodies := (fileBodies isPrintWide).

Lemma secretFileText_joinLines secretType data :
  secretFileText isPrintWide secretType data = joinLines (fileBodies secretType data).
Proof.
  unfold secretFileText, secretFileLines, joinLines, fileBodies, typeComment.
  rewrite fmap_app, !concat_lines_app. f_equal.
  - by destruct (negb _ && negb _).
  - f_equal. rewrite <- list_fmap_compose. apply list_fmap_ext.
    intros i k _. cbn. apply secretLine_unfold.
Qed.

Lemma typeAlias_facts secretType :
  plainType secretType = true →
  allBytes solidByte (typeAlias secretType) = true ∧
  typeAlias secretType ≠ EmptyString ∧
  mapSecretType (typeAlias secretType) = secretType ∧
  String.length (typeAlias secretType) ≤ String.length secretType ∧
  String.eqb secretType "generic" = false.
Proof.
  unfold plainType. intros [Hs Hm]%andb_true_iff. apply String.eqb_eq in Hm.
  unfold typeAlias.
  repeat match goal with
  | |- context [String.eqb secretType ?x] =>
    destruct (String.eqb_spec secretType x) as [->|?]
  end; try (repeat split; (done || cbn; lia)); try discriminate Hm.
  repeat split; try done.
  intros ->. discriminate Hm.
Qed.

Lemma length_writtenValue value :
  plainValue value = true →
  String.length (writtenValue isPrintWide value) ≤ String.length value + 2.
Proof.
  intros Hv. unfold writtenValue. destruct (GoStringsMore.ContainsAny _ _); [|lia].
  rewrite Quote_plain by done. cbn [String.length]. rewrite str_length_app. cbn. lia.
Qed.

(** X12. Round trip of the file format: for a type that is its own canonical
    name and entries whose keys are printable ASCII without space or =, not
    starting with #, and whose values are printable ASCII without double quote
    or backslash (lines below the scanner's limit), parseSecretContent of the
    text that WriteSecretFile writes returns the same entries and the same
    type. *)
Theorem written_file_reads_back (secretType : string) (data : gmap string string) :
  plainType secretType = true →
  (N.of_nat (String.length secretType) + 7 < GoBufio.MaxScanTokenSize)%N →
  (∀ key value,
      data !! key = Some value →
      plainKey key = true ∧ plainValue value = true ∧
      (N.of_nat (String.length key + String.length value) + 3
       < GoBufio.MaxScanTokenSize)%N) →
  parseSecretContent (secretFileText isPrintWide secretType data) =
    Ok (data, secretType).
Proof.
  intros Hty Htylen Hdata.
  destruct (typeAlias_facts secretType Hty) as (Ha1 & Ha2 & Ha3 & Ha4 & Hgen).
  set (keys := sortKeys (elements (dom data))).
  assert (keys ≡ₚ elements (dom data)) as Hperm.
  { subst keys. rewrite sortKeys_sortStrings. apply sortStrings_Permutation. }
  assert (Forall (λ k, plainKey k = true ∧ plainValue (mapIndex data k).1 = true ∧
                       (N.of_nat (String.length k + String.length (mapIndex data k).1) + 3
                        < GoBufio.MaxScanTokenSize)%N) keys) as Hkeys.
  { apply Forall_forall. intros k Hk.
    rewrite Hperm, elem_of_elements, elem_of_dom in Hk. destruct Hk as [v Hv].
    unfold mapIndex. rewrite Hv. cbn [fst]. by apply Hdata. }
  set (keyBodies := (λ key, key +:+ "=" +:+ writtenValue isPrintWide (mapIndex data key).1)
                      <$> keys).
  assert (Forall (λ b, allBytes visibleByte b = true) keyBodies) as Hkv.
  { subst keyBodies. apply Forall_fmap. eapply Forall_impl; [exact Hkeys|].
    intros k (Hk & Hv & _). cbn.
    destruct (plainKey_facts k Hk) as (Hsolid & _ & _).
    rewrite !allBytes_app, (solid_visible k Hsolid), writtenValue_visible by done.
    done. }
  assert (Forall (λ b, (N.of_nat (String.length b) < GoBufio.MaxScanTokenSize)%N)
                 keyBodies) as Hkl.
  { subst keyBodies. apply Forall_fmap. eapply Forall_impl; [exact Hkeys|].
    intros k (Hk & Hv & Hlen). cbn.
    rewrite !str_length_app. pose proof (length_writtenValue _ Hv).
    change (String.length "=") with 1. lia. }
  assert (parseLines keyBodies 1 ∅ (typeAlias secretType) = Ok (data, typeAlias secretType)
          ∧ parseLines keyBodies 0 ∅ "Opaque" = Ok (data, "Opaque")) as [Hp1 Hp0].
  { subst keyBodies.
    rewrite !(parseLines_written isPrintWide (λ k, (mapIndex data k).1)).
    - by rewrite foldl_insert_all.
    - eapply Forall_impl; [exact Hkeys|]. by intros k (? & ? & _).
    - eapply Forall_impl; [exact Hkeys|]. by intros k (? & ? & _). }
  rewrite secretFileText_joinLines. unfold fileBodies. fold keys. fold keyBodies.
  rewrite Hgen, andb_true_r.
  destruct (String.eqb_spec secretType "Opaque") as [->|Hne]; cbn [negb app].
  - rewrite (parseSecretContent_unfold _ keyBodies false);
      [|by apply Scan_joinLines].
    by rewrite Hp0.
  - rewrite (parseSecretContent_unfold _ (("# type=" +:+ typeAlias secretType) :: keyBodies)
               false).
    + cbn [parseLines]. rewrite parseLine_typeComment by done.
      rewrite Hp1. cbn [finishParse]. by rewrite Ha3.
    + apply Scan_joinLines.
      * constructor; [|done]. rewrite allBytes_app.
        rewrite (solid_visible _ Ha1). done.
      * constructor; [|done]. rewrite str_length_app.
        change (String.length "# type=") with 7. lia.
Qed.

End FileRoundTrip.

Lemma written_file_reads_back_witness :
  parseSecretContent
    (secretFileText (λ _, true) "kubernetes.io/tls" {[ "K" := "a b" ]}) =
    Ok ({[ "K" := "a b" ]}, "kubernetes.io/tls").
Proof.
  apply (written_file_reads_back (λ _, true) "kubernetes.io/tls" {[ "K" := "a b" ]}).
  - reflexivity.
  - reflexivity.
  - intros key value [<- <-]%lookup_singleton_Some.
    split; [reflexivity|]. split; reflexivity.
Defined.

(** ** secret.go: the detection of encrypted files *)

Section ContainsFacts.

Implicit Types (s t a b sub : string).

Lemma prefix_iff sub s : String.prefix sub s = true ↔ ∃ b, s = sub +:+ b.
Proof.
  revert s. induction sub as [|c sub IH]; intros s.
  - split; [intros _; by exists s|]. intros _. by destruct s.
  - destruct s as [|d s]; cbn [String.prefix].
    + split; [done|]. intros [b Hb]. discriminate Hb.
    + destruct (ascii_dec c d) as [->|Hne].
      * rewrite IH. split; intros [b Hb]; exists b.
        -- by rewrite str_app_cons, Hb.
        -- rewrite str_app_cons in Hb. by injection Hb.
      * split; [done|]. intros [b Hb]. rewrite str_app_cons in Hb. congruence.
Qed.

Lemma Contains_iff s sub :
  GoStringsMore.Contains s sub = true ↔ ∃ a b, s = a +:+ sub +:+ b.
Proof.
  induction s as [|c s IH]; cbn [GoStringsMore.Contains].
  - rewrite orb_false_r, prefix_iff. split.
    + intros [b Hb]. by exists EmptyString, b.
    + intros (a & b & Hab). destruct a; [by exists b|discriminate Hab].
  - rewrite orb_true_iff, prefix_iff, IH. split.
    + intros [[b Hb]|(a & b & Hab)].
      * by exists EmptyString, b.
      * exists (String c a), b. by rewrite str_app_cons, Hab.
    + intros (a & b & Hab). destruct a as [|d a].
      * left. by exists b.
      * right. rewrite str_app_cons in Hab. injection Hab as -> ->. by exists a, b.
Qed.

End ContainsFacts.

Lemma isSOPSEncrypted_iff (content : string) :
  isSOPSEncrypted content = true ↔
  ∃ marker a b, marker ∈ sopsMarkers ∧ content = a +:+ marker +:+ b.
Proof.
  unfold isSOPSEncrypted, sopsMarkers.
  rewrite !orb_true_iff, !Contains_iff. split.
  - intros [[(a & b & H)|(a & b & H)]|(a & b & H)]; eexists _, a, b;
      (split; [|exact H]); set_solver.
  - intros (marker & a & b & Hin & Hab).
    apply elem_of_cons in Hin as [->|Hin]; [left; left; eauto|].
    apply elem_of_cons in Hin as [->|Hin]; [left; right; eauto|].
    apply elem_of_cons in Hin as [->|Hin]; [right; eauto|].
    by apply elem_of_nil in Hin.
Qed.

(** X13. isSOPSEncrypted answers true exactly when the content holds one of
    sops_, sops: or ENC[AES256_GCM, anywhere, so content that is detected
    stays detected whatever is put before or after it. *)
Theorem sops_detection_by_substring (content : string) :
  (isSOPSEncrypted content = true ↔
   ∃ marker a b, marker ∈ sopsMarkers ∧ content = a +:+ marker +:+ b)
  ∧
  (isSOPSEncrypted content = true →
   ∀ before after, isSOPSEncrypted (before +:+ content +:+ after) = true).
Proof.
  split; [apply isSOPSEncrypted_iff|].
  intros Henc before after. apply isSOPSEncrypted_iff.
  apply isSOPSEncrypted_iff in Henc as (marker & a & b & Hin & ->).
  exists marker, (before +:+ a), (b +:+ after). split; [done|].
  by rewrite !str_app_assoc.
Qed.

(** ** One line for each entry *)

Section LineFacts.

Variable isPrintWide : N → bool.

Implicit Types (s t body key value : string) (bodies : list string).

Lemma oneLine_app s t : oneLine (s +:+ t) = oneLine s && oneLine t.
Proof.
  unfold oneLine. induction s as [|c s IH]; [done|].
  rewrite str_app_cons. cbn [GoStrings.ContainsByte].
  rewrite !negb_orb in *. by rewrite IH, andb_assoc.
Qed.

Lemma visible_oneLine s : allBytes visibleByte s = true → oneLine s = true.
Proof.
  unfold oneLine. induction s as [|c s IH]; [done|]. cbn [allBytes].
  intros [Hc Hs]%andb_true_iff. cbn [GoStrings.ContainsByte].
  rewrite (visible_not_newline c Hc). by apply IH.
Qed.

Lemma rawLines_oneLine bodies :
  Forall (λ b, oneLine b = true) bodies →
  GoBufio.rawLines (joinLines bodies) = bodies.
Proof.
  induction 1 as [|body bodies Hb _ IH]; [done|].
  unfold joinLines in *. cbn [fmap list_fmap foldr] in *.
  rewrite str_app_assoc.
  set (rest := foldr String.append EmptyString _) in *.
  induction body as [|c body IHb].
  - change (EmptyString +:+ newline +:+ rest) with (String "010" rest).
    cbn [GoBufio.rawLines]. cbn [Ascii.eqb Bool.eqb]. by rewrite IH.
  - unfold oneLine in Hb. cbn [GoStrings.ContainsByte] in Hb.
    rewrite negb_orb in Hb. apply andb_true_iff in Hb as [Hc Hb].
    apply negb_true_iff in Hc.
    rewrite str_app_cons. cbn [GoBufio.rawLines].
    rewrite Hc, (IHb Hb). done.
Qed.

Lemma writtenValue_oneLine value : oneLine (writtenValue isPrintWide value) = true.
Proof.
  unfold writtenValue.
  destruct (GoStringsMore.ContainsAny value quoteTriggers) eqn:Ht.
  - apply visible_oneLine, Quote_visible.
  - unfold oneLine. apply negb_true_iff.
    induction value as [|c value IH]; [done|].
    cbn [GoStringsMore.ContainsAny] in Ht.
    apply orb_false_iff in Ht as [Hc Ht]. cbn [GoStrings.ContainsByte].
    rewrite (IH Ht), orb_false_r.
    apply Ascii.eqb_neq. intros ->. discriminate Hc.
Qed.

Lemma typeAlias_oneLine secretType :
  oneLine secretType = true → oneLine (typeAlias secretType) = true.
Proof.
  intros H. unfold typeAlias.
  repeat match goal with
  | |- context [if ?b then _ else _] => destruct b; [done|]
  end. done.
Qed.

End LineFacts.

(** X14. A quoted value (%q) holds no control byte, so no newline. Hence, when
    the type and the keys hold no newline, the text of WriteSecretFile splits
    into exactly one line per entry after the optional type line, and the
    manifest of a secret whose name, namespace, type and keys hold no newline
    has exactly seven lines followed by one line per entry, whatever the
    values are. *)
Theorem values_stay_on_their_line (isPrintWide : N → bool)
    (secretType : string) (data : gmap string string) (secret : Secret) :
  (∀ value, allBytes visibleByte (GoStrconv.Quote isPrintWide value) = true)
  ∧
  (oneLine secretType = true →
   (∀ key, key ∈ dom data → oneLine key = true) →
   GoBufio.rawLines (secretFileText isPrintWide secretType data) =
     fileBodies isPrintWide secretType data ∧
   length (fileBodies isPrintWide secretType data) =
     length (typeComment secretType) + size data)
  ∧
  (oneLine (Name secret) = true → oneLine (Namespace secret) = true →
   oneLine (Type_ secret) = true →
   (∀ key, key ∈ dom data → oneLine key = true) →
   manifestLines isPrintWide secret data =
     (λ b, b +:+ newline) <$> manifestBodies isPrintWide secret data ∧
   GoBufio.rawLines (joinLines (manifestBodies isPrintWide secret data)) =
     manifestBodies isPrintWide secret data ∧
   length (manifestBodies isPrintWide secret data) = 7 + size data).
Proof.
  split; [apply Quote_visible|]. split.
  - intros Hty Hkeys.
    assert (length (sortKeys (elements (dom data))) = size data) as Hlen.
    { rewrite sortKeys_sortStrings.
      rewrite (Permutation_length (sortStrings_Permutation _)).
      by rewrite <- size_dom. }
    split.
    + rewrite secretFileText_joinLines. apply rawLines_oneLine.
      unfold fileBodies. apply Forall_app. split.
      * destruct (negb _ && negb _); [|constructor].
        constructor; [|constructor].
        rewrite oneLine_app. by rewrite typeAlias_oneLine.
      * apply Forall_fmap, Forall_forall. intros k Hk. cbn.
        rewrite sortKeys_sortStrings, sortStrings_Permutation, elem_of_elements in Hk.
        rewrite !oneLine_app, (Hkeys k Hk), writtenValue_oneLine. done.
    + unfold fileBodies, typeComment. rewrite length_app, length_fmap, Hlen.
      by destruct (negb _ && negb _).
  - intros Hn Hns Hty Hkeys. split; [|split].
    + unfold manifestLines, manifestBodies. rewrite fmap_app. f_equal.
      rewrite <- list_fmap_compose. apply list_fmap_ext. intros i k _.
      cbn [compose]. by rewrite !str_app_assoc.
    + apply rawLines_oneLine. unfold manifestBodies. apply Forall_app. split.
      * repeat (constructor; [by rewrite ?oneLine_app, ?Hn, ?Hns, ?Hty|]). constructor.
      * apply Forall_fmap, Forall_forall. intros k Hk. cbn.
        rewrite sortStrings_Permutation, elem_of_elements in Hk.
        rewrite !oneLine_app, (Hkeys k Hk).
        by rewrite (visible_oneLine _ (Quote_visible isPrintWide _)).
    + unfold manifestBodies. rewrite length_app, length_fmap.
      rewrite (Permutation_length (sortStrings_Permutation _)).
      cbn [length]. by rewrite <- size_dom.
Qed.

(** ** handle_manifest.go: the manifests printed *)

Section ManifestFacts.

Context {Disk : Type}.
Variable osStat : Disk → string → result StatError bool.
Variable osReadFile : Disk → string → result string string.
Variable sopsDecrypt : Disk → string → result (string * string) string.
Variable walkVisits : Disk → string → list WalkVisit.
Variable environ : gmap string string.
Variable isPrintWide : N → bool.

Local Abbreviation LoadSecretsFromPath :=
  (LoadSecretsFromPath osStat osReadFile sopsDecrypt walkVisits environ).
Local Abbreviation handleManifest :=
  (handleManifest osStat osReadFile sopsDecrypt walkVisits environ isPrintWide).

Implicit Types (secret : Secret) (secrets : list Secret) (out : list string).

Lemma manifestLoop_ok secrets : ∀ i out,
  Forall (λ s, is_ok (ToKubernetesData s) = true) secrets →
  manifestLoop isPrintWide (S i) secrets out =
    (None, out ++ flat_map (λ s, manifestSeparator :: manifestDoc isPrintWide s) secrets).
Proof.
  induction secrets as [|s rest IH]; intros i out Hall.
  - by rewrite app_nil_r.
  - apply Forall_cons in Hall as [Hs Hall]. cbn [manifestLoop flat_map].
    unfold manifestDoc at 1.
    destruct (ToKubernetesData s) as [d|e]; [|done].
    rewrite IH by done. cbn [Nat.ltb Nat.leb]. by rewrite <- !app_assoc.
Qed.

Lemma manifestLoop_err secrets : ∀ i out j secret e,
  secrets !! j = Some secret →
  ToKubernetesData secret = Err e →
  (∀ k s, k < j → secrets !! k = Some s → is_ok (ToKubernetesData s) = true) →
  manifestLoop isPrintWide (S i) secrets out =
    (Some ("failed to convert " +:+ Namespace secret +:+ "/" +:+ Name secret
           +:+ ": " +:+ e),
     out ++ flat_map (λ s, manifestSeparator :: manifestDoc isPrintWide s)
                     (take j secrets)
         ++ [manifestSeparator]).
Proof.
  induction secrets as [|s rest IH]; intros i out j secret e Hj He Hbefore.
  - by rewrite lookup_nil in Hj.
  - destruct j as [|j]; cbn [manifestLoop].
    + injection Hj as ->. rewrite He. done.
    + assert (is_ok (ToKubernetesData s) = true) as Hs
        by (apply (Hbefore 0); [lia|done]).
      cbn [take flat_map]. unfold manifestDoc at 1.
      destruct (ToKubernetesData s) as [d|e']; [|done].
      rewrite (IH (S i) _ j secret e Hj He).
      * cbn [Nat.ltb Nat.leb]. by rewrite <- !app_assoc.
      * intros k s' Hk Hs'. apply (Hbefore (S k)); [lia|done].
Qed.

(** X15. When the secrets load and there is at least one: if every secret
    converts, handleManifest returns no error and prints the manifests in
    order with a --- line between two of them; at the first secret that does
    not convert it returns the error naming that secret, after the manifests
    of the secrets before it and, when there is one before it, the separator
    already printed. *)
Theorem manifest_documents (d : Disk) (path : string) (secrets : list Secret) :
  LoadSecretsFromPath d path = Ok secrets →
  secrets ≠ [] →
  (Forall (λ s, is_ok (ToKubernetesData s) = true) secrets →
   handleManifest d path = (None, manifestDocs isPrintWide secrets))
  ∧
  (∀ j secret e,
      secrets !! j = Some secret →
      ToKubernetesData secret = Err e →
      (∀ k s, k < j → secrets !! k = Some s → is_ok (ToKubernetesData s) = true) →
      handleManifest d path =
        (Some ("failed to convert " +:+ Namespace secret +:+ "/" +:+ Name secret
               +:+ ": " +:+ e),
         manifestDocs isPrintWide (take j secrets)
         ++ (if (0 <? j)%nat then [manifestSeparator] else []))).
Proof.
  intros Hload Hne. unfold handleManifest. rewrite Hload.
  destruct secrets as [|s0 rest]; [done|]. cbn [length Nat.eqb]. split.
  - intros [Hs Hall]%Forall_cons. cbn [manifestLoop manifestDocs].
    unfold manifestDoc at 1.
    destruct (ToKubernetesData s0) as [d0|e]; [|done].
    by rewrite manifestLoop_ok.
  - intros j secret e Hj He Hbefore. destruct j as [|j]; cbn [manifestLoop].
    + injection Hj as ->. by rewrite He.
    + assert (is_ok (ToKubernetesData s0) = true) as Hs
        by (apply (Hbefore 0); [lia|done]).
      cbn [take manifestDocs]. unfold manifestDoc at 1.
      destruct (ToKubernetesData s0) as [d0|e']; [|done].
      rewrite (manifestLoop_err rest 0 _ j secret e Hj He).
      * cbn [Nat.ltb Nat.leb app]. by rewrite <- !app_assoc.
      * intros k s' Hk Hs'. apply (Hbefore (S k)); [lia|done].
Qed.

End ManifestFacts.

Lemma manifest_documents_witness :
  handleManifest exampleStat exampleReadFile exampleDecrypt exampleWalk ∅
    (λ _, true) tt "secrets/test/dotenv.env" =
    (None, manifestDocs (λ _, true) [oneKeySecret]).
Proof.
  refine (proj1 (manifest_documents exampleStat exampleReadFile exampleDecrypt
                   exampleWalk ∅ (λ _, true) tt "secrets/test/dotenv.env"
                   [oneKeySecret] _ _) _).
  - vm_compute. reflexivity.
  - discriminate.
  - repeat constructor.
Defined.

(** ** Paths: the namespace and the name of a secret *)

Section PathFacts.

Implicit Types (s t e rest out : string) (elems : list string).

Lemma spanElement_app e rest :
  GoStrings.ContainsByte e "/" = false →
  startsWith (λ c, negb (GoPath.isSep c)) rest = false →
  GoPath.spanElement (e +:+ rest) = (e, rest).
Proof.
  intros He Hr. induction e as [|c e IH].
  - rewrite str_app_nil_l. destruct rest as [|d rest]; [done|].
    cbn [startsWith] in Hr. apply negb_false_iff in Hr.
    cbn [GoPath.spanElement]. by rewrite Hr.
  - cbn [GoStrings.ContainsByte] in He. apply orb_false_iff in He as [Hc He].
    rewrite str_app_cons. cbn [GoPath.spanElement]. unfold GoPath.isSep at 1.
    by rewrite Hc, IH.
Qed.

Lemma plainElem_facts e :
  plainElem e = true →
  e ≠ EmptyString ∧ GoStrings.ContainsByte e "/" = false ∧ e ≠ "." ∧ e ≠ "..".
Proof.
  unfold plainElem. intros H.
  apply andb_true_iff in H as [[[H1 H2]%andb_true_iff H3]%andb_true_iff H4].
  apply negb_true_iff in H1, H2, H3, H4.
  by apply String.eqb_neq in H1, H3, H4.
Qed.

(** One turn of the loop on a plain element. *)
Lemma cleanLoop_element fuel e rest out :
  plainElem e = true →
  startsWith (λ c, negb (GoPath.isSep c)) rest = false →
  GoPath.cleanLoop (S fuel) false (e +:+ rest) out 0 =
    GoPath.cleanLoop fuel false rest
      ((if negb (String.length out =? 0)%nat then out +:+ "/" else out) +:+ e) 0.
Proof.
  intros (Hne & Hno & Hdot & Hdd)%plainElem_facts Hrest.
  pose proof (spanElement_app e rest Hno Hrest) as Hspan.
  destruct e as [|c e]; [done|]. rewrite str_app_cons in *.
  cbn [GoStrings.ContainsByte] in Hno. apply orb_false_iff in Hno as [Hc Hno].
  cbn [GoPath.cleanLoop]. unfold GoPath.isSep at 1. rewrite Hc.
  assert (Ascii.eqb c "."
          && match e +:+ rest with
             | EmptyString => true
             | String d _ => GoPath.isSep d
             end = false) as ->.
  { destruct (Ascii.eqb_spec c ".") as [->|]; [|done]. cbn [andb].
    destruct e as [|d e]; [done|]. rewrite str_app_cons. unfold GoPath.isSep.
    cbn [GoStrings.ContainsByte] in Hno. by apply orb_false_iff in Hno as [-> _]. }
  assert (Ascii.eqb c "."
          && match e +:+ rest with
             | String "." EmptyString => true
             | String "." (String d _) => GoPath.isSep d
             | _ => false
             end = false) as ->.
  { destruct (Ascii.eqb_spec c ".") as [->|]; [|done]. cbn [andb].
    destruct e as [|d e]; [done|]. rewrite str_app_cons.
    destruct (Ascii.eqb_spec d ".") as [->|Hd].
    - destruct e as [|d2 e]; [done|]. rewrite str_app_cons. unfold GoPath.isSep.
      cbn [GoStrings.ContainsByte] in Hno.
      apply orb_false_iff in Hno as [_ [Hd2 _]%orb_false_iff].
      by rewrite Hd2.
    - destruct d as [[] [] [] [] [] [] [] []]; try done. }
  cbn [andb orb negb]. rewrite Hspan. done.
Qed.

Lemma cleanLoop_sep fuel rest out dotdot rooted :
  GoPath.cleanLoop (S fuel) rooted (String "/" rest) out dotdot =
    GoPath.cleanLoop fuel rooted rest out dotdot.
Proof. done. Qed.

Lemma cleanLoop_nil fuel out dotdot rooted :
  GoPath.cleanLoop fuel rooted EmptyString out dotdot = out.
Proof. by destruct fuel. Qed.

Lemma joinElems_cons e e2 elems :
  GoPath.joinElems (e :: e2 :: elems) = e +:+ String "/" (GoPath.joinElems (e2 :: elems)).
Proof. done. Qed.

Lemma cleanLoop_plain elems : ∀ fuel out,
  Forall (λ e, plainElem e = true) elems → elems ≠ [] →
  String.length (GoPath.joinElems elems) ≤ fuel →
  GoPath.cleanLoop fuel false (GoPath.joinElems elems) out 0 =
    (if negb (String.length out =? 0)%nat then out +:+ "/" else out)
    +:+ GoPath.joinElems elems.
Proof.
  induction elems as [|e elems IH]; intros fuel out Hall Hne Hfuel; [done|].
  apply Forall_cons in Hall as [He Hall].
  pose proof (plainElem_facts e He) as (Hene & _).
  destruct elems as [|e2 elems].
  - cbn [GoPath.joinElems] in *.
    destruct fuel as [|fuel]; [destruct e; [done|simpl in Hfuel; lia]|].
    rewrite <- (str_app_nil_r e) at 1.
    rewrite cleanLoop_element by done. by rewrite cleanLoop_nil.
  - rewrite joinElems_cons in *. rewrite str_length_app in Hfuel.
    cbn [String.length] in Hfuel.
    assert (1 ≤ String.length e) by (destruct e; [done|simpl; lia]).
    destruct fuel as [|[|fuel]]; [lia|lia|].
    rewrite cleanLoop_element by done. rewrite cleanLoop_sep.
    rewrite IH; [|done|done|lia].
    set (out1 := if negb (String.length out =? 0)%nat then out +:+ "/" else out).
    assert (negb (String.length (out1 +:+ e) =? 0)%nat = true) as ->.
    { rewrite str_length_app. apply negb_true_iff, Nat.eqb_neq. lia. }
    rewrite !str_app_assoc. done.
Qed.

Lemma Clean_plain elems :
  Forall (λ e, plainElem e = true) elems → elems ≠ [] →
  GoPath.Clean (GoPath.joinElems elems) = GoPath.joinElems elems.
Proof.
  intros Hall Hne. unfold GoPath.Clean.
  destruct (GoPath.joinElems elems) as [|c r] eqn:Hj.
  { destruct elems as [|e [|e2 elems]]; [done| |].
    - apply Forall_cons in Hall as [He _]. apply plainElem_facts in He as (? & _).
      cbn in Hj. congruence.
    - rewrite joinElems_cons in Hj. by destruct e. }
  assert (GoPath.isSep c = false) as ->.
  { destruct elems as [|e elems]; [done|].
    apply Forall_cons in Hall as [He _].
    apply plainElem_facts in He as (Hene & Hno & _).
    destruct e as [|c' e]; [done|].
    cbn [GoStrings.ContainsByte] in Hno. apply orb_false_iff in Hno as [Hc _].
    destruct elems; [cbn in Hj|rewrite joinElems_cons, str_app_cons in Hj];
      injection Hj as -> _; done. }
  rewrite <- Hj. rewrite cleanLoop_plain by done. cbn [String.length Nat.eqb negb].
  rewrite str_app_nil_l, Hj. done.
Qed.

Lemma Split_single e :
  GoStrings.ContainsByte e "/" = false → GoStringsMore.Split e "/" = [e].
Proof.
  induction e as [|c e IH]; [done|]. cbn [GoStrings.ContainsByte].
  intros [Hc He]%orb_false_iff. cbn [GoStringsMore.Split]. by rewrite Hc, IH.
Qed.

Lemma Split_app e rest :
  GoStrings.ContainsByte e "/" = false →
  GoStringsMore.Split (e +:+ String "/" rest) "/" = e :: GoStringsMore.Split rest "/".
Proof.
  induction e as [|c e IH]; [done|]. cbn [GoStrings.ContainsByte].
  intros [Hc He]%orb_false_iff. rewrite str_app_cons. cbn [GoStringsMore.Split].
  by rewrite Hc, IH.
Qed.

Lemma Split_join elems :
  Forall (λ e, plainElem e = true) elems → elems ≠ [] →
  GoStringsMore.Split (GoPath.joinElems elems) "/" = elems.
Proof.
  induction elems as [|e elems IH]; intros Hall Hne; [done|].
  apply Forall_cons in Hall as [He Hall].
  apply plainElem_facts in He as (_ & Hno & _).
  destruct elems as [|e2 elems].
  - by apply Split_single.
  - rewrite joinElems_cons, Split_app by done. by rewrite IH.
Qed.

Lemma pathParts_plain elems :
  Forall (λ e, plainElem e = true) elems → elems ≠ [] →
  GoPath.pathParts (GoPath.joinElems elems) = elems.
Proof.
  intros Hall Hne. unfold GoPath.pathParts.
  by rewrite Clean_plain, Split_join.
Qed.

End PathFacts.

Section ExtFacts.

Implicit Types (s t stem ext name : string).

Lemma extRev_app r rest :
  GoStrings.ContainsByte r "/" = false → GoStrings.ContainsByte r "." = false →
  GoPath.extRev (r +:+ String "." rest) = Some ("." +:+ String.rev r).
Proof.
  induction r as [|c r IH]; [done|]. cbn [GoStrings.ContainsByte].
  intros [Hc1 Hr1]%orb_false_iff [Hc2 Hr2]%orb_false_iff.
  rewrite str_app_cons. cbn [GoPath.extRev]. unfold GoPath.isSep.
  rewrite Hc1, Hc2, IH by done. rewrite rev_cons.
  cbn [fmap option_fmap option_map]. by rewrite str_app_assoc.
Qed.

Lemma extRev_none r :
  GoStrings.ContainsByte r "." = false → GoPath.extRev r = None.
Proof.
  induction r as [|c r IH]; [done|]. cbn [GoStrings.ContainsByte].
  intros [Hc Hr]%orb_false_iff. cbn [GoPath.extRev]. rewrite Hc, IH by done.
  by destruct (GoPath.isSep c).
Qed.

Lemma ContainsByte_app s t c :
  GoStrings.ContainsByte (s +:+ t) c =
    GoStrings.ContainsByte s c || GoStrings.ContainsByte t c.
Proof.
  induction s as [|d s IH]; [done|]. rewrite str_app_cons.
  cbn [GoStrings.ContainsByte]. by rewrite IH, orb_assoc.
Qed.

Lemma ContainsByte_rev s c :
  GoStrings.ContainsByte (String.rev s) c = GoStrings.ContainsByte s c.
Proof.
  induction s as [|d s IH]; [done|]. rewrite rev_cons, ContainsByte_app, IH.
  cbn [GoStrings.ContainsByte str1]. rewrite orb_false_r. apply orb_comm.
Qed.

Lemma Ext_dot stem ext :
  GoStrings.ContainsByte ext "/" = false → GoStrings.ContainsByte ext "." = false →
  GoPath.Ext (stem +:+ "." +:+ ext) = "." +:+ ext.
Proof.
  intros H1 H2. unfold GoPath.Ext.
  rewrite !rev_append. change (String.rev ".") with ".".
  rewrite str_app_assoc. change ("." +:+ String.rev stem) with (String "." (String.rev stem)).
  rewrite extRev_app by (by rewrite ContainsByte_rev).
  by rewrite rev_involutive.
Qed.

Lemma TrimSuffix_app s suffix :
  GoStringsMore.TrimSuffix (s +:+ suffix) suffix = s.
Proof.
  unfold GoStringsMore.TrimSuffix, GoStringsMore.HasSuffix.
  rewrite rev_append.
  assert (String.prefix (String.rev suffix) (String.rev suffix +:+ String.rev s) = true)
    as -> by (apply prefix_iff; by eexists).
  rewrite str_length_app.
  replace (String.length s + String.length suffix - String.length suffix)
    with (String.length s) by lia.
  apply substring_app_length.
Qed.

End ExtFacts.

Section LoadFacts.

Context {Disk : Type}.
Variable osReadFile : Disk → string → result string string.
Variable sopsDecrypt : Disk → string → result (string * string) string.
Variable environ : gmap string string.

Local Abbreviation LoadSecretFile := (LoadSecretFile osReadFile sopsDecrypt environ).

(** X16. The namespace and the name of a secret come from the last two
    elements of its path: for a clean path of at least three elements,
    dir/.../namespace/name.ext, LoadSecretFile can only yield the namespace
    and the name without its last extension; a path of two elements or of one
    is rejected. *)
Theorem secret_path_rule (dirs : list string) (namespace stem ext : string) :
  dirs ≠ [] →
  Forall (λ e, plainElem e = true) (dirs ++ [namespace; stem +:+ "." +:+ ext]) →
  GoStrings.ContainsByte ext "." = false →
  let filePath := GoPath.joinElems (dirs ++ [namespace; stem +:+ "." +:+ ext]) in
  secretOfPath filePath = Some (namespace, stem) ∧
  (∀ d secret, LoadSecretFile d filePath = Ok secret →
               Namespace secret = namespace ∧ Name secret = stem) ∧
  secretOfPath (GoPath.joinElems [namespace; stem +:+ "." +:+ ext]) = None ∧
  secretOfPath (stem +:+ "." +:+ ext) = None ∧
  (∀ d, is_ok (LoadSecretFile d (GoPath.joinElems [namespace; stem +:+ "." +:+ ext]))
        = false).
Proof.
  intros Hdirs Hall Hext filePath.
  set (file := stem +:+ "." +:+ ext) in *.
  assert (plainElem namespace = true ∧ plainElem file = true) as [Hns Hfile].
  { apply Forall_app in Hall as [_ Hall].
    apply Forall_cons in Hall as [? Hall]. by apply Forall_cons in Hall as [? _]. }
  assert (GoStrings.ContainsByte ext "/" = false) as Hext'.
  { apply plainElem_facts in Hfile as (_ & Hno & _). subst file.
    rewrite !ContainsByte_app in Hno.
    by apply orb_false_iff in Hno as [_ [_ ?]%orb_false_iff]. }
  assert (secretOfPath filePath = Some (namespace, stem)) as Hpath.
  { unfold secretOfPath. subst filePath.
    rewrite pathParts_plain by (done || by destruct dirs).
    rewrite length_app. cbn [length].
    assert ((length dirs + 2 <? 3)%nat = false) as ->.
    { apply Nat.ltb_ge. destruct dirs; [done|]. cbn [length]. lia. }
    replace (length dirs + 2 - 2) with (length dirs + 0) by lia.
    replace (length dirs + 2 - 1) with (length dirs + 1) by lia.
    rewrite !lookup_app_r by lia.
    replace (length dirs + 0 - length dirs) with 0 by lia.
    replace (length dirs + 1 - length dirs) with 1 by lia.
    cbn [lookup list_lookup default id]. subst file.
    rewrite Ext_dot by done. by rewrite TrimSuffix_app. }
  assert (secretOfPath (GoPath.joinElems [namespace; file]) = None) as Htwo.
  { unfold secretOfPath. rewrite pathParts_plain by (by repeat constructor). done. }
  split; [done|]. split; [|split; [done|split]].
  - intros d secret. unfold LoadSecretFile. rewrite Hpath.
    destruct (readFileWithSOPS _ _ _ _) as [content|e]; [|done].
    destruct (parseSecretContent content) as [[data ty]|e]; [|done].
    by intros [= <-].
  - unfold secretOfPath.
    pose proof (pathParts_plain [file]) as Hone. cbn [GoPath.joinElems] in Hone.
    rewrite Hone by (by repeat constructor). done.
  - intros d. unfold LoadSecretFile. by rewrite Htwo.
Qed.

End LoadFacts.

Lemma secret_path_rule_witness :
  secretOfPath "secrets/test/dotenv.env" = Some ("test", "dotenv") ∧
  secretOfPath "test/dotenv.env" = None.
Proof.
  assert (Forall (λ e, plainElem e = true) (["secrets"] ++ ["test"; "dotenv" +:+ "." +:+ "env"]))
    as Hall by (repeat constructor).
  pose proof (secret_path_rule exampleReadFile exampleDecrypt ∅ ["secrets"] "test"
                "dotenv" "env" ltac:(discriminate) Hall eq_refl) as (H1 & _ & H2 & _).
  split; [exact H1|exact H2].
Defined.

(** ** secret.go: the buffered writer of WriteSecretFile *)

Section BufferedWriterFacts.

Context {Disk : Type}.
Variable osMkdirAll : Disk → string → Disk * option string.
Variable osOpenFile : Disk → string → Disk * option string.
Variable fileWrite : Disk → string → string → Disk * option string.
Variable isPrintWide : N → bool.

Local Abbreviation bufWrite := (bufWrite fileWrite).
Local Abbreviation Fprintf := (Fprintf fileWrite).
Local Abbreviation writeLines := (writeLines fileWrite).
Local Abbreviation Flush := (Flush fileWrite).
Local Abbreviation WriteSecretFile :=
  (WriteSecretFile osMkdirAll osOpenFile fileWrite isPrintWide).

Implicit Types (w : @Writer Disk) (path text line : string) (lines : list string).

Lemma concatLines_app lines lines' :
  concatLines (lines ++ lines') = concatLines lines +:+ concatLines lines'.
Proof. apply concat_lines_app. Qed.

(** A line that fits the room left is only buffered. *)
Lemma Fprintf_fits path line w :
  werr w = None →
  String.length (buffered w) + String.length line ≤ defaultBufSize →
  Fprintf path line w =
    {| buffered := buffered w +:+ line; wdisk := wdisk w; wops := wops w;
       werr := None |}.
Proof.
  intros Herr Hfit. unfold Fprintf. rewrite Nat.add_comm. cbn [Nat.add bufWrite].
  assert ((defaultBufSize - String.length (buffered w) <? String.length line)%nat = false)
    as -> by (apply Nat.ltb_ge; lia).
  cbn [andb]. by rewrite Herr.
Qed.

Lemma writeLines_fits path lines : ∀ w,
  werr w = None →
  String.length (buffered w) + String.length (concatLines lines) ≤ defaultBufSize →
  writeLines path lines w =
    {| buffered := buffered w +:+ concatLines lines; wdisk := wdisk w;
       wops := wops w; werr := None |}.
Proof.
  induction lines as [|line lines IH]; intros w Herr Hfit.
  - cbn. rewrite str_app_nil_r. destruct w. cbn in *. by subst.
  - cbn [writeLines concatLines foldr] in *. rewrite str_length_app in Hfit.
    rewrite Fprintf_fits by (done || lia). cbn [werr].
    rewrite IH; cbn [buffered werr wdisk wops]; [|done|].
    + by rewrite str_app_assoc.
    + rewrite str_length_app. unfold concatLines. lia.
Qed.

(** X17. When the directory and the file can be created and the text is at
    most 4096 bytes, WriteSecretFile returns no error whatever the write does:
    the text is buffered and sent in one write by the deferred Flush (none
    when the text is empty), whose error is dropped. *)
Theorem small_file_is_written_at_once (d d1 d2 : Disk)
    (filePath secretType : string) (data : gmap string string) :
  osMkdirAll d (GoPath.Dir filePath) = (d1, None) →
  osOpenFile d1 filePath = (d2, None) →
  String.length (secretFileText isPrintWide secretType data) ≤ defaultBufSize →
  let text := secretFileText isPrintWide secretType data in
  WriteSecretFile d filePath secretType data =
    if String.eqb text EmptyString
    then (d2, [OpMkdirAll (GoPath.Dir filePath); OpOpenFile filePath], None)
    else ((fileWrite d2 filePath text).1,
          [OpMkdirAll (GoPath.Dir filePath); OpOpenFile filePath;
           OpWrite filePath text],
          None).
Proof.
  intros Hmk Hop Hlen text. unfold WriteSecretFile. rewrite Hmk, Hop.
  set (keyLines := (λ key, secretLine isPrintWide key (mapIndex data key).1)
                     <$> sortKeys (elements (dom data))).
  assert (text = concatLines (typeComment secretType) +:+ concatLines keyLines) as Htext.
  { subst text. unfold secretFileText, secretFileLines. apply concat_lines_app. }
  fold text in Hlen. rewrite Htext, str_length_app in Hlen.
  rewrite writeLines_fits; cbn [buffered werr wdisk wops]; [|done|].
  2:{ change (String.length EmptyString) with 0. lia. }
  rewrite writeLines_fits; cbn [buffered werr wdisk wops]; [|done|].
  2:{ rewrite str_app_nil_l. lia. }
  rewrite (str_app_nil_l (concatLines (typeComment secretType))), <- Htext.
  unfold Flush. cbn [werr buffered].
  destruct (String.eqb text EmptyString); [done|].
  unfold writeThrough. cbn [wdisk buffered wops].
  by destruct (fileWrite d2 filePath text) as [d3 [e|]].
Qed.

Local Abbreviation writerHolds := (writerHolds fileWrite).

Hypothesis fileWrite_ok : ∀ d path bytes, (fileWrite d path bytes).2 = None.

Lemma writeThrough_ok path d0 ops0 chunks acc bytes w :
  werr w = None →
  wops w = ops0 ++ (OpWrite path <$> chunks) →
  wdisk w = foldl (λ d c, (fileWrite d path c).1) d0 chunks →
  concatLines chunks +:+ bytes = acc →
  writerHolds path d0 ops0 (chunks ++ [bytes]) acc (writeThrough fileWrite path bytes w).
Proof.
  intros Herr Hops Hdisk Hacc. unfold writeThrough, writerHolds.
  pose proof (fileWrite_ok (wdisk w) path bytes) as Hok.
  destruct (fileWrite (wdisk w) path bytes) as [d e] eqn:Hw. cbn [snd] in Hok. subst e.
  cbn [werr buffered wops wdisk]. split; [done|]. split; [cbn; lia|].
  split; [by rewrite Hops, fmap_app, <- app_assoc|]. split.
  - by rewrite foldl_app, <- Hdisk; cbn; rewrite Hw.
  - rewrite concatLines_app, str_app_nil_r. cbn [concatLines foldr].
    by rewrite str_app_nil_r.
Qed.

Lemma bufWrite_ok path d0 ops0 p : ∀ fuel chunks acc w,
  writerHolds path d0 ops0 chunks acc w →
  String.length p + 2 ≤ fuel →
  ∃ chunks', writerHolds path d0 ops0 chunks' (acc +:+ p) (bufWrite fuel path p w).
Proof.
  intros fuel chunks acc w (Herr & Hlen & Hops & Hdisk & Hacc) Hfuel.
  destruct fuel as [|fuel]; [lia|]. cbn [bufWrite]. rewrite Herr.
  cbn [is_Some bool_decide]. rewrite bool_decide_eq_false_2 by (by intros [? ?]).
  cbn [negb]. rewrite andb_true_r.
  set (available := defaultBufSize - String.length (buffered w)).
  destruct (available <? String.length p)%nat eqn:Hfit.
  - apply Nat.ltb_lt in Hfit.
    destruct (String.eqb_spec (buffered w) EmptyString) as [Hb|Hb].
    + (* a large write on an empty buffer *)
      rewrite Hb, str_app_nil_r in Hacc.
      pose proof (writeThrough_ok path d0 ops0 chunks (acc +:+ p) p w Herr Hops Hdisk)
        as Hw. rewrite Hacc in Hw. specialize (Hw eq_refl).
      destruct Hw as (Herr1 & Hlen1 & Hops1 & Hdisk1 & Hacc1).
      exists (chunks ++ [p]).
      destruct fuel as [|fuel]; [lia|]. cbn [bufWrite]. rewrite Herr1.
      assert (buffered (writeThrough fileWrite path p w) = EmptyString) as Hbuf.
      { unfold writeThrough. pose proof (fileWrite_ok (wdisk w) path p) as Hok.
        destruct (fileWrite (wdisk w) path p) as [d e]. cbn [snd] in Hok. by subst e. }
      rewrite Hbuf. cbn [String.length Nat.ltb Nat.leb andb].
      unfold writerHolds. cbn [werr buffered wops wdisk].
      rewrite Hbuf in Hacc1. rewrite !str_app_nil_l.
      repeat split; try done. cbn [String.length]. lia.
    + (* the buffer is filled and flushed, the rest is written *)
      set (w1 := {| buffered := buffered w +:+ GoJSON.takeBytes available p;
                    wdisk := wdisk w; wops := wops w; werr := None |}).
      assert (String.length (GoJSON.takeBytes available p) = available) as Htake
        by (apply length_takeBytes; lia).
      assert (buffered w1 ≠ EmptyString) as Hb1.
      { cbn. intros Heq. apply Hb. by destruct (buffered w). }
      unfold Flush. cbn [werr w1].
      apply String.eqb_neq in Hb1. fold w1. rewrite Hb1.
      pose proof (writeThrough_ok path d0 ops0 chunks
                    (acc +:+ GoJSON.takeBytes available p) (buffered w1) w1) as Hw.
      cbn [werr wops wdisk w1] in Hw. specialize (Hw eq_refl Hops Hdisk).
      rewrite <- Hacc, str_app_assoc in Hw. specialize (Hw eq_refl).
      destruct Hw as (Herr2 & Hlen2 & Hops2 & Hdisk2 & Hacc2).
      set (w2 := writeThrough fileWrite path (buffered w1) w1) in *.
      assert (buffered w2 = EmptyString) as Hbuf2.
      { subst w2. unfold writeThrough.
        pose proof (fileWrite_ok (wdisk w1) path (buffered w1)) as Hok.
        destruct (fileWrite (wdisk w1) path (buffered w1)) as [d e].
        cbn [snd] in Hok. by subst e. }
      set (rest := GoStrings.dropBytes available p).
      assert (GoJSON.takeBytes available p +:+ rest = p) as Hsplit
        by apply take_drop_bytes.
      destruct fuel as [|fuel]; [lia|]. cbn [bufWrite]. rewrite Herr2, Hbuf2.
      cbn [String.length]. rewrite Nat.sub_0_r.
      rewrite bool_decide_eq_false_2 by (by intros [? ?]). cbn [negb].
      rewrite andb_true_r. cbn [String.eqb].
      destruct (defaultBufSize <? String.length rest)%nat eqn:Hbig.
      * (* the rest is larger than the buffer: written directly *)
        rewrite Hbuf2, str_app_nil_r in Hacc2.
        assert (concatLines (chunks ++ [buffered w1]) +:+ rest = acc +:+ p) as Hacc'.
        { by rewrite Hacc2, <- Hacc, !str_app_assoc, Hsplit. }
        destruct (writeThrough_ok path d0 ops0 (chunks ++ [buffered w1])
                    (acc +:+ p) rest w2 Herr2 Hops2 Hdisk2 Hacc')
          as (Herr3 & Hlen3 & Hops3 & Hdisk3 & Hacc3).
        exists ((chunks ++ [buffered w1]) ++ [rest]).
        assert (buffered (writeThrough fileWrite path rest w2) = EmptyString) as Hbuf3.
        { unfold writeThrough. pose proof (fileWrite_ok (wdisk w2) path rest) as Hok.
          destruct (fileWrite (wdisk w2) path rest) as [d e]. cbn [snd] in Hok.
          by subst e. }
        destruct fuel as [|fuel]; [lia|]. cbn [bufWrite]. rewrite Herr3, Hbuf3.
        cbn [String.length Nat.ltb Nat.leb andb].
        unfold writerHolds. cbn [werr buffered wops wdisk].
        rewrite Hbuf3 in Hacc3. rewrite !str_app_nil_l.
        repeat split; try done. cbn [String.length]. lia.
      * apply Nat.ltb_ge in Hbig. exists (chunks ++ [buffered w1]).
        unfold writerHolds. cbn [werr buffered wops wdisk].
        rewrite str_app_nil_l. split; [done|]. split; [done|].
        split; [done|]. split; [done|].
        rewrite Hbuf2, str_app_nil_r in Hacc2.
        by rewrite Hacc2, <- Hacc, !str_app_assoc, Hsplit.
  - apply Nat.ltb_ge in Hfit. exists chunks.
    unfold writerHolds. cbn [werr buffered wops wdisk].
    split; [done|]. split; [rewrite str_length_app; lia|].
    split; [done|]. split; [done|]. by rewrite <- str_app_assoc, Hacc.
Qed.

Lemma writeLines_ok path d0 ops0 lines : ∀ chunks acc w,
  writerHolds path d0 ops0 chunks acc w →
  ∃ chunks', writerHolds path d0 ops0 chunks' (acc +:+ concatLines lines)
                         (writeLines path lines w).
Proof.
  induction lines as [|line lines IH]; intros chunks acc w Hw.
  - exists chunks. cbn. by rewrite str_app_nil_r.
  - cbn [writeLines].
    destruct (bufWrite_ok path d0 ops0 line (String.length line + 2) chunks acc w Hw)
      as [chunks1 Hw1]; [lia|].
    fold (Fprintf path line w) in Hw1.
    pose proof Hw1 as (Herr1 & _). rewrite Herr1.
    destruct (IH chunks1 _ _ Hw1) as [chunks2 Hw2].
    exists chunks2. cbn [concatLines foldr]. by rewrite <- str_app_assoc.
Qed.

(** X18. When the directory and the file can be created and every write
    succeeds, WriteSecretFile returns no error and the chunks written to the
    file, in order, make up exactly the text of the secret: nothing is lost or
    repeated by the buffering. *)
Theorem written_file_holds_the_text (d d1 d2 : Disk)
    (filePath secretType : string) (data : gmap string string) :
  osMkdirAll d (GoPath.Dir filePath) = (d1, None) →
  osOpenFile d1 filePath = (d2, None) →
  ∃ chunks,
    WriteSecretFile d filePath secretType data =
      (foldl (λ d c, (fileWrite d filePath c).1) d2 chunks,
       [OpMkdirAll (GoPath.Dir filePath); OpOpenFile filePath]
       ++ (OpWrite filePath <$> chunks),
       None) ∧
    concatLines chunks = secretFileText isPrintWide secretType data.
Proof.
  intros Hmk Hop. unfold WriteSecretFile. rewrite Hmk, Hop.
  set (ops0 := [OpMkdirAll (GoPath.Dir filePath); OpOpenFile filePath]).
  set (w0 := {| buffered := EmptyString; wdisk := d2; wops := ops0; werr := None |}).
  assert (writerHolds filePath d2 ops0 [] EmptyString w0) as H0.
  { unfold writerHolds. cbn [werr buffered wops wdisk w0 fmap list_fmap].
    rewrite app_nil_r. repeat split; try done. cbn [String.length]. lia. }
  destruct (writeLines_ok filePath d2 ops0 (typeComment secretType) _ _ _ H0)
    as [chunks1 H1].
  set (w1 := writeLines filePath (typeComment secretType) w0) in *.
  pose proof H1 as (Herr1 & _). rewrite Herr1.
  set (keyLines := (λ key, secretLine isPrintWide key (mapIndex data key).1)
                     <$> sortKeys (elements (dom data))).
  destruct (writeLines_ok filePath d2 ops0 keyLines _ _ _ H1) as [chunks2 H2].
  set (w2 := writeLines filePath keyLines w1) in *.
  pose proof H2 as (Herr2 & Hlen2 & Hops2 & Hdisk2 & Hacc2). rewrite Herr2.
  rewrite str_app_nil_l in Hacc2.
  assert (concatLines (typeComment secretType) +:+ concatLines keyLines =
          secretFileText isPrintWide secretType data) as Htext.
  { unfold secretFileText, secretFileLines. symmetry. apply concat_lines_app. }
  unfold Flush. rewrite Herr2.
  destruct (String.eqb_spec (buffered w2) EmptyString) as [Hb|Hb].
  - exists chunks2. rewrite Hops2, Hdisk2. split; [done|].
    rewrite Hb, str_app_nil_r in Hacc2. by rewrite Hacc2.
  - exists (chunks2 ++ [buffered w2]).
    destruct (writeThrough_ok filePath d2 ops0 chunks2 _ (buffered w2) w2
                Herr2 Hops2 Hdisk2 Hacc2) as (_ & _ & Hops3 & Hdisk3 & Hacc3).
    rewrite Hops3, Hdisk3. split; [done|].
    rewrite concatLines_app. cbn [concatLines foldr]. rewrite str_app_nil_r.
    by rewrite Hacc2.
Qed.

End BufferedWriterFacts.

Lemma written_file_holds_the_text_witness :
  ∃ chunks,
    WriteSecretFile exampleCreate exampleCreate exampleWrite (λ _, true) tt
      "secrets/test/dotenv.env" "Opaque" {[ "K" := "1" ]} =
      (foldl (λ d c, (exampleWrite d "secrets/test/dotenv.env" c).1) tt chunks,
       [OpMkdirAll (GoPath.Dir "secrets/test/dotenv.env");
        OpOpenFile "secrets/test/dotenv.env"]
       ++ (OpWrite "secrets/test/dotenv.env" <$> chunks),
       None) ∧
    concatLines chunks = secretFileText (λ _, true) "Opaque" {[ "K" := "1" ]}.
Proof.
  exact (written_file_holds_the_text exampleCreate exampleCreate exampleWrite
           (λ _, true) (λ _ _ _, eq_refl) tt tt tt "secrets/test/dotenv.env"
           "Opaque" {[ "K" := "1" ]} eq_refl eq_refl).
Defined.

Lemma small_file_is_written_at_once_witness :
  WriteSecretFile exampleCreate exampleCreate fullDiskWrite (λ _, true) tt
    "secrets/test/dotenv.env" "Opaque" {[ "K" := "1" ]} =
    (tt,
     [OpMkdirAll "secrets/test"; OpOpenFile "secrets/test/dotenv.env";
      OpWrite "secrets/test/dotenv.env" ("K=1" +:+ newline)],
     None).
Proof.
  etrans.
  - apply (small_file_is_written_at_once exampleCreate exampleCreate fullDiskWrite
             (λ _, true) tt tt tt "secrets/test/dotenv.env" "Opaque" {[ "K" := "1" ]}
             eq_refl eq_refl).
    apply Nat.leb_le. vm_compute. reflexivity.
  - vm_compute. reflexivity.
Defined.

(** ** The download handler *)

Section DownloadFacts.

Context {Disk Cluster : Type}.
Variable osStat : Disk → string → result StatError bool.
Variable osReadFile : Disk → string → result string string.
Variable sopsDecrypt : Disk → string → result (string * string) string.
Variable walkVisits : Disk → string → list WalkVisit.
Variable environ : gmap string string.
Variable osMkdirAll : Disk → string → Disk * option string.
Variable osOpenFile : Disk → string → Disk * option string.
Variable fileWrite : Disk → string → string → Disk * option string.
Variable getClient : Cluster → option string.
Variable apiGet : Cluster → string → string → result string K8sSecret.
Variable apiList : Cluster → string → result string (list (string * K8sSecret)).
Variable isPrintWide : N → bool.
Variable rangePick : nat → nat.

Local Abbreviation Host := (@Host Disk Cluster).
Local Abbreviation WriteSecretFile :=
  (WriteSecretFile osMkdirAll osOpenFile fileWrite isPrintWide).
Local Abbreviation LoadSecretsFromPath :=
  (LoadSecretsFromPath osStat osReadFile sopsDecrypt walkVisits environ).
Local Abbreviation readSecret := (@readSecret Disk Cluster getClient apiGet).
Local Abbreviation getSecretMetadata := (@getSecretMetadata Disk Cluster getClient apiGet).
Local Abbreviation listSecretsInNamespace :=
  (@listSecretsInNamespace Disk Cluster getClient apiList).
Local Abbreviation writeSecret :=
  (@writeSecret Disk Cluster osMkdirAll osOpenFile fileWrite isPrintWide).
Local Abbreviation downloadOne :=
  (@downloadOne Disk Cluster osMkdirAll osOpenFile fileWrite getClient apiGet isPrintWide).
Local Abbreviation downloadLoop :=
  (@downloadLoop Disk Cluster osMkdirAll osOpenFile fileWrite getClient apiGet
     isPrintWide rangePick).
Local Abbreviation downloadFile :=
  (@downloadFile Disk Cluster osMkdirAll osOpenFile fileWrite getClient apiGet
     isPrintWide rangePick).
Local Abbreviation downloadDirectory :=
  (@downloadDirectory Disk Cluster osStat osReadFile sopsDecrypt walkVisits environ
     osMkdirAll osOpenFile fileWrite getClient apiGet apiList isPrintWide rangePick).
Local Abbreviation handleDownload :=
  (@handleDownload Disk Cluster osStat osReadFile sopsDecrypt walkVisits environ
     osMkdirAll osOpenFile fileWrite getClient apiGet apiList isPrintWide rangePick).

Implicit Types (h : Host) (paths : list string) (w : @Writer Disk).

Lemma follows_refl paths h : follows paths h h.
Proof.
  split; [done|]. split; [exists []|exists []]; by rewrite app_nil_r.
Qed.

Lemma follows_trans paths h1 h2 h3 :
  follows paths h1 h2 → follows paths h2 h3 → follows paths h1 h3.
Proof.
  intros (Hc1 & (l1 & Hl1 & Hf1) & (o1 & Ho1 & Hw1))
         (Hc2 & (l2 & Hl2 & Hf2) & (o2 & Ho2 & Hw2)).
  split; [congruence|]. split.
  - exists (l1 ++ l2). rewrite Hl2, Hl1, <- app_assoc. split; [done|].
    by rewrite filter_app, Hf1, Hf2.
  - exists (o1 ++ o2). rewrite Ho2, Ho1, <- app_assoc. split; [done|].
    by apply Forall_app.
Qed.

Lemma follows_mono paths paths' h h' :
  paths ⊆ paths' → follows paths h h' → follows paths' h h'.
Proof.
  intros Hsub (Hc & Hl & (ops & Ho & Hw)). split; [done|]. split; [done|].
  exists ops. split; [done|]. eapply Forall_impl; [exact Hw|].
  intros [dir|p|p b]; cbn; [intros (p & Hp & ->); exists p; split; [|done]|..];
    by apply Hsub.
Qed.

Lemma follows_say paths text h : follows paths h (say text h).
Proof.
  split; [done|]. split; [exists []|exists []]; cbn; by rewrite app_nil_r.
Qed.

Lemma readSecret_follows paths namespace name h :
  follows paths h (readSecret namespace name h).2.
Proof.
  unfold readSecret.
  destruct (secretRead getClient apiGet namespace name (world h)) as [r w] eqn:Hr.
  destruct (secretRead_calls _ _ _ _ _ _ _ Hr) as (Hc & _ & Hl).
  cbn. split; [done|]. split; [done|]. exists []. by rewrite app_nil_r.
Qed.

Lemma getSecretMetadata_follows paths namespace name h :
  follows paths h (getSecretMetadata namespace name h).2.
Proof.
  unfold getSecretMetadata.
  destruct (getClient (cluster (world h))); [apply follows_refl|].
  assert (follows paths h (setWorld (call (CallGet namespace name) (world h)) h)) as Hf.
  { split; [done|]. split; [by exists [CallGet namespace name]|].
    exists []. by rewrite app_nil_r. }
  cbn [cluster call]. by destruct (apiGet _ _ _).
Qed.

Lemma listSecretsInNamespace_follows paths namespace h :
  follows paths h (listSecretsInNamespace namespace h).2.
Proof.
  unfold listSecretsInNamespace.
  destruct (getClient (cluster (world h))); [apply follows_refl|].
  destruct (apiList _ _); cbn; (split; [done|]; split; exists []; by rewrite app_nil_r).
Qed.

Lemma writesOnly_refl path w : writesOnly path w w.
Proof. exists []. by rewrite app_nil_r. Qed.

Lemma writesOnly_trans path w1 w2 w3 :
  writesOnly path w1 w2 → writesOnly path w2 w3 → writesOnly path w1 w3.
Proof.
  intros (o1 & Ho1 & Hw1) (o2 & Ho2 & Hw2). exists (o1 ++ o2).
  rewrite Ho2, Ho1, <- app_assoc. split; [done|]. by apply Forall_app.
Qed.

Lemma writeThrough_writesOnly path bytes w w0 :
  wops w = wops w0 →
  writesOnly path w0 (writeThrough fileWrite path bytes w).
Proof.
  intros Hops. unfold writeThrough. destruct (fileWrite _ _ _) as [d e].
  exists [OpWrite path bytes]. cbn. rewrite Hops. split; [done|].
  apply Forall_singleton. by eexists.
Qed.

Lemma Flush_writesOnly path w w0 :
  wops w = wops w0 → writesOnly path w0 (Flush fileWrite path w).
Proof.
  intros Hops. unfold Flush.
  assert (writesOnly path w0 w) as Hw by (exists []; by rewrite app_nil_r).
  destruct (werr w); [done|]. destruct (String.eqb _ _); [done|].
  by apply writeThrough_writesOnly.
Qed.

Lemma bufWrite_writesOnly path : ∀ fuel p w,
  writesOnly path w (bufWrite fileWrite fuel path p w).
Proof.
  induction fuel as [|fuel IH]; intros p w; [apply writesOnly_refl|].
  cbn [bufWrite]. destruct (_ && _).
  - destruct (String.eqb _ _).
    + eapply writesOnly_trans; [|apply IH]. by apply writeThrough_writesOnly.
    + eapply writesOnly_trans; [|apply IH]. by apply Flush_writesOnly.
  - destruct (werr w); [apply writesOnly_refl|]. exists []. by rewrite app_nil_r.
Qed.

Lemma writeLines_writesOnly path lines : ∀ w,
  writesOnly path w (writeLines fileWrite path lines w).
Proof.
  induction lines as [|line lines IH]; intros w; [apply writesOnly_refl|].
  cbn [writeLines]. pose proof (bufWrite_writesOnly path (String.length line + 2) line w) as H1.
  unfold Fprintf. destruct (werr (bufWrite _ _ _ _ _)); [done|].
  eapply writesOnly_trans; [exact H1|apply IH].
Qed.

(** The operations of [WriteSecretFile] act on the file and its directory. *)
Lemma WriteSecretFile_ops d filePath secretType data :
  Forall (opWithin [filePath]) (WriteSecretFile d filePath secretType data).1.2.
Proof.
  assert (opWithin [filePath] (OpMkdirAll (GoPath.Dir filePath))) as Hmk.
  { exists filePath. split; [apply list_elem_of_singleton|]; done. }
  assert (opWithin [filePath] (OpOpenFile filePath)) as Hop.
  { by apply list_elem_of_singleton. }
  assert (∀ w : @Writer Disk,
    writesOnly filePath
      {| buffered := EmptyString; wdisk := wdisk w;
         wops := [OpMkdirAll (GoPath.Dir filePath); OpOpenFile filePath]; werr := None |} w →
    Forall (opWithin [filePath]) (wops w)) as Hw.
  { intros w (ops & -> & Hops). cbn [wops]. apply Forall_app. split.
    - by repeat constructor.
    - eapply Forall_impl; [exact Hops|]. intros op [bytes ->]. cbn.
      by apply list_elem_of_singleton. }
  unfold WriteSecretFile.
  destruct (osMkdirAll d _) as [d1 [e|]]; [by repeat constructor|].
  destruct (osOpenFile d1 _) as [d2 [e|]]; [by repeat constructor|].
  set (w0 := {| buffered := EmptyString; wdisk := d2;
               wops := [OpMkdirAll (GoPath.Dir filePath); OpOpenFile filePath];
               werr := None |}).
  pose proof (writeLines_writesOnly filePath (typeComment secretType) w0) as H1.
  set (w1 := writeLines fileWrite filePath (typeComment secretType) w0) in *.
  destruct (werr w1); [cbn; by apply (Hw w1)|].
  match goal with |- context [writeLines fileWrite filePath ?ls w1] =>
    pose proof (writeLines_writesOnly filePath ls w1) as H2;
    set (w2 := writeLines fileWrite filePath ls w1) in * end.
  pose proof (writesOnly_trans _ _ _ _ H1 H2) as H12.
  destruct (werr w2); [cbn; by apply (Hw w2)|].
  cbn. apply (Hw (Flush fileWrite filePath w2)).
  eapply writesOnly_trans; [exact H12|]. by apply Flush_writesOnly.
Qed.

Lemma writeSecret_follows paths filePath secretType data h :
  filePath ∈ paths →
  follows paths h (writeSecret filePath secretType data h).2.
Proof.
  intros Hin. unfold writeSecret.
  pose proof (WriteSecretFile_ops (disk h) filePath secretType data) as Hops.
  destruct (WriteSecretFile _ _ _ _) as [[d ops] err]. cbn in *.
  split; [done|]. split; [exists []; by rewrite app_nil_r|].
  exists ops. split; [done|]. eapply Forall_impl; [exact Hops|].
  intros [dir|p|p b]; cbn.
  - intros (p & ->%list_elem_of_singleton & ->). by exists filePath.
  - by intros ->%list_elem_of_singleton.
  - by intros ->%list_elem_of_singleton.
Qed.

Lemma downloadTarget_eq namespace secretName :
  downloadTarget namespace secretName =
    GoPath.Join ["secrets"; namespace; secretName +:+ ".env"].
Proof. reflexivity. Qed.

Lemma downloadOne_follows paths pick namespace secretName secretType errors h :
  downloadTarget namespace secretName ∈ paths →
  follows paths h (downloadOne pick namespace secretName secretType (errors, h)).2.
Proof.
  intros Hin. unfold downloadOne.
  set (h1 := say _ h).
  pose proof (readSecret_follows paths namespace secretName h1) as Hr.
  assert (follows paths h h1) as H1 by apply follows_say.
  destruct (readSecret namespace secretName h1) as [[k8sData|e] h2]; cbn [snd] in *.
  2:{ eapply follows_trans; [exact H1|]. eapply follows_trans; [exact Hr|].
      apply follows_say. }
  destruct (FromKubernetesData _ _ _) as [fileData|e]; cbn [snd].
  2:{ eapply follows_trans; [exact H1|]. eapply follows_trans; [exact Hr|].
      apply follows_say. }
  rewrite downloadTarget_eq in Hin.
  pose proof (writeSecret_follows paths _ secretType fileData h2 Hin) as Hw.
  destruct (writeSecret _ _ _ h2) as [[e|] h3]; cbn [snd] in *;
    (eapply follows_trans; [exact H1|]; eapply follows_trans; [exact Hr|];
     eapply follows_trans; [exact Hw|]; apply follows_say).
Qed.

Lemma downloadLoop_follows paths items : ∀ i errors h,
  (∀ namespace secretName secretType,
     (namespace, secretName, secretType) ∈ items →
     downloadTarget namespace secretName ∈ paths) →
  follows paths h (downloadLoop i items (errors, h)).2.
Proof.
  induction items as [|[[namespace secretName] secretType] items IH];
    intros i errors h Hin; [apply follows_refl|].
  cbn [downloadLoop].
  pose proof (downloadOne_follows paths (rangePick i) namespace secretName secretType
                errors h) as H1.
  destruct (downloadOne _ _ _ _ _) as [errors1 h1]. cbn [snd] in H1.
  eapply follows_trans; [apply H1, (Hin _ _ secretType), list_elem_of_here|].
  apply IH. intros ns name ty Hel. by apply (Hin ns name ty), list_elem_of_further.
Qed.

Lemma downloadSummary_follows paths errors total h :
  follows paths h (downloadSummary errors total h).
Proof. unfold downloadSummary. destruct (_ <? _)%nat; apply follows_say. Qed.

Lemma downloadFile_follows filePath h :
  follows [filePath] h (downloadFile filePath h).2.
Proof.
  unfold downloadFile. destruct (secretOfPath filePath) as [[namespace secretName]|];
    [|apply follows_refl].
  set (h1 := say _ h). assert (follows [filePath] h h1) as H1 by apply follows_say.
  pose proof (readSecret_follows [filePath] namespace secretName h1) as H2.
  destruct (readSecret namespace secretName h1) as [[k8sData|e] h2]; cbn [snd] in *;
    [|eapply follows_trans; [exact H1|exact H2]].
  pose proof (getSecretMetadata_follows [filePath] namespace secretName h2) as H3.
  destruct (getSecretMetadata namespace secretName h2) as [[secret|e] h3];
    cbn [snd] in *;
    [|eapply follows_trans; [exact H1|eapply follows_trans; [exact H2|exact H3]]].
  assert (follows [filePath] h h3) as H13.
  { eapply follows_trans; [exact H1|eapply follows_trans; [exact H2|exact H3]]. }
  destruct (FromKubernetesData _ _ _) as [fileData|e]; cbn [snd]; [|done].
  pose proof (writeSecret_follows [filePath] filePath (k8sType secret) fileData h3) as H4.
  destruct (writeSecret _ _ _ h3) as [[e|] h4]; cbn [snd] in *.
  - eapply follows_trans; [exact H13|]. apply H4, list_elem_of_here.
  - eapply follows_trans; [exact H13|]. eapply follows_trans; [|apply follows_say].
    apply H4, list_elem_of_here.
Qed.

Local Abbreviation directoryTargets :=
  (directoryTargets osStat osReadFile sopsDecrypt walkVisits environ apiList).

Lemma downloadDirectory_follows dirPath h :
  follows (directoryTargets dirPath h) h (downloadDirectory dirPath h).2.
Proof.
  unfold downloadDirectory, directoryTargets.
  destruct (LoadSecretsFromPath (disk h) dirPath) as [[|secret secrets]|e].
  2:{ match goal with |- context [downloadLoop 0 ?items ?st] =>
        pose proof (downloadLoop_follows
          ((λ s, downloadTarget (Namespace s) (Name s)) <$> (secret :: secrets))
          items 0 0 h) as Hl; destruct (downloadLoop 0 items st) as [errors h1] end.
      cbn [snd] in *. eapply follows_trans; [|apply downloadSummary_follows].
      apply Hl. intros ns name ty (s & [= -> -> ->] & Hs)%list_elem_of_fmap.
      apply list_elem_of_fmap. by exists s. }
  all: destruct (_ <? 2)%nat; [apply follows_refl|].
  all: set (namespace := default EmptyString _).
  all: set (h1 := say _ h).
  all: pose proof (listSecretsInNamespace_follows
         (match apiList (cluster (world h)) namespace with
          | Ok items => (λ item, downloadTarget namespace item.1) <$> items
          | Err _ => []
          end) namespace h1) as Hls.
  all: unfold listSecretsInNamespace in *.
  all: change (world h1) with (world h) in *.
  all: destruct (getClient (cluster (world h))); cbn [snd] in *;
    [eapply follows_trans; [apply follows_say|exact Hls]|].
  all: destruct (apiList (cluster (world h)) namespace) as [items|e'] eqn:Hlist;
    cbn [snd] in *; [|eapply follows_trans; [apply follows_say|exact Hls]].
  all: set (h2 := Build_Host _ _ _ _ _) in *.
  all: assert (follows ((λ item, downloadTarget namespace item.1) <$> items) h h2) as H2
    by (eapply follows_trans; [|exact Hls]; apply follows_say).
  all: destruct (length items =? 0)%nat;
    [eapply follows_trans; [exact H2|apply follows_say]|].
  all: match goal with |- context [downloadLoop 0 ?its ?st] =>
        pose proof (downloadLoop_follows
          ((λ item, downloadTarget namespace item.1) <$> items)
          its 0 0 (say ("Found " +:+ pretty (length items) +:+ " secret(s) in namespace "
                 +:+ namespace +:+ newline) h2)) as Hl;
        destruct (downloadLoop 0 its st) as [errors h4] end.
  all: cbn [snd] in *; eapply follows_trans; [|apply downloadSummary_follows].
  all: eapply follows_trans; [exact H2|]; eapply follows_trans; [apply follows_say|].
  all: apply Hl; intros ns name ty ([n s] & [= -> -> ->] & Hs)%list_elem_of_fmap.
  all: apply list_elem_of_fmap; by exists (n, s).
Qed.

Lemma handleDownload_follows path h :
  follows (path :: directoryTargets path h) h (handleDownload path h).2.
Proof.
  assert (follows (path :: directoryTargets path h) h (downloadFile path h).2) as Hf.
  { eapply follows_mono; [|apply downloadFile_follows].
    intros p ->%list_elem_of_singleton. apply list_elem_of_here. }
  assert (follows (path :: directoryTargets path h) h (downloadDirectory path h).2) as Hd.
  { eapply follows_mono; [|apply downloadDirectory_follows].
    intros p Hp. by apply list_elem_of_further. }
  unfold handleDownload. destruct (osStat (disk h) path) as [[|]|e]; [done..|].
  destruct (isNotExist e); [|apply follows_refl].
  by destruct (GoStringsMore.HasSuffix path ".env").
Qed.

(** X19. A download, of a file or of a directory, sends no create and no
    update request: the cluster after it is the cluster before it, and the
    requests added are reads. *)
Theorem download_only_reads_the_cluster (path : string) (h : Host) :
  let h' := (handleDownload path h).2 in
  cluster (world h') = cluster (world h) ∧
  ∃ requests, calls (world h') = calls (world h) ++ requests ∧
              Forall (λ c, isWrite c = false) requests.
Proof.
  destruct (handleDownload_follows path h) as (Hc & (l & Hl & Hf) & _).
  split; [done|]. exists l. split; [done|].
  apply Forall_forall. intros c Hin. destruct (isWrite c) eqn:Hw; [|done].
  assert (c ∈ filter (λ c, isWrite c = true) l) as Hc'
    by (by apply list_elem_of_filter).
  rewrite Hf in Hc'. by apply elem_of_nil in Hc'.
Qed.

(** X20. The download of a file creates, opens or writes only that file and
    its directory. The download of a directory creates, opens or writes only
    the files secrets/<namespace>/<name>.env, and their directories, of the
    secrets loaded from the directory or, when none loads, listed in the
    namespace that ends the path, wherever the directory given lies;
    handleDownload does one or the other. *)
Theorem download_touches_only_its_files (path : string) (h : Host) :
  (∃ ops, fileOps (downloadFile path h).2 = fileOps h ++ ops ∧
          Forall (opWithin [path]) ops) ∧
  (∃ ops, fileOps (downloadDirectory path h).2 = fileOps h ++ ops ∧
          Forall (opWithin (directoryTargets path h)) ops) ∧
  (∃ ops, fileOps (handleDownload path h).2 = fileOps h ++ ops ∧
          Forall (opWithin (path :: directoryTargets path h)) ops).
Proof.
  split; [|split].
  - by destruct (downloadFile_follows path h) as (_ & _ & Hops).
  - by destruct (downloadDirectory_follows path h) as (_ & _ & Hops).
  - by destruct (handleDownload_follows path h) as (_ & _ & Hops).
Qed.

(** X21. A download of a path of one element, such as the default path
    secrets, that is a directory or does not exist and from which no secret
    loads, fails with `invalid path: expected secrets/<namespace>, got
    <path>`, with no request to the cluster, no output and no file created or
    written. *)
Theorem download_needs_a_namespace_in_the_path (dirPath : string) (h : Host) :
  plainElem dirPath = true →
  GoStringsMore.HasSuffix dirPath ".env" = false →
  (osStat (disk h) dirPath = Ok true ∨
   ∃ e, osStat (disk h) dirPath = Err e ∧ isNotExist e = true) →
  (∀ secret secrets, LoadSecretsFromPath (disk h) dirPath ≠ Ok (secret :: secrets)) →
  handleDownload dirPath h =
    (Some ("invalid path: expected secrets/<namespace>, got " +:+ dirPath), h).
Proof.
  intros Hplain Hsuffix Hstat Hload.
  assert (downloadDirectory dirPath h =
            (Some ("invalid path: expected secrets/<namespace>, got " +:+ dirPath), h))
    as Hdir.
  { unfold downloadDirectory.
    assert (GoPath.pathParts dirPath = [dirPath]) as ->.
    { apply (pathParts_plain [dirPath]); [by apply Forall_singleton|done]. }
    destruct (LoadSecretsFromPath (disk h) dirPath) as [[|secret secrets]|e] eqn:Hl;
      [done| |done].
    by destruct (Hload secret secrets). }
  unfold handleDownload.
  destruct Hstat as [->|(e & -> & ->)]; [done|]. by rewrite Hsuffix.
Qed.

End DownloadFacts.

Lemma download_needs_a_namespace_in_the_path_witness :
  handleDownload exampleStat exampleReadFile exampleDecrypt exampleWalk ∅
    exampleCreate exampleCreate exampleWrite (λ _, None) memGet memList
    (λ _, true) (λ _, 0) "secrets" exampleHost =
    (Some "invalid path: expected secrets/<namespace>, got secrets", exampleHost).
Proof.
  apply (download_needs_a_namespace_in_the_path exampleStat exampleReadFile
           exampleDecrypt exampleWalk ∅ exampleCreate exampleCreate exampleWrite
           (λ _, None) memGet memList (λ _, true) (λ _, 0) "secrets" exampleHost).
  - reflexivity.
  - reflexivity.
  - right. eexists. split; reflexivity.
  - intros secret secrets H. discriminate H.
Defined.

